(** * Candidate-job compatibility engine

    A shallow embedding of the scoring and parsing code of
    [server/services/aiMatching.js] and [server/services/resumeParser.js],
    and of the route of [server/routes/matches.js] that generates matches.

    JavaScript numbers are IEEE-754 binary64 values, so they are modelled by
    Rocq's primitive floats, which are the same binary64 values with the same
    correctly rounded operations.  Integers that the code only counts with
    (list lengths, month totals) are kept in [Z] and converted with [of_Z] at
    the point where the code divides or compares them. *)

From Stdlib Require Import ZArith List Bool Lia String Ascii.
From Stdlib Require Import Floats Uint63 FMapPositive.
From Stdlib Require Import DecimalString Permutation Sorted.
Import ListNotations.

Set Warnings "-inexact-float".

(** ** JavaScript strings

    Strings are sequences of characters with codes below 256 (Latin-1); the
    functions below are the [String.prototype] methods the code calls, on
    that alphabet.  White space is what the regular-expression class [\s]
    and [trim] accept there: tab, line feed, vertical tab, form feed,
    carriage return, space and no-break space. *)

Module JSString.

Local Open Scope string_scope.
Local Open Scope nat_scope.

Definition is_space (c : ascii) : bool :=
  let n := nat_of_ascii c in
  ((9 <=? n) && (n <=? 13)) || (n =? 32) || (n =? 160).

Definition is_digit (c : ascii) : bool :=
  let n := nat_of_ascii c in (48 <=? n) && (n <=? 57).

(** A word character of [\w] and [\b]: letter, digit or underscore. *)
Definition is_word_char (c : ascii) : bool :=
  let n := nat_of_ascii c in
  ((48 <=? n) && (n <=? 57)) || ((65 <=? n) && (n <=? 90))
  || ((97 <=? n) && (n <=? 122)) || (n =? 95).

(** Lower case of one character: A-Z, and the accented capitals 192-222
    but for the multiplication sign 215. *)
Definition lower_char (c : ascii) : ascii :=
  let n := nat_of_ascii c in
  if ((65 <=? n) && (n <=? 90))
     || ((192 <=? n) && (n <=? 222) && negb (n =? 215))
  then ascii_of_nat (n + 32) else c.

Fixpoint toLowerCase (s : string) : string :=
  match s with
  | EmptyString => EmptyString
  | String c r => String (lower_char c) (toLowerCase r)
  end.

Fixpoint rev_string (s acc : string) : string :=
  match s with
  | EmptyString => acc
  | String c r => rev_string r (String c acc)
  end.

Fixpoint trimStart (s : string) : string :=
  match s with
  | String c r => if is_space c then trimStart r else s
  | EmptyString => EmptyString
  end.

Definition trimEnd (s : string) : string :=
  rev_string (trimStart (rev_string s EmptyString)) EmptyString.

Definition trim (s : string) : string := trimEnd (trimStart s).

(** [s.startsWith(p)] *)
Fixpoint startsWith (p s : string) : bool :=
  match p, s with
  | EmptyString, _ => true
  | String a p', String b s' => Ascii.eqb a b && startsWith p' s'
  | String _ _, EmptyString => false
  end.

(** [s.includes(p)] *)
Fixpoint includes (s p : string) : bool :=
  startsWith p s
  || match s with
     | EmptyString => false
     | String _ r => includes r p
     end.

(** [s.indexOf(c)] for a one-character [c]; -1 when absent. *)
Fixpoint indexOf_from (c : ascii) (s : string) (i : Z) : Z :=
  match s with
  | EmptyString => (-1)%Z
  | String a r => if Ascii.eqb a c then i else indexOf_from c r (i + 1)%Z
  end.

Definition indexOf (c : ascii) (s : string) : Z := indexOf_from c s 0%Z.

(** [s.lastIndexOf(c)] for a one-character [c]; -1 when absent. *)
Fixpoint lastIndexOf_from (c : ascii) (s : string) (i last : Z) : Z :=
  match s with
  | EmptyString => last
  | String a r =>
      lastIndexOf_from c r (i + 1)%Z (if Ascii.eqb a c then i else last)
  end.

Definition lastIndexOf (c : ascii) (s : string) : Z :=
  lastIndexOf_from c s 0%Z (-1)%Z.

(** [s.substring(a, b)]: indices are clamped to [0, length] and swapped
    when [a > b]. *)
Definition substring (a b : Z) (s : string) : string :=
  let n := Z.of_nat (String.length s) in
  let a' := Z.min (Z.max a 0) n in
  let b' := Z.min (Z.max b 0) n in
  let lo := Z.min a' b' in
  let hi := Z.max a' b' in
  String.substring (Z.to_nat lo) (Z.to_nat (hi - lo)) s.

(** [s.slice(0, n)] on a string. *)
Definition slice0 (n : nat) (s : string) : string := String.substring 0 n s.

(** [s.split(re)] for a regular expression [re] that matches exactly one
    character satisfying [sep]. *)
Fixpoint split_on (sep : ascii -> bool) (s : string) (cur : string) : list string :=
  match s with
  | EmptyString => [rev_string cur EmptyString]
  | String c r =>
      if sep c then rev_string cur EmptyString :: split_on sep r EmptyString
      else split_on sep r (String c cur)
  end.

(** [s.split(/\s+/)]: [skipping] is set while a run of white space that has
    already closed a piece is being consumed. *)
Fixpoint split_ws_from (s : string) (cur : string) (skipping : bool) : list string :=
  match s with
  | EmptyString => [rev_string cur EmptyString]
  | String c r =>
      if is_space c then
        if skipping then split_ws_from r EmptyString true
        else rev_string cur EmptyString :: split_ws_from r EmptyString true
      else split_ws_from r (String c cur) false
  end.

Definition split_ws (s : string) : list string := split_ws_from s EmptyString false.

(** [s.split(/\r?\n/)]: pieces end at each line feed, which takes a
    directly preceding carriage return with it. *)
Definition drop_cr (rev_piece : string) : string :=
  match rev_piece with
  | String "013"%char r => r
  | _ => rev_piece
  end.

Fixpoint split_lines_from (s : string) (cur : string) : list string :=
  match s with
  | EmptyString => [rev_string cur EmptyString]
  | String c r =>
      if Ascii.eqb c "010"%char
      then rev_string (drop_cr cur) EmptyString :: split_lines_from r EmptyString
      else split_lines_from r (String c cur)
  end.

Definition split_lines (s : string) : list string := split_lines_from s EmptyString.

(** [s.split(p)[0]] for a non-empty string [p]: what precedes the first
    occurrence of [p], the whole of [s] when there is none. *)
Fixpoint before_first (p s : string) : string :=
  match s with
  | EmptyString => EmptyString
  | String c r => if startsWith p s then EmptyString else String c (before_first p r)
  end.

(** [s.replace(re, r)] for a global [re] that matches exactly one character
    satisfying [hit], replaced by the character [r]. *)
Fixpoint replace_chars (hit : ascii -> bool) (r : ascii) (s : string) : string :=
  match s with
  | EmptyString => EmptyString
  | String c t => String (if hit c then r else c) (replace_chars hit r t)
  end.

End JSString.

(** ** JavaScript numbers *)

Module JSNum.

Definition number := float.

(** An integer as a JS number: the nearest binary64 value, the integer
    itself below 2^53 in absolute value.  Below 2^62 the conversion is the
    primitive one, which rounds in the same way. *)
Definition of_Z (z : Z) : number :=
  if (Z.abs z <? 4611686018427387904)%Z then
    if (z <? 0)%Z
    then PrimFloat.opp (PrimFloat.of_uint63 (Uint63.of_Z (- z)))
    else PrimFloat.of_uint63 (Uint63.of_Z z)
  else SF2Prim (binary_normalize prec emax z 0%Z false).

(** [Math.round]: the integer nearest to [x], ties towards +infinity;
    NaN, the infinities and the zeros are returned unchanged, and a
    negative argument that rounds to zero gives -0.  A finite [x] is
    [v * 2^e] for an integer [v]; for [e < 0] its rounding is
    [floor ((2 v + 2^(-e)) / 2^(1-e))], computed with shifts. *)
Definition Math_round (x : number) : number :=
  match Prim2SF x with
  | S754_finite s m e =>
      if (0 <=? e)%Z then x
      else
        let v := if s then Z.neg m else Z.pos m in
        let n := Z.shiftr (2 * v + Z.shiftl 1 (- e)) (1 - e) in
        if (n =? 0)%Z then (if s then PrimFloat.neg_zero else PrimFloat.zero)
        else of_Z n
  | _ => x
  end.

(** The integer a number denotes, when it denotes one
    ([Number.isInteger] together with the value). *)
Definition to_Z (x : number) : option Z :=
  match Prim2SF x with
  | S754_zero _ => Some 0%Z
  | S754_finite s m e =>
      let v := if s then Z.neg m else Z.pos m in
      if (0 <=? e)%Z then Some (Z.shiftl v e)
      else
        let q := Z.shiftr v (- e) in
        if (Z.shiftl q (- e) =? v)%Z then Some q else None
  | _ => None
  end.

(** [a >= b] of JS: false as soon as one side is NaN. *)
Definition geb (a b : number) : bool := PrimFloat.leb b a.

(** Truthiness of a number: everything but 0, -0 and NaN. *)
Definition truthy (x : number) : bool :=
  negb (PrimFloat.eqb x PrimFloat.zero) && negb (PrimFloat.is_nan x).

(** [Math.max] and [Math.min]: NaN when an argument is NaN, and -0 counts
    as smaller than +0. *)
Definition Math_max (a b : number) : number :=
  if PrimFloat.is_nan a then a else if PrimFloat.is_nan b then b
  else if PrimFloat.ltb a b then b
  else if PrimFloat.ltb b a then a
  else if PrimFloat.get_sign a then b else a.

Definition Math_min (a b : number) : number :=
  if PrimFloat.is_nan a then a else if PrimFloat.is_nan b then b
  else if PrimFloat.ltb b a then b
  else if PrimFloat.ltb a b then a
  else if PrimFloat.get_sign a then a else b.

End JSNum.

Import JSNum.

(** ** The arithmetic interface

    The operations of JS numbers that the similarity and the lexical skills
    score use. *)

Record arith := {
  num : Type;
  zero : num;
  add : num -> num -> num;
  mul : num -> num -> num;
  div : num -> num -> num;
  sqrt : num -> num;               (* Math.sqrt *)
  from_Z : Z -> num;
  half : num;                      (* the literal 0.5 *)
  is_zero : num -> bool;           (* x === 0 *)
  max : num -> num -> num;         (* Math.max *)
  min : num -> num -> num;         (* Math.min *)
  round : num -> num               (* Math.round *)
}.

(** Binary64, what the code runs on. *)
Definition binary64 : arith := {|
  num := number;
  zero := PrimFloat.zero;
  add := PrimFloat.add;
  mul := PrimFloat.mul;
  div := PrimFloat.div;
  sqrt := PrimFloat.sqrt;
  from_Z := of_Z;
  half := 0.5%float;
  is_zero := fun x => PrimFloat.eqb x PrimFloat.zero;
  max := Math_max;
  min := Math_min;
  round := Math_round
|}.
(** ** Exceptions and the console

    A computation either returns a value or throws; what it writes with
    [console.error] and [console.warn] is collected in order. *)

Module JS.

Inductive error_kind := Error | TypeError | SyntaxError.

(** A thrown value.  [message] is [None] for a thrown value that has no
    [message] property. *)
Record exn := mkExn { kind : error_kind; message : option string }.

Definition new_Error (msg : string) : exn := mkExn Error (Some msg).

Inductive outcome (A : Type) :=
| Return (a : A)
| Throw (e : exn).
Arguments Return {A} a.
Arguments Throw {A} e.

Inductive level := console_error | console_warn.

Inductive arg :=
| Text (s : string)
| Thrown (e : exn).

Definition entry := (level * list arg)%type.

Definition M (A : Type) := (list entry * outcome A)%type.

Definition ret {A} (a : A) : M A := ([], Return a).

Definition throw {A} (e : exn) : M A := ([], Throw e).

Definition lift {A} (o : outcome A) : M A := ([], o).

Definition log (l : level) (args : list arg) : M unit := ([(l, args)], Return tt).

Definition bind {A B} (m : M A) (f : A -> M B) : M B :=
  match m with
  | (l, Return a) => let (l', r) := f a in (l ++ l', r)
  | (l, Throw e) => (l, Throw e)
  end.

(** [try { m } catch (error) { h error }] *)
Definition try_catch {A} (m : M A) (h : exn -> M A) : M A :=
  match m with
  | (l, Throw e) => let (l', r) := h e in (l ++ l', r)
  | (l, Return a) => (l, Return a)
  end.

(** Pure code that can throw: [bind] without a log. *)
Definition obind {A B} (o : outcome A) (f : A -> outcome B) : outcome B :=
  match o with
  | Return a => f a
  | Throw e => Throw e
  end.

Definition logged {A} (m : M A) : list entry := fst m.
Definition result {A} (m : M A) : outcome A := snd m.

End JS.

Import JS.

Notation "x <- m ;; k" := (JS.bind m (fun x => k))
  (at level 61, m at next level, right associativity).
Notation "m ;;; k" := (JS.bind m (fun _ => k))
  (at level 61, right associativity).

(** [error.message && (error.message.includes('quota') ||
    error.message.includes('429'))], the test the AI call sites share. *)
Definition is_quota_error (error : exn) : bool :=
  match message error with
  | Some m =>
      negb (String.eqb m EmptyString)
      && (JSString.includes m "quota" || JSString.includes m "429")
  | None => false
  end.

(** ** Response sanitizer (parseAIJsonResponse, aiMatching.js lines 15-44) *)

Module Sanitizer.

Import JSString.

(** [text.replace(/```json|```/g, '')]: [skip] counts the characters of a
    fence that are still to be dropped. *)
Fixpoint strip_fences_from (skip : nat) (s : string) : string :=
  match s with
  | EmptyString => EmptyString
  | String c r =>
      match skip with
      | S k => strip_fences_from k r
      | O =>
          if startsWith "```json" s then strip_fences_from 6 r
          else if startsWith "```" s then strip_fences_from 2 r
          else String c (strip_fences_from 0 r)
      end
  end.

Definition strip_fences (s : string) : string := strip_fences_from 0 s.

Section Parse.

(** [JSON.parse] is the platform's; it returns a value or throws a
    SyntaxError. *)
Variable JSON : Type.
Variable JSON_parse : string -> outcome JSON.

Definition no_json_message : string := "No valid JSON found in AI response".

(** The body of the [try] block up to the call of [JSON.parse]: the text
    handed to the parser. *)
Definition json_candidate (text : string) : outcome string :=
  let cleaned := trim (strip_fences text) in
  let jsonStart := indexOf "{" cleaned in
  let jsonEnd := lastIndexOf "}" cleaned in
  if (jsonStart =? -1)%Z || (jsonEnd =? -1)%Z || (jsonEnd <? jsonStart)%Z then
    let arrayStart := indexOf "[" cleaned in
    let arrayEnd := lastIndexOf "]" cleaned in
    if negb (arrayStart =? -1)%Z && negb (arrayEnd =? -1)%Z && (arrayEnd >? arrayStart)%Z
    then Return (substring arrayStart (arrayEnd + 1) cleaned)
    else Throw (new_Error no_json_message)
  else Return (substring jsonStart (jsonEnd + 1) cleaned).

Definition parseAIJsonResponse (text : string) : M JSON :=
  try_catch
    (cleaned <- lift (json_candidate text) ;;
     lift (JSON_parse cleaned))
    (fun error =>
       log console_error [Text "JSON parsing error:"; Thrown error] ;;;
       log console_error [Text "Raw response text:"; Text (substring 0 500 text)] ;;;
       throw error).

End Parse.

End Sanitizer.

(** ** Cosine similarity (cosineSimilarity, aiMatching.js lines 52-75) *)

Definition length_mismatch_message : string := "Vectors must have the same length".

Section Cosine.

Variable K : arith.

(** The [for] loop: [i] runs over the indices of [vecA], and behind the
    length guard [vecB] has the same ones. *)
Fixpoint cosine_loop (vecA vecB : list (num K)) (acc : num K * num K * num K)
  : num K * num K * num K :=
  match vecA, vecB with
  | a :: vecA', b :: vecB' =>
      let '(dotProduct, normA, normB) := acc in
      cosine_loop vecA' vecB'
        (add K dotProduct (mul K a b), add K normA (mul K a a), add K normB (mul K b b))
  | _, _ => acc
  end.

Definition cosineSimilarity (vecA vecB : list (num K)) : outcome (num K) :=
  if negb (List.length vecA =? List.length vecB)%nat then
    Throw (new_Error length_mismatch_message)
  else
    let '(dotProduct, normA, normB) := cosine_loop vecA vecB (zero K, zero K, zero K) in
    let normA := sqrt K normA in
    let normB := sqrt K normB in
    if is_zero K normA || is_zero K normB then Return (zero K)
    else Return (div K dotProduct (mul K normA normB)).

End Cosine.

(** ** Résumé and job records

    The fields the scorers read.  A field that can be [undefined], [null] or
    another falsy value in the stored documents is an [option]. *)

Module Resume.

(** A [Date], through the two getters the code calls. *)
Record date := { getFullYear : Z; getMonth : Z }.

Record experience_entry := { startDate : option date; endDate : option date }.

Record education_entry := { degree : option string }.

(** [name] is [None] for a skill that is stored without a name. *)
Record skill := { name : option string }.

Record personal_info := { location : option string }.

Record extracted_data := {
  skills : option (list skill);
  experience : option (list experience_entry);
  education : option (list education_entry);
  personalInfo : option personal_info
}.

Record t := {
  skillsEmbedding : option (list number);
  extractedData : extracted_data
}.

End Resume.

Module Job.

Record skill := { name : option string }.

Record experience_req := { min : option number }.

Record education_req := { required : bool; degree : option string }.

Record location_t := { remote : bool; city : option string }.

Record requirements_t := {
  skills : option (list skill);
  experience : option experience_req;
  education : option education_req
}.

Record t := {
  embedding : option (list number);
  requirements : requirements_t;
  location : option location_t
}.

End Job.

(** ** Dimension scorers *)

(** The TypeError of a property read on [undefined]. *)
Definition cannot_read (property : string) : exn :=
  mkExn TypeError
    (Some ("Cannot read properties of undefined (reading '" ++ property ++ "')")%string).

(** [skills.map(skill => skill.name.toLowerCase())]: the lower-cased names,
    or the TypeError of the first skill without a name. *)
Fixpoint lower_names {A} (name : A -> option string) (skills : list A)
  : outcome (list string) :=
  match skills with
  | [] => Return []
  | skill :: rest =>
      match name skill with
      | Some n =>
          obind (lower_names name rest)
                (fun names => Return (JSString.toLowerCase n :: names))
      | None => Throw (cannot_read "toLowerCase")
      end
  end.

(** *** Lexical skills score (calculateSkillsMatchFallback, lines 259-290) *)

Section SkillsFallback.

Variable K : arith.

(** The two counters after the [for] loop over the job skill names. *)
Fixpoint count_matches (resumeSkillNames jobSkillNames : list string)
  (exactMatches partialMatches : Z) : Z * Z :=
  match jobSkillNames with
  | [] => (exactMatches, partialMatches)
  | jobSkill :: rest =>
      if existsb (String.eqb jobSkill) resumeSkillNames then
        count_matches resumeSkillNames rest (exactMatches + 1)%Z partialMatches
      else
        let hasPartialMatch :=
          existsb (fun resumeSkill =>
                     JSString.includes resumeSkill jobSkill
                     || JSString.includes jobSkill resumeSkill)
                  resumeSkillNames in
        if hasPartialMatch
        then count_matches resumeSkillNames rest exactMatches (partialMatches + 1)%Z
        else count_matches resumeSkillNames rest exactMatches partialMatches
  end.

(** Lines 266-289: the score of two lists of lower-cased names. *)
Definition match_percentage (resumeSkillNames jobSkillNames : list string) : num K :=
  let '(exactMatches, partialMatches) :=
    count_matches resumeSkillNames jobSkillNames 0 0 in
  let totalMatches :=
    add K (from_Z K exactMatches) (mul K (from_Z K partialMatches) (half K)) in
  let matchPercentage :=
    mul K (div K totalMatches (from_Z K (Z.of_nat (List.length jobSkillNames))))
          (from_Z K 100) in
  round K (min K (max K matchPercentage (from_Z K 0)) (from_Z K 100)).

Definition calculateSkillsMatchFallback
  (resumeSkills : option (list Resume.skill)) (jobSkills : option (list Job.skill))
  : outcome (num K) :=
  match resumeSkills, jobSkills with
  | Some (r :: rs), Some (j :: js) =>
      obind (lower_names Resume.name (r :: rs)) (fun resumeSkillNames =>
      obind (lower_names Job.name (j :: js)) (fun jobSkillNames =>
      Return (match_percentage resumeSkillNames jobSkillNames)))
  | _, _ => Return (zero K)
  end.

End SkillsFallback.

(** *** Experience (calculateExperienceMatch and calculateTotalExperience,
    lines 293-322) *)

Definition months_between (start end_ : Resume.date) : Z :=
  (Resume.getFullYear end_ - Resume.getFullYear start) * 12
  + (Resume.getMonth end_ - Resume.getMonth start).

Definition add_months (totalMonths : Z) (exp : Resume.experience_entry) : Z :=
  match Resume.startDate exp, Resume.endDate exp with
  | Some start, Some end_ => (totalMonths + months_between start end_)%Z
  | _, _ => totalMonths
  end.

Definition calculateTotalExperience (experience : list Resume.experience_entry) : number :=
  let totalMonths := fold_left add_months experience 0%Z in
  Math_round (of_Z totalMonths / 12)%float.

Definition calculateExperienceMatch
  (resumeExperience : option (list Resume.experience_entry))
  (jobExperience : option Job.experience_req) : number :=
  match jobExperience, resumeExperience with
  | None, _ => 100%float
  | Some _, None => 0%float
  | Some _, Some [] => 0%float
  | Some jobExperience, Some resumeExperience =>
      let totalExperience := calculateTotalExperience resumeExperience in
      let requiredExperience :=
        match Job.min jobExperience with
        | Some m => if truthy m then m else 0%float
        | None => 0%float
        end in
      if geb totalExperience requiredExperience then 100%float
      else Math_round ((totalExperience / requiredExperience) * 100)%float
  end.

(** *** Education (calculateEducationMatch, lines 325-340) *)

Definition nonempty (s : option string) : option string :=
  match s with
  | Some EmptyString => None
  | _ => s
  end.

(** [resumeEducation.some(edu => edu.degree &&
    edu.degree.toLowerCase().includes(jobEducation.degree.toLowerCase()))] *)
Fixpoint some_degree_includes (resumeEducation : list Resume.education_entry)
  (jobDegree : option string) : outcome bool :=
  match resumeEducation with
  | [] => Return false
  | edu :: rest =>
      match nonempty (Resume.degree edu) with
      | None => some_degree_includes rest jobDegree
      | Some d =>
          match jobDegree with
          | None => Throw (cannot_read "toLowerCase")
          | Some jd =>
              if JSString.includes (JSString.toLowerCase d) (JSString.toLowerCase jd)
              then Return true
              else some_degree_includes rest jobDegree
          end
      end
  end.

Definition calculateEducationMatch
  (resumeEducation : option (list Resume.education_entry))
  (jobEducation : option Job.education_req) : outcome number :=
  match jobEducation with
  | None => Return 100%float
  | Some jobEducation =>
      if negb (Job.required jobEducation) then Return 100%float
      else
        match resumeEducation with
        | None => Return 0%float
        | Some [] => Return 0%float
        | Some resumeEducation =>
            obind (some_degree_includes resumeEducation (Job.degree jobEducation))
                  (fun hasRequiredDegree =>
                     Return (if hasRequiredDegree then 100%float else 0%float))
        end
  end.

(** *** Location (calculateLocationMatch, lines 343-361) *)

Definition calculateLocationMatch
  (personalInfo : option Resume.personal_info) (jobLocation : option Job.location_t)
  : outcome number :=
  match jobLocation with
  | None => Throw (cannot_read "remote")
  | Some jobLocation =>
      if Job.remote jobLocation then Return 100%float
      else
        match personalInfo with
        | None => Throw (cannot_read "location")
        | Some personalInfo =>
            match nonempty (Resume.location personalInfo),
                  nonempty (Job.city jobLocation) with
            | Some location, Some city =>
                let userLocation := JSString.toLowerCase location in
                let jobCity := JSString.toLowerCase city in
                if JSString.includes userLocation jobCity
                   || JSString.includes jobCity userLocation
                then Return 100%float
                else Return 30%float
            | _, _ => Return 50%float
            end
        end
  end.

(** *** AI-assisted skills score (calculateSkillsMatch, lines 216-256) *)

Definition digit_of (radix : Z) (c : ascii) : option Z :=
  let n := Z.of_nat (nat_of_ascii c) in
  let d :=
    if (48 <=? n)%Z && (n <=? 57)%Z then (n - 48)%Z
    else if (97 <=? n)%Z && (n <=? 122)%Z then (n - 87)%Z
    else if (65 <=? n)%Z && (n <=? 90)%Z then (n - 55)%Z
    else 36%Z in
  if (d <? radix)%Z then Some d else None.

Fixpoint digits_value (radix : Z) (s : string) (acc : option Z) : option Z :=
  match s with
  | EmptyString => acc
  | String c r =>
      match digit_of radix c with
      | Some d =>
          digits_value radix r
            (Some (match acc with Some v => v * radix + d | None => d end)%Z)
      | None => acc
      end
  end.

(** [parseInt(s)] without a radix argument. *)
Definition parseInt (s : string) : number :=
  let s := JSString.trimStart s in
  let '(negative, s) :=
    match s with
    | String "-"%char r => (true, r)
    | String "+"%char r => (false, r)
    | _ => (false, s)
    end in
  let '(radix, s) :=
    match s with
    | String "0"%char (String "x"%char r) => (16%Z, r)
    | String "0"%char (String "X"%char r) => (16%Z, r)
    | _ => (10%Z, s)
    end in
  match digits_value radix s None with
  | None => PrimFloat.nan
  | Some v => if negative then PrimFloat.opp (of_Z v) else of_Z v
  end.

(** [reply] is the outcome of [model.generateContent(prompt)] followed by
    [response.text()]. *)
Definition calculateSkillsMatch (reply : outcome string)
  (resumeSkills : option (list Resume.skill)) (jobSkills : option (list Job.skill))
  : M number :=
  try_catch
    (match resumeSkills, jobSkills with
     | Some (_ :: _), Some (_ :: _) =>
         text <- lift reply ;;
         let score := parseInt (JSString.trim text) in
         ret (if PrimFloat.is_nan score then 0%float
              else Math_min (Math_max score 0%float) 100%float)
     | _, _ => ret 0%float
     end)
    (fun error =>
       log console_error [Text "Skills match calculation error:"; Thrown error] ;;;
       if is_quota_error error then
         log console_warn
           [Text "API quota exceeded for skills matching, using fallback method"] ;;;
         lift (calculateSkillsMatchFallback binary64 resumeSkills jobSkills)
       else ret 0%float).

(** ** Match aggregator (calculateJobMatchScore, lines 167-213) *)

Record scores := {
  skillsMatch : number;
  experienceMatch : number;
  educationMatch : number;
  locationMatch : number;
  overallScore : number
}.

Definition zero_scores : scores := {|
  skillsMatch := 0%float;
  experienceMatch := 0%float;
  educationMatch := 0%float;
  locationMatch := 0%float;
  overallScore := 0%float
|}.

(** The weighted overall score, lines 195-200. *)
Definition weighted_score (skillsMatch experienceMatch educationMatch locationMatch : number)
  : number :=
  Math_round
    (((skillsMatch * 0.4) + (experienceMatch * 0.3) + (educationMatch * 0.2)
      + (locationMatch * 0.1))%float).

(** The skills dimension, lines 178-183. *)
Definition skillsDimension (reply : outcome string) (resume : Resume.t) (job : Job.t)
  : M number :=
  match Resume.skillsEmbedding resume, Job.embedding job with
  | Some skillsEmbedding, Some embedding =>
      skillsSimilarity <- lift (cosineSimilarity binary64 skillsEmbedding embedding) ;;
      ret (Math_round (skillsSimilarity * 100)%float)
  | _, _ =>
      calculateSkillsMatch reply
        (Resume.skills (Resume.extractedData resume))
        (Job.skills (Job.requirements job))
  end.

Definition calculateJobMatchScore (reply : outcome string) (resume : Resume.t) (job : Job.t)
  : M scores :=
  try_catch
    (skills <- skillsDimension reply resume job ;;
     let experience :=
       calculateExperienceMatch
         (Resume.experience (Resume.extractedData resume))
         (Job.experience (Job.requirements job)) in
     education <- lift (calculateEducationMatch
                          (Resume.education (Resume.extractedData resume))
                          (Job.education (Job.requirements job))) ;;
     location <- lift (calculateLocationMatch
                         (Resume.personalInfo (Resume.extractedData resume))
                         (Job.location job)) ;;
     ret {| skillsMatch := skills;
            experienceMatch := experience;
            educationMatch := education;
            locationMatch := location;
            overallScore := weighted_score skills experience education location |})
    (fun error =>
       log console_error [Text "Match score calculation error:"; Thrown error] ;;;
       ret zero_scores).
(** ** Plain objects used as maps

    [wordCount = {}] is an ordinary object: its own properties keep their
    insertion order, [Object.keys] lists the keys that are array indices
    first, in ascending numeric order, and a read of a key that is not an own
    property goes to [Object.prototype]. *)

Module JSObject.

Inductive value :=
| VNumber (n : Z)          (* a count *)
| VNotNumeric.             (* a string that does not read as a number *)

(** The own properties, oldest first. *)
Definition object := list (string * value).

Fixpoint own (o : object) (k : string) : option value :=
  match o with
  | [] => None
  | (k', v) :: r => if String.eqb k' k then Some v else own r k
  end.

(** The property names of [Object.prototype] that hold a function, and the
    accessor [__proto__]. *)
Definition prototype_functions : list string :=
  ["constructor"; "hasOwnProperty"; "isPrototypeOf"; "propertyIsEnumerable";
   "toLocaleString"; "toString"; "valueOf"; "__defineGetter__";
   "__defineSetter__"; "__lookupGetter__"; "__lookupSetter__"]%string.

Definition proto_accessor : string := "__proto__".

Definition inherited (k : string) : bool :=
  existsb (String.eqb k) prototype_functions || String.eqb k proto_accessor.

(** [(o[k] || 0) + 1]: a count is incremented; a missing property counts
    from 0; an inherited function or object, or a string made from one
    earlier, is truthy and [+ 1] appends to its text. *)
Definition incremented (o : object) (k : string) : value :=
  match own o k with
  | Some (VNumber n) => VNumber (n + 1)
  | Some VNotNumeric => VNotNumeric
  | None => if inherited k then VNotNumeric else VNumber 1
  end.

Fixpoint update (o : object) (k : string) (v : value) : object :=
  match o with
  | [] => [(k, v)]
  | (k', v') :: r =>
      if String.eqb k' k then (k', v) :: r else (k', v') :: update r k v
  end.

(** [o[k] = v] for a [v] that is a number or a string: the setter of
    [__proto__] ignores such a value, any other key becomes or stays an own
    property. *)
Definition assign (o : object) (k : string) (v : value) : object :=
  if String.eqb k proto_accessor then o else update o k v.

Fixpoint all_digits (s : string) : bool :=
  match s with
  | EmptyString => true
  | String c r => JSString.is_digit c && all_digits r
  end.

Fixpoint decimal_value (s : string) (acc : Z) : Z :=
  match s with
  | EmptyString => acc
  | String c r => decimal_value r (acc * 10 + (Z.of_nat (nat_of_ascii c) - 48))
  end.

(** An array index: the canonical decimal text of an integer of
    [0, 2^32 - 2]. *)
Definition array_index (k : string) : option Z :=
  match k with
  | EmptyString => None
  | String c r =>
      if all_digits k && (negb (Ascii.eqb c "0"%char) || String.eqb r EmptyString)
      then
        let n := decimal_value k 0 in
        if (n <=? 4294967294)%Z then Some n else None
      else None
  end.

Definition is_array_index (k : string) : bool :=
  match array_index k with Some _ => true | None => false end.

Definition index_value (k : string) : Z :=
  match array_index k with Some n => n | None => 0%Z end.

(** Insertion into a list sorted by index value. *)
Fixpoint insert_index (k : string) (sorted : list string) : list string :=
  match sorted with
  | [] => [k]
  | k' :: r =>
      if (index_value k <=? index_value k')%Z then k :: sorted
      else k' :: insert_index k r
  end.

Definition sort_indices (ks : list string) : list string :=
  fold_right insert_index [] ks.

(** The order in which own keys are listed, given their insertion order. *)
Definition key_order (ks : list string) : list string :=
  sort_indices (filter is_array_index ks)
  ++ filter (fun k => negb (is_array_index k)) ks.

(** [Object.keys(o)] *)
Definition keys (o : object) : list string := key_order (map fst o).

End JSObject.

(** ** Vector embedder (aiMatching.js lines 78-124) *)

(** [Number(v)] for a property of [wordCount]. *)
Definition to_number (v : option JSObject.value) : number :=
  match v with
  | Some (JSObject.VNumber n) => of_Z n
  | _ => PrimFloat.nan
  end.

Definition count_word (wordCount : JSObject.object) (word : string) : JSObject.object :=
  if (2 <? String.length word)%nat
  then JSObject.assign wordCount word (JSObject.incremented wordCount word)
  else wordCount.

Definition generateFallbackEmbedding (text : string) : list number :=
  let words := JSString.split_ws (JSString.toLowerCase text) in
  let wordCount := fold_left count_word words [] in
  let totalWords := List.length words in
  let uniqueWords := JSObject.keys wordCount in
  map (fun i =>
         match nth_error uniqueWords i with
         | Some word =>
             (to_number (JSObject.own wordCount word) / of_Z (Z.of_nat totalWords))%float
         | None => 0%float
         end)
      (seq 0 50).

Definition embedding_failed_message : string := "Failed to generate embedding".

Section Embedder.

(** [model.embedContent(text)] followed by [result.embedding.values], the
    call to the embedding backend. *)
Variable embedContent : string -> outcome (list number).

Definition generateEmbedding (text : string) : M (list number) :=
  try_catch
    (lift (embedContent (JSString.substring 0 8000 text)))
    (fun error =>
       log console_error [Text "Embedding generation error:"; Thrown error] ;;;
       if is_quota_error error then
         log console_warn
           [Text "API quota exceeded for embeddings, using fallback method"] ;;;
         ret (generateFallbackEmbedding text)
       else throw (new_Error embedding_failed_message)).

End Embedder.
(** ** Rule-based extractor (ruleBasedExtraction, resumeParser.js lines 371-444)

    The lists of the returned record are modelled by the fields that are
    computed from the text; the fields the code fills with a constant (empty
    strings, [undefined], [false]) and the [website] match are left out.
    The bullet characters U+2022 and U+25CF of the source's character
    classes are outside the alphabet of the string model. *)

Module Extractor.

Import JSString.
Local Open Scope string_scope.

(** The alternatives of [sectionRegex], in order; the flag tells whether a
    final [s] is optional. *)
Definition section_alternatives : list (string * bool) :=
  [("skill", true); ("technical skill", true); ("project", true);
   ("experience", false); ("work experience", false); ("education", false);
   ("certification", true); ("language", true)].

Fixpoint drop (n : nat) (s : string) : string :=
  match n, s with
  | S k, String _ r => drop k r
  | _, _ => s
  end.

(** [\b] after a matched letter: the next character is not a word
    character, or there is none. *)
Definition word_boundary (rest : string) : bool :=
  match rest with
  | EmptyString => true
  | String c _ => negb (is_word_char c)
  end.

(** One alternative against the lower-cased line; the optional [s] is tried
    first, as the greedy [?] does. *)
Definition match_alternative (lowered : string) (alt : string * bool) : option string :=
  let '(base, optional_s) := alt in
  if startsWith base lowered then
    let rest := drop (String.length base) lowered in
    if optional_s && startsWith "s" rest && word_boundary (drop 1 rest)
    then Some (base ++ "s")
    else if word_boundary rest then Some base else None
  else None.

Fixpoint first_match (lowered : string) (alts : list (string * bool)) : option string :=
  match alts with
  | [] => None
  | alt :: r =>
      match match_alternative lowered alt with
      | Some m => Some m
      | None => first_match lowered r
      end
  end.

(** [line.match(sectionRegex)], giving [m[1].toLowerCase()]. *)
Definition match_section (line : string) : option string :=
  first_match (toLowerCase line) section_alternatives.

(** The [sections] object: section name to its lines. *)
Definition sections_t := list (string * list string).

Fixpoint lookup (sections : sections_t) (k : string) : option (list string) :=
  match sections with
  | [] => None
  | (k', v) :: r => if String.eqb k' k then Some v else lookup r k
  end.

Fixpoint store (sections : sections_t) (k : string) (v : list string) : sections_t :=
  match sections with
  | [] => [(k, v)]
  | (k', v') :: r =>
      if String.eqb k' k then (k', v) :: r else (k', v') :: store r k v
  end.

(** [sections[k] || []] *)
Definition lines_of (sections : sections_t) (k : string) : list string :=
  match lookup sections k with Some v => v | None => [] end.

(** One turn of the loop over the lines. *)
Definition collect_line (state : string * sections_t) (line : string)
  : string * sections_t :=
  let '(current, sections) := state in
  match match_section line with
  | Some m => (m, store sections m (lines_of sections m))
  | None => (current, store sections current (lines_of sections current ++ [line]))
  end.

(** [a || b || []] on arrays: the first one that is defined. *)
Definition first_defined (a b : option (list string)) : list string :=
  match a, b with
  | Some v, _ => v
  | None, Some v => v
  | None, None => []
  end.

(** [lines.join(' ')] *)
Fixpoint join_space (l : list string) : string :=
  match l with
  | [] => EmptyString
  | [x] => x
  | x :: r => x ++ " " ++ join_space r
  end.

Definition is_bullet (c : ascii) : bool :=
  Ascii.eqb c "-"%char || Ascii.eqb c "*"%char.

Definition is_list_separator (c : ascii) : bool :=
  Ascii.eqb c ","%char || Ascii.eqb c "|"%char.

Definition splitList (s : string) : list string :=
  filter (fun x => (0 <? String.length x)%nat && (String.length x <? 80)%nat)
    (map trim (split_on is_list_separator (replace_chars is_bullet " "%char s) EmptyString)).

(** [l.replace(/^[-*]\s*/, '')] *)
Definition strip_bullet (l : string) : string :=
  match l with
  | String c r => if is_bullet c then trimStart r else l
  | EmptyString => EmptyString
  end.

(** [Array.from(new Set(l))]: first occurrences, in order. *)
Fixpoint dedupe_from (seen l : list string) : list string :=
  match l with
  | [] => []
  | x :: r =>
      if existsb (String.eqb x) seen then dedupe_from seen r
      else x :: dedupe_from (x :: seen) r
  end.

Definition dedupe (l : list string) : list string := dedupe_from [] l.

Definition nonempty_string (s : string) : bool := (0 <? String.length s)%nat.

Record project := {
  project_name : string;
  project_description : string;
  technologies : list string
}.

Record experience := { position : string; experience_description : string }.

Record profile := {
  name : string;
  experiences : list experience;
  educations : list string;          (* institution *)
  skills : list string;              (* name *)
  certifications : list string;      (* name *)
  projects : list project;
  languages : list string            (* name *)
}.

Definition ruleBasedExtraction (text : string) : profile :=
  let lines := filter nonempty_string (map trim (split_lines text)) in
  let sections := snd (fold_left collect_line lines ("other", [])) in
  let nameLine := match lines with l :: _ => l | [] => EmptyString end in
  let skillsBlock :=
    join_space (first_defined (lookup sections "skills")
                              (lookup sections "technical skills")) in
  let skillNames := dedupe (splitList skillsBlock) in
  let projectsLines := lines_of sections "projects" in
  let expLines :=
    map strip_bullet (first_defined (lookup sections "experience")
                                    (lookup sections "work experience")) in
  let eduLines := map strip_bullet (lines_of sections "education") in
  let certLines :=
    map strip_bullet (first_defined (lookup sections "certifications")
                                    (lookup sections "certification")) in
  let langLines := join_space (lines_of sections "languages") in
  {| name := nameLine;
     experiences :=
       firstn 20
         (map (fun l => {| position := slice0 80 (before_first " at " l);
                           experience_description := l |})
              (filter nonempty_string expLines));
     educations := firstn 10 eduLines;
     skills := firstn 100 skillNames;
     certifications := firstn 20 certLines;
     projects :=
       firstn 20
         (map (fun l => {| project_name := slice0 80 (trim (before_first ":" l));
                           project_description := l;
                           technologies := splitList l |})
              (filter nonempty_string (map strip_bullet projectsLines)));
     languages := firstn 20 (splitList langLines) |}.

End Extractor.
(** ** Match breakdown (generateMatchBreakdown, aiMatching.js lines 364-419) *)

(** [a.toLowerCase().includes(b.toLowerCase()) ||
    b.toLowerCase().includes(a.toLowerCase())], the relation between two
    skill names that the breakdown uses. *)
Definition related (a b : string) : bool :=
  JSString.includes (JSString.toLowerCase a) (JSString.toLowerCase b)
  || JSString.includes (JSString.toLowerCase b) (JSString.toLowerCase a).

(** The same on names that may be [undefined]: [toLowerCase] is read on
    both before [includes] is called, and the read throws on [undefined]. *)
Definition related_names (a b : option string) : outcome bool :=
  match a, b with
  | Some a, Some b => Return (related a b)
  | _, _ => Throw (cannot_read "toLowerCase")
  end.

(** [list.some(test)] and [list.filter(test)] for a callback that can
    throw: the elements are visited in order, [some] stops at the first hit,
    and a throw of the callback ends the call. *)
Fixpoint some_of {A} (test : A -> outcome bool) (l : list A) : outcome bool :=
  match l with
  | [] => Return false
  | x :: rest =>
      obind (test x) (fun hit => if hit then Return true else some_of test rest)
  end.

Fixpoint filter_of {A} (test : A -> outcome bool) (l : list A) : outcome (list A) :=
  match l with
  | [] => Return []
  | x :: rest =>
      obind (test x) (fun keep =>
      obind (filter_of test rest) (fun kept =>
      Return (if keep then x :: kept else kept)))
  end.

(** [!list.some(test)] *)
Definition none_of {A} (test : A -> outcome bool) (l : list A) : outcome bool :=
  obind (some_of test l) (fun hit => Return (negb hit)).

Module Breakdown.

Record skills_part := {
  score : number;
  matchedSkills : list (option string);
  missingSkills : list (option string);
  extraSkills : list (option string)
}.

Record experience_part := {
  experience_score : number;
  experience_required : number;
  actual : number;
  gap : number
}.

Record education_part := {
  education_score : number;
  education_required : bool;
  hasRequired : bool
}.

Record location_part := {
  location_score : number;
  isRemote : bool;
  locationMatch : bool
}.

Record t := {
  skillsMatch : skills_part;
  experienceMatch : experience_part;
  educationMatch : education_part;
  locationMatch_ : location_part;
  overallCompatibility : number
}.

End Breakdown.

(** [job.requirements.experience?.min || 0] *)
Definition required_years (job : Job.t) : number :=
  match Job.experience (Job.requirements job) with
  | Some jobExperience =>
      match Job.min jobExperience with
      | Some m => if truthy m then m else 0%float
      | None => 0%float
      end
  | None => 0%float
  end.

(** [this.calculateTotalExperience(resume.extractedData.experience)] without
    a guard: the [for ... of] loop throws on a missing list. *)
Definition total_experience_of (resume : Resume.t) : outcome number :=
  match Resume.experience (Resume.extractedData resume) with
  | Some experience => Return (calculateTotalExperience experience)
  | None => Throw (mkExn TypeError (Some "experience is not iterable"%string))
  end.

(** [list.map(s => s.name)] on a list that may be missing. *)
Definition resume_skill_names (resume : Resume.t) : outcome (list (option string)) :=
  match Resume.skills (Resume.extractedData resume) with
  | Some skills => Return (map Resume.name skills)
  | None => Throw (cannot_read "map")
  end.

Definition job_skill_names (job : Job.t) : outcome (list (option string)) :=
  match Job.skills (Job.requirements job) with
  | Some skills => Return (map Job.name skills)
  | None => Throw (cannot_read "map")
  end.

(** The body of the [try] block. *)
Definition breakdown_of (resume : Resume.t) (job : Job.t) (matchScore : scores)
  : outcome Breakdown.t :=
  obind (resume_skill_names resume) (fun resumeSkills =>
  obind (job_skill_names job) (fun jobSkills =>
  obind (filter_of (fun skill =>
                      some_of (fun jobSkill => related_names skill jobSkill) jobSkills)
                   resumeSkills) (fun matchedSkills =>
  obind (filter_of (fun jobSkill =>
                      none_of (fun skill => related_names skill jobSkill) resumeSkills)
                   jobSkills) (fun missingSkills =>
  obind (filter_of (fun skill =>
                      none_of (fun jobSkill => related_names skill jobSkill) jobSkills)
                   resumeSkills) (fun extraSkills =>
  obind (total_experience_of resume) (fun actual =>
  obind (total_experience_of resume) (fun actual' =>
  obind (calculateEducationMatch (Resume.education (Resume.extractedData resume))
                                 (Job.education (Job.requirements job)))
        (fun education =>
  match Job.location job with
  | None => Throw (cannot_read "remote")
  | Some location =>
      Return {|
        Breakdown.skillsMatch := {|
          Breakdown.score := skillsMatch matchScore;
          Breakdown.matchedSkills := matchedSkills;
          Breakdown.missingSkills := missingSkills;
          Breakdown.extraSkills := extraSkills |};
        Breakdown.experienceMatch := {|
          Breakdown.experience_score := experienceMatch matchScore;
          Breakdown.experience_required := required_years job;
          Breakdown.actual := actual;
          Breakdown.gap := Math_max 0%float (required_years job - actual')%float |};
        Breakdown.educationMatch := {|
          Breakdown.education_score := educationMatch matchScore;
          Breakdown.education_required :=
            match Job.education (Job.requirements job) with
            | Some jobEducation => Job.required jobEducation
            | None => false
            end;
          Breakdown.hasRequired := PrimFloat.ltb 0%float education |};
        Breakdown.locationMatch_ := {|
          Breakdown.location_score := locationMatch matchScore;
          Breakdown.isRemote := Job.remote location;
          Breakdown.locationMatch := PrimFloat.ltb 50%float (locationMatch matchScore) |};
        Breakdown.overallCompatibility := overallScore matchScore
      |}
  end)))))))).

(** The result is the breakdown, or the empty object [{}] ([None]) after an
    error, which is logged. *)
Definition generateMatchBreakdown (resume : Resume.t) (job : Job.t) (matchScore : scores)
  : M (option Breakdown.t) :=
  try_catch
    (b <- lift (breakdown_of resume job matchScore) ;; ret (Some b))
    (fun error =>
       log console_error [Text "Match breakdown generation error:"; Thrown error] ;;;
       ret None).
(** ** Heuristic insights (generateFallbackInsights, aiMatching.js lines
    501-591) *)

(** [list.join(', ')] *)
Fixpoint join_comma (l : list string) : string :=
  match l with
  | [] => EmptyString
  | [x] => x
  | x :: r => (x ++ ", " ++ join_comma r)%string
  end.

(** A length inside a template literal. *)
Definition show_length {A} (l : list A) : string :=
  NilZero.string_of_uint (Nat.to_uint (List.length l)).

Module Insights.

Record skill_gap := {
  skill : string;
  importance : Z;
  currentLevel : string;
  requiredLevel : string;
  learningPath : string
}.

Record t := {
  strengths : list string;
  weaknesses : list string;
  recommendations : list string;
  interviewTips : list string;
  skillGaps : list skill_gap
}.

End Insights.

(** [cond ? [item] : []], for the conditional [push]es. *)
Definition when (cond : bool) (item : string) : list string :=
  if cond then [item] else [].

Definition gap_of (skill : string) : Insights.skill_gap := {|
  Insights.skill := skill;
  Insights.importance := 5;
  Insights.currentLevel := "Beginner";
  Insights.requiredLevel := "Intermediate";
  Insights.learningPath :=
    ("Consider online courses, tutorials, or hands-on projects to develop "
     ++ skill ++ " skills")%string
|}.

(** [matchScore.locationMatch < 50 && !job.location.remote]: the location of
    the job is read only when the score is below 50. *)
Definition location_is_weak (job : Job.t) (matchScore : scores) : outcome bool :=
  if PrimFloat.ltb (locationMatch matchScore) 50%float then
    match Job.location job with
    | Some location => Return (negb (Job.remote location))
    | None => Throw (cannot_read "remote")
    end
  else Return false.

Definition lowered_resume_skills (resume : Resume.t) : outcome (list string) :=
  match Resume.skills (Resume.extractedData resume) with
  | Some skills => lower_names Resume.name skills
  | None => Throw (cannot_read "map")
  end.

Definition lowered_job_skills (job : Job.t) : outcome (list string) :=
  match Job.skills (Job.requirements job) with
  | Some skills => lower_names Job.name skills
  | None => Throw (cannot_read "map")
  end.

(** [resumeSkills.some(resumeSkill => resumeSkill.includes(jobSkill) ||
    jobSkill.includes(resumeSkill))] *)
Definition covered (resumeSkills : list string) (jobSkill : string) : bool :=
  existsb (fun resumeSkill =>
             JSString.includes resumeSkill jobSkill
             || JSString.includes jobSkill resumeSkill)
          resumeSkills.

Definition generateFallbackInsights (resume : Resume.t) (job : Job.t) (matchScore : scores)
  : outcome Insights.t :=
  obind (lowered_resume_skills resume) (fun resumeSkills =>
  obind (lowered_job_skills job) (fun jobSkills =>
  let matchedSkills := filter (covered resumeSkills) jobSkills in
  let missingSkills := filter (fun jobSkill => negb (covered resumeSkills jobSkill)) jobSkills in
  let some_matched := (0 <? List.length matchedSkills)%nat in
  let some_missing := (0 <? List.length missingSkills)%nat in
  obind (location_is_weak job matchScore) (fun weak_location =>
  Return {|
    Insights.strengths :=
      when some_matched
        ("Strong match with " ++ show_length matchedSkills ++ " required skills")%string
      ++ when some_matched
           ("Proficient in: " ++ join_comma (firstn 3 matchedSkills))%string
      ++ when (geb (experienceMatch matchScore) 80%float)
           "Meets or exceeds experience requirements"
      ++ when (geb (educationMatch matchScore) 80%float)
           "Educational background aligns with requirements";
    Insights.weaknesses :=
      when some_missing
        ("Missing " ++ show_length missingSkills ++ " key skills: "
         ++ join_comma (firstn 3 missingSkills))%string
      ++ when (PrimFloat.ltb (experienceMatch matchScore) 50%float)
           "Experience level below job requirements"
      ++ when weak_location "Location may not be ideal for this position";
    Insights.recommendations :=
      when some_missing
        ("Consider learning: " ++ join_comma (firstn 2 missingSkills))%string
      ++ when (PrimFloat.ltb (overallScore matchScore) 70%float)
           "Focus on building relevant experience in this field"
      ++ ["Tailor your resume to highlight relevant achievements";
          "Prepare specific examples of your skills in action"]%string;
    Insights.interviewTips :=
      ["Research the company and role thoroughly";
       "Prepare examples that demonstrate your key skills";
       "Ask thoughtful questions about the role and team"]%string
      ++ match missingSkills with
         | first :: _ =>
             [("Be ready to discuss your plan for learning: " ++ first)%string]
         | [] => []
         end;
    Insights.skillGaps := map gap_of (firstn 3 missingSkills)
  |}))).

(** ** What the scorers read of a rule-based extraction

    When the AI extraction fails, [extractStructuredData] (resumeParser.js
    lines 523-546) returns the lists of [ruleBasedExtraction] and an empty
    [personalInfo.location].  The rule-based entries carry constants in the
    fields the scorers read: an experience entry has [startDate: ''] and
    [endDate: ''] (falsy, hence [None]), an education entry [degree: ''],
    and a skill its name. *)
Definition fallbackExtractedData (text : string) : Resume.extracted_data :=
  let ruleBased := Extractor.ruleBasedExtraction text in
  {| Resume.skills :=
       Some (map (fun n => {| Resume.name := Some n |}) (Extractor.skills ruleBased));
     Resume.experience :=
       Some (map (fun _ => {| Resume.startDate := None; Resume.endDate := None |})
                 (Extractor.experiences ruleBased));
     Resume.education :=
       Some (map (fun _ => {| Resume.degree := Some EmptyString |})
                 (Extractor.educations ruleBased));
     Resume.personalInfo := Some {| Resume.location := Some EmptyString |} |}.

(** ** Résumé embeddings (resumeParser.js lines 575-598) *)

Module ResumeParser.

Section Embeddings.

(** [model.embedContent(text)] followed by [result.embedding.values]. *)
Variable embedContent : string -> outcome (list number).

Definition generateEmbedding (text : string) : M (list number) :=
  try_catch
    (lift (embedContent (JSString.substring 0 8000 text)))
    (fun error =>
       log console_error [Text "Embedding generation error:"; Thrown error] ;;;
       ret []).

(** [skill.name || skill] inside [join]: a skill without a name, or with
    the empty name, is joined as the object itself. *)
Definition skill_text (skill : Resume.skill) : string :=
  match Resume.name skill with
  | Some (String c r) => String c r
  | _ => "[object Object]"
  end.

Definition generateSkillsEmbedding (skills : option (list Resume.skill)) : M (list number) :=
  try_catch
    (match skills with
     | None => ret []
     | Some [] => ret []
     | Some skills => lift (embedContent (join_comma (map skill_text skills)))
     end)
    (fun error =>
       log console_error [Text "Skills embedding generation error:"; Thrown error] ;;;
       ret []).

End Embeddings.

End ResumeParser.

(** ** AI insights (generateAIInsights, aiMatching.js lines 422-498) *)

Module AIInsights.

(** The values [JSON.parse] builds.  An object lists each key once, as the
    parser leaves it. *)
#[local] Set Warnings "-register-all".
Inductive json :=
| JNull
| JBool (b : bool)
| JNumber (n : number)
| JString (s : string)
| JArray (items : list json)
| JObject (fields : list (string * json)).

Fixpoint get (fields : list (string * json)) (key : string) : option json :=
  match fields with
  | [] => None
  | (k, v) :: r => if String.eqb k key then Some v else get r key
  end.

(** The object the function returns when the model's answer is used: the
    parsed value [source], with the five properties below set to these
    arrays. *)
Record generated := {
  source : json;
  strengths : list json;
  weaknesses : list json;
  recommendations : list json;
  interviewTips : list json;
  skillGaps : list json
}.

(** What the function returns: the completed answer of the model, or the
    heuristic insights. *)
Inductive t :=
| FromModel (g : generated)
| Heuristic (i : Insights.t).

Section Generate.

(** [JSON.parse], and the text of a number inside an error message, are the
    platform's. *)
Variable JSON_parse : string -> outcome json.
Variable Number_toString : number -> string.

(** The TypeError of an assignment to a property of a primitive, in strict
    mode (a class body). *)
Definition cannot_create (key type shown : string) : exn :=
  mkExn TypeError
    (Some ("Cannot create property '" ++ key ++ "' on " ++ type ++ " '" ++ shown ++ "'")%string).

(** [if (!insights[key] || !Array.isArray(insights[key])) insights[key] = []]
    followed by a read of [insights[key]]. *)
Definition array_field (insights : json) (key : string) : outcome (list json) :=
  match insights with
  | JNull =>
      Throw (mkExn TypeError
               (Some ("Cannot read properties of null (reading '" ++ key ++ "')")%string))
  | JBool b => Throw (cannot_create key "boolean" (if b then "true" else "false"))
  | JNumber n => Throw (cannot_create key "number" (Number_toString n))
  | JString s => Throw (cannot_create key "string" s)
  | JArray _ => Return []
  | JObject fields =>
      match get fields key with
      | Some (JArray items) => Return items
      | _ => Return []
      end
  end.

Definition with_defaults (insights : json) : outcome generated :=
  obind (array_field insights "strengths") (fun strengths =>
  obind (array_field insights "weaknesses") (fun weaknesses =>
  obind (array_field insights "recommendations") (fun recommendations =>
  obind (array_field insights "interviewTips") (fun interviewTips =>
  obind (array_field insights "skillGaps") (fun skillGaps =>
  Return {| source := insights;
            strengths := strengths;
            weaknesses := weaknesses;
            recommendations := recommendations;
            interviewTips := interviewTips;
            skillGaps := skillGaps |}))))).

(** The [try] block.  [insightsText] is the outcome of lines 424-458: the
    prompt is built, the model is called and the text of its response is
    read. *)
Definition attempt (insightsText : outcome string) : M t :=
  text <- lift insightsText ;;
  insights <- Sanitizer.parseAIJsonResponse json JSON_parse text ;;
  g <- lift (with_defaults insights) ;;
  ret (FromModel g).

(** [error instanceof SyntaxError || error.message.includes('JSON') ||
    error.message.includes('Unexpected token')] *)
Definition is_json_error (error : exn) : outcome bool :=
  match kind error with
  | SyntaxError => Return true
  | _ =>
      match message error with
      | Some m =>
          Return (JSString.includes m "JSON" || JSString.includes m "Unexpected token")
      | None => Throw (cannot_read "includes")
      end
  end.

Definition fall_back (warning : string) (resume : Resume.t) (job : Job.t)
  (matchScore : scores) : M t :=
  log console_warn [Text warning] ;;;
  i <- lift (generateFallbackInsights resume job matchScore) ;;
  ret (Heuristic i).

Definition generateAIInsights (insightsText : outcome string)
  (resume : Resume.t) (job : Job.t) (matchScore : scores) : M t :=
  try_catch
    (attempt insightsText)
    (fun error =>
       log console_error [Text "AI insights generation error:"; Thrown error] ;;;
       json_error <- lift (is_json_error error) ;;
       if json_error then
         fall_back "JSON parsing failed for AI insights, using fallback method"
                   resume job matchScore
       else if is_quota_error error then
         fall_back "API quota exceeded for insights generation, using fallback method"
                   resume job matchScore
       else
         fall_back "AI insights generation failed, using fallback method"
                   resume job matchScore).

End Generate.

End AIInsights.

(** ** Job search (findJobMatches, aiMatching.js lines 127-164) *)

Module Matching.

(** A job of the query, with the outcomes of the two model calls that are
    made for it: the reply to the skills prompt and the text of the insights
    response. *)
Record job_run := {
  posting : Job.t;
  skillsReply : outcome string;
  insightsText : outcome string
}.

(** An element of the returned array. *)
Record found := {
  job : Job.t;
  matchScore : number;
  breakdown : option Breakdown.t;
  insights : AIInsights.t
}.

Record options := {
  minScore : option number;
  limit : option number
}.

(** [options.minScore || 30] *)
Definition threshold (o : options) : number :=
  match minScore o with
  | Some m => if truthy m then m else 30%float
  | None => 30%float
  end.

(** [options.limit || 50] *)
Definition query_limit (o : options) : number :=
  match limit o with
  | Some n => if truthy n then n else 50%float
  | None => 50%float
  end.

(** The comparator [(a, b) => b.matchScore - a.matchScore]. *)
Definition comparator (a b : found) : number := (matchScore b - matchScore a)%float.

(** [matches.sort(comparator)].  The sort is stable: an element moves in
    front of an earlier one only when the comparator is negative for the
    pair (a NaN counts as 0). *)
Fixpoint insert (x : found) (sorted : list found) : list found :=
  match sorted with
  | [] => [x]
  | y :: rest =>
      if PrimFloat.ltb (comparator x y) 0%float then x :: y :: rest
      else y :: insert x rest
  end.

Definition sort (matches : list found) : list found :=
  fold_left (fun sorted x => insert x sorted) matches [].

Definition no_resume_message : string := "No active resume found for user".

(** The answer of the route that generates matches. *)
Inductive response (saved : Type) :=
| Generated (savedMatches : list saved)     (* res.json *)
| Failed.                                   (* res.status(500).json *)
Arguments Generated {saved} savedMatches.
Arguments Failed {saved}.

Section Find.

Variable JSON_parse : string -> outcome AIInsights.json.
Variable Number_toString : number -> string.

(** [await Resume.getLatestForUser(userId)]: a document or [null]. *)
Variable getLatestForUser : outcome (option Resume.t).

(** [await Job.find({ status: 'active' }).populate(...).limit(n)] *)
Variable findActiveJobs : number -> outcome (list job_run).

(** The [for ... of] loop over the jobs. *)
Fixpoint score_jobs (userResume : Resume.t) (minimum : number) (jobs : list job_run)
  : M (list found) :=
  match jobs with
  | [] => ret []
  | j :: rest =>
      score <- calculateJobMatchScore (skillsReply j) userResume (posting j) ;;
      if geb (overallScore score) minimum then
        breakdown <- generateMatchBreakdown userResume (posting j) score ;;
        insights <- AIInsights.generateAIInsights JSON_parse Number_toString
                      (insightsText j) userResume (posting j) score ;;
        matches <- score_jobs userResume minimum rest ;;
        ret ({| job := posting j;
                matchScore := overallScore score;
                breakdown := breakdown;
                insights := insights |} :: matches)
      else score_jobs userResume minimum rest
  end.

Definition findJobMatches (o : options) : M (list found) :=
  try_catch
    (userResume <- lift getLatestForUser ;;
     match userResume with
     | None => throw (new_Error no_resume_message)
     | Some userResume =>
         jobs <- lift (findActiveJobs (query_limit o)) ;;
         matches <- score_jobs userResume (threshold o) jobs ;;
         ret (sort matches)
     end)
    (fun error =>
       log console_error [Text "Job matching error:"; Thrown error] ;;;
       throw error).

(** ** The route that generates matches (routes/matches.js lines 53-100) *)

(** The two fields of the request body, each as the string [parseInt] sees
    ([None] when the field is undefined). *)
Record body := {
  body_minScore : option string;
  body_limit : option string
}.

(** [const { minScore = 30, limit = 20 } = req.body] followed by the two
    [parseInt] calls. *)
Definition route_options (b : body) : options := {|
  minScore := Some (parseInt (match body_minScore b with Some s => s | None => "30"%string end));
  limit := Some (parseInt (match body_limit b with Some s => s | None => "20"%string end))
|}.

(** [match.resume]: the objects that [findJobMatches] pushes have the
    properties [job], [matchScore], [breakdown] and [insights]. *)
Definition resume_of (m : found) : option Resume.t := None.

Section Route.

Variable saved : Type.

(** [aiMatching.saveMatch], called with the match and the résumé whose
    [_id] is read. *)
Variable saveMatch : found -> Resume.t -> M saved.

Fixpoint save_all (matches : list found) : M (list saved) :=
  match matches with
  | [] => ret []
  | m :: rest =>
      match resume_of m with
      | None => throw (cannot_read "_id")
      | Some resume =>
          savedMatch <- saveMatch m resume ;;
          savedMatches <- save_all rest ;;
          ret (savedMatch :: savedMatches)
      end
  end.

Definition generate (b : body) : M (response saved) :=
  try_catch
    (matches <- findJobMatches (route_options b) ;;
     savedMatches <- save_all matches ;;
     ret (Generated savedMatches))
    (fun error =>
       log console_error [Text "Generate matches error:"; Thrown error] ;;;
       ret Failed).

End Route.

End Find.

End Matching.

(** ** Résumé analysis (analyzeResumeWithAI, resumeParser.js lines 601-659) *)

Module Analysis.

Import AIInsights.

(** Truthiness of a parsed value. *)
Definition truthy_json (v : json) : bool :=
  match v with
  | JNull => false
  | JBool b => b
  | JNumber n => truthy n
  | JString s => negb (String.eqb s EmptyString)
  | JArray _ => true
  | JObject _ => true
  end.

(** The object the function returns, through the six properties it sets.
    [lastAnalyzed] is [None] in the record of the [catch] block, which has no
    such property. *)
Record t := {
  strengths : json;
  weaknesses : json;
  improvementSuggestions : json;
  skillGaps : json;
  overallScore : json;
  lastAnalyzed : option json
}.

(** The record of the [catch] block. *)
Definition default : t := {|
  strengths := JArray [];
  weaknesses := JArray [];
  improvementSuggestions := JArray [];
  skillGaps := JArray [];
  overallScore := JNumber 70%float;
  lastAnalyzed := None
|}.

Section Analyze.

Variable JSON_parse : string -> outcome json.
Variable Number_toString : number -> string.

(** [new Date().toISOString()] at the time of the call. *)
Variable now : string.

(** Lines 632-641: the text between the first opening and the last closing
    brace of the cleaned response. *)
Definition object_text (text : string) : outcome string :=
  let fencedClean := JSString.trim (Sanitizer.strip_fences text) in
  let jsonStart := JSString.indexOf "{" fencedClean in
  let jsonEnd := JSString.lastIndexOf "}" fencedClean in
  if (jsonStart =? -1)%Z || (jsonEnd =? -1)%Z || (jsonEnd <? jsonStart)%Z
  then Throw (new_Error Sanitizer.no_json_message)
  else Return (JSString.substring jsonStart (jsonEnd + 1) fencedClean).

(** [parsed[key]]: a property of the parsed value, [undefined] when it has
    none; reading a property of [null] throws. *)
Definition property (parsed : json) (key : string) : outcome (option json) :=
  match parsed with
  | JNull =>
      Throw (mkExn TypeError
               (Some ("Cannot read properties of null (reading '" ++ key ++ "')")%string))
  | JObject fields => Return (get fields key)
  | _ => Return None
  end.

(** [parsed[key] = value]: allowed on objects and arrays, a TypeError on a
    primitive in strict mode. *)
Definition assignable (parsed : json) (key : string) : outcome unit :=
  match parsed with
  | JBool b =>
      Throw (cannot_create key "boolean" (if b then "true" else "false"))
  | JNumber n => Throw (cannot_create key "number" (Number_toString n))
  | JString s => Throw (cannot_create key "string" s)
  | _ => Return tt
  end.

(** [if (!parsed[key]) parsed[key] = fallback], then what the property
    holds. *)
Definition defaulted (parsed : json) (key : string) (fallback : json) : outcome json :=
  obind (property parsed key) (fun v =>
  match v with
  | Some v' =>
      if truthy_json v' then Return v'
      else obind (assignable parsed key) (fun _ => Return fallback)
  | None => obind (assignable parsed key) (fun _ => Return fallback)
  end).

(** [if (typeof parsed.overallScore !== 'number') parsed.overallScore = 70] *)
Definition numeric_score (parsed : json) : outcome json :=
  obind (property parsed "overallScore") (fun v =>
  match v with
  | Some (JNumber n) => Return (JNumber n)
  | _ => obind (assignable parsed "overallScore") (fun _ => Return (JNumber 70%float))
  end).

Definition completed (parsed : json) : outcome t :=
  obind (defaulted parsed "strengths" (JArray [])) (fun strengths =>
  obind (defaulted parsed "weaknesses" (JArray [])) (fun weaknesses =>
  obind (defaulted parsed "improvementSuggestions" (JArray []))
        (fun improvementSuggestions =>
  obind (defaulted parsed "skillGaps" (JArray [])) (fun skillGaps =>
  obind (numeric_score parsed) (fun overallScore =>
  obind (defaulted parsed "lastAnalyzed" (JString now)) (fun lastAnalyzed =>
  Return {| strengths := strengths;
            weaknesses := weaknesses;
            improvementSuggestions := improvementSuggestions;
            skillGaps := skillGaps;
            overallScore := overallScore;
            lastAnalyzed := Some lastAnalyzed |})))))).

(** [reply] is the outcome of building the prompt, calling the model and
    reading the text of its response (lines 603-630). *)
Definition analyzeResumeWithAI (reply : outcome string) : M t :=
  try_catch
    (text <- lift reply ;;
     cleanJson <- lift (object_text text) ;;
     parsed <- lift (JSON_parse cleanJson) ;;
     lift (completed parsed))
    (fun error =>
       log console_error [Text "AI analysis error:"; Thrown error] ;;;
       ret default).

End Analyze.

End Analysis.
(** * Properties *)

(** ** Finite reachability tables

    The general statement about [weighted_score] ranges over 101^4 inputs.  The
    partial sums take few distinct values, so they are collected stage by
    stage in a table that keeps each value once. *)

Module Reach.

Section Table.
Variable A : Type.
Variable hash : A -> positive.
Variable eqbA : A -> A -> bool.
Hypothesis eqbA_eq : forall x y, eqbA x y = true -> x = y.

Definition table := PositiveMap.t (list A).

Definition bucket (m : table) (k : positive) : list A :=
  match PositiveMap.find k m with Some b => b | None => [] end.

Definition ins (m : table) (x : A) : table :=
  let b := bucket m (hash x) in
  if existsb (eqbA x) b then m else PositiveMap.add (hash x) (x :: b) m.

Definition stored (m : table) (x : A) : Prop := In x (bucket m (hash x)).

Definition insert_all (l : list A) (m : table) : table := fold_left ins l m.

Definition contents (m : table) : list A :=
  flat_map snd (PositiveMap.elements m).

Lemma ins_self m x : stored (ins m x) x.
Proof.
  unfold stored, ins.
  destruct (existsb (eqbA x) (bucket m (hash x))) eqn:E.
  - apply existsb_exists in E. destruct E as [y [Hy Hxy]].
    apply eqbA_eq in Hxy. now subst y.
  - unfold bucket at 1. rewrite PositiveMap.gss. now left.
Qed.

Lemma ins_keep m x y : stored m y -> stored (ins m x) y.
Proof.
  unfold stored, ins. intros Hy.
  destruct (existsb (eqbA x) (bucket m (hash x))); [exact Hy|].
  destruct (Pos.eq_dec (hash x) (hash y)) as [Hk|Hk].
  - unfold bucket at 1. rewrite <- Hk, PositiveMap.gss.
    right. now rewrite Hk.
  - unfold bucket at 1. rewrite PositiveMap.gso by congruence. exact Hy.
Qed.

Lemma insert_all_keep l : forall m y, stored m y -> stored (insert_all l m) y.
Proof.
  induction l as [|x l IH]; intros m y Hy; simpl; [exact Hy|].
  apply IH. now apply ins_keep.
Qed.

Lemma insert_all_In l : forall m y, In y l -> stored (insert_all l m) y.
Proof.
  induction l as [|x l IH]; intros m y Hy; simpl; [contradiction|].
  destruct Hy as [->|Hy].
  - apply insert_all_keep, ins_self.
  - now apply IH.
Qed.

Lemma stored_contents m x : stored m x -> In x (contents m).
Proof.
  unfold stored, bucket, contents. intros Hx.
  destruct (PositiveMap.find (hash x) m) as [b|] eqn:E; [|contradiction].
  apply in_flat_map. exists (hash x, b). split; [|exact Hx].
  now apply PositiveMap.elements_correct.
Qed.

(** One stage: every stored value combined with every choice. *)
Definition stage {B : Type} (f : A -> B -> A) (choices : list B) (m : table) : table :=
  insert_all (flat_map (fun p => map (f p) choices) (contents m))
             (PositiveMap.empty (list A)).

Lemma stage_complete {B : Type} (f : A -> B -> A) choices m p v :
  In p (contents m) -> In v choices ->
  In (f p v) (contents (stage f choices m)).
Proof.
  intros Hp Hv. apply stored_contents. unfold stage.
  apply insert_all_In. apply in_flat_map. exists p. split; [exact Hp|].
  now apply in_map.
Qed.
End Table.

End Reach.

(** The scores 0..100 as a list. *)
Definition percentages : list Z := map Z.of_nat (seq 0 101).

Lemma percentages_In z : (0 <= z <= 100)%Z -> In z percentages.
Proof.
  intros H. unfold percentages. apply in_map_iff. exists (Z.to_nat z).
  split; [lia|]. apply in_seq. lia.
Qed.

Module Overall.

(** A partial sum together with ten times its exact value. *)
Definition point := (Z * float)%type.

Definition hash (p : point) : positive := Z.to_pos (fst p + 1).

Definition eqb (p q : point) : bool :=
  (fst p =? fst q)%Z && PrimFloat.Leibniz.eqb (snd p) (snd q).

Lemma eqb_eq p q : eqb p q = true -> p = q.
Proof.
  destruct p as [n x], q as [k y]. unfold eqb. simpl. intros H.
  apply andb_prop in H. destruct H as [Hn Hx].
  apply Z.eqb_eq in Hn. apply FloatAxioms.Leibniz.eqb_spec in Hx. now subst.
Qed.

Definition step (k : Z) (w : float) (p : point) (v : Z) : point :=
  ((fst p + k * v)%Z, (snd p + of_Z v * w)%float).

Definition first_terms : list point :=
  map (fun s => ((4 * s)%Z, (of_Z s * 0.4)%float)) percentages.

Definition sums1 := Reach.insert_all point hash eqb first_terms (PositiveMap.empty _).
Definition sums2 := Reach.stage point hash eqb (step 3 0.3) percentages sums1.
Definition sums3 := Reach.stage point hash eqb (step 2 0.2) percentages sums2.
Definition sums4 := Reach.stage point hash eqb (step 1 0.1) percentages sums3.

(** What is checked of each complete sum: its rounding is an integer of
    [0,100] at distance at most 1/2 from the exact weighted sum. *)
Definition good (p : point) : bool :=
  match to_Z (Math_round (snd p)) with
  | Some z =>
      PrimFloat.Leibniz.eqb (Math_round (snd p)) (of_Z z)
      && (0 <=? z)%Z && (z <=? 100)%Z && (Z.abs (10 * z - fst p) <=? 5)%Z
  | None => false
  end.

Lemma all_good : forallb good (Reach.contents point sums4) = true.
Proof. vm_compute. reflexivity. Qed.

Lemma reachable s e d l :
  (0 <= s <= 100)%Z -> (0 <= e <= 100)%Z -> (0 <= d <= 100)%Z -> (0 <= l <= 100)%Z ->
  In (step 1 0.1 (step 2 0.2 (step 3 0.3 ((4 * s)%Z, (of_Z s * 0.4)%float) e) d) l)
     (Reach.contents point sums4).
Proof.
  intros Hs He Hd Hl.
  apply (Reach.stage_complete point hash eqb eqb_eq); [|now apply percentages_In].
  apply (Reach.stage_complete point hash eqb eqb_eq); [|now apply percentages_In].
  apply (Reach.stage_complete point hash eqb eqb_eq); [|now apply percentages_In].
  apply (Reach.stored_contents point hash). apply (Reach.insert_all_In point hash eqb eqb_eq).
  unfold first_terms.
  apply (in_map (fun s => ((4 * s)%Z, (of_Z s * 0.4)%float))).
  now apply percentages_In.
Qed.

(** For dimension scores that are integers of [0,100], the rounded weighted
    sum is an integer of [0,100] and a nearest integer to the exact weighted
    sum (4s + 3e + 2d + l) / 10. *)
Lemma rounded_in_range (s e d l : Z) :
  (0 <= s <= 100)%Z -> (0 <= e <= 100)%Z -> (0 <= d <= 100)%Z -> (0 <= l <= 100)%Z ->
  exists z : Z,
    Math_round (of_Z s * 0.4 + of_Z e * 0.3 + of_Z d * 0.2 + of_Z l * 0.1)%float = of_Z z
    /\ (0 <= z <= 100)%Z
    /\ (Z.abs (10 * z - (4 * s + 3 * e + 2 * d + l)) <= 5)%Z.
Proof.
  intros Hs He Hd Hl.
  pose proof (reachable s e d l Hs He Hd Hl) as Hin.
  pose proof (proj1 (forallb_forall good _) all_good _ Hin) as Hall.
  unfold good in Hall. cbn [step fst snd] in Hall.
  destruct (to_Z (Math_round (of_Z s * 0.4 + of_Z e * 0.3 + of_Z d * 0.2 + of_Z l * 0.1)%float))
    as [z|]; [|discriminate].
  apply andb_prop in Hall. destruct Hall as [Hall H4].
  apply andb_prop in Hall. destruct Hall as [Hall H3].
  apply andb_prop in Hall. destruct Hall as [H1 H2].
  apply FloatAxioms.Leibniz.eqb_spec in H1.
  exists z. split; [exact H1|]. split; [lia|].
  apply Z.leb_le in H4.
  replace (4 * s + 3 * e + 2 * d + l)%Z with (4 * s + 3 * e + 2 * d + 1 * l)%Z by lia.
  exact H4.
Qed.

End Overall.

(** ** The aggregator and a throwing scorer *)

Section AggregatorFacts.

Variables (reply : outcome string) (resume : Resume.t) (job : Job.t).

Let education :=
  calculateEducationMatch (Resume.education (Resume.extractedData resume))
                          (Job.education (Job.requirements job)).
Let location :=
  calculateLocationMatch (Resume.personalInfo (Resume.extractedData resume))
                         (Job.location job).

Definition match_score_error (e : exn) : entry :=
  (console_error, [Text "Match score calculation error:"; Thrown e]).

Lemma skills_throw_caught l e :
  skillsDimension reply resume job = (l, Throw e) ->
  calculateJobMatchScore reply resume job
  = (l ++ [match_score_error e], Return zero_scores).
Proof.
  intros H. unfold calculateJobMatchScore. rewrite H. reflexivity.
Qed.

Lemma education_throw_caught l s e :
  skillsDimension reply resume job = (l, Return s) ->
  education = Throw e ->
  calculateJobMatchScore reply resume job
  = ((l ++ []) ++ [match_score_error e], Return zero_scores).
Proof.
  intros H He. unfold calculateJobMatchScore. rewrite H.
  fold education. rewrite He. reflexivity.
Qed.

Lemma location_throw_caught l s d e :
  skillsDimension reply resume job = (l, Return s) ->
  education = Return d ->
  location = Throw e ->
  calculateJobMatchScore reply resume job
  = ((l ++ [] ++ []) ++ [match_score_error e], Return zero_scores).
Proof.
  intros H He Hl. unfold calculateJobMatchScore. rewrite H.
  fold education. rewrite He. fold location. rewrite Hl. reflexivity.
Qed.

Lemma all_return l s d c :
  skillsDimension reply resume job = (l, Return s) ->
  education = Return d ->
  location = Return c ->
  let x := calculateExperienceMatch (Resume.experience (Resume.extractedData resume))
                                    (Job.experience (Job.requirements job)) in
  result (calculateJobMatchScore reply resume job)
  = Return {| skillsMatch := s; experienceMatch := x; educationMatch := d;
              locationMatch := c; overallScore := weighted_score s x d c |}.
Proof.
  intros H He Hl x. unfold calculateJobMatchScore. rewrite H.
  fold education. rewrite He. fold location. rewrite Hl. reflexivity.
Qed.

Lemma all_return_run l s d c :
  skillsDimension reply resume job = (l, Return s) ->
  education = Return d ->
  location = Return c ->
  let x := calculateExperienceMatch (Resume.experience (Resume.extractedData resume))
                                    (Job.experience (Job.requirements job)) in
  calculateJobMatchScore reply resume job
  = (l, Return {| skillsMatch := s; experienceMatch := x; educationMatch := d;
                  locationMatch := c; overallScore := weighted_score s x d c |}).
Proof.
  intros Hs He Hl. unfold calculateJobMatchScore. rewrite Hs. simpl.
  fold education. rewrite He. fold location. rewrite Hl. simpl.
  now rewrite !app_nil_r.
Qed.

End AggregatorFacts.

(** The aggregator always returns a score record, and the overall score of
    the record is the weighted rounding of its four dimension scores. *)
Lemma aggregator_overall (reply : outcome string) (resume : Resume.t) (job : Job.t) :
  exists sc : scores,
    result (calculateJobMatchScore reply resume job) = Return sc
    /\ overallScore sc
       = weighted_score (skillsMatch sc) (experienceMatch sc) (educationMatch sc)
                      (locationMatch sc).
Proof.
  destruct (skillsDimension reply resume job) as [l [s|e0]] eqn:Hs.
  - destruct (calculateEducationMatch (Resume.education (Resume.extractedData resume))
                (Job.education (Job.requirements job))) as [d|e1] eqn:Hd.
    + destruct (calculateLocationMatch (Resume.personalInfo (Resume.extractedData resume))
                  (Job.location job)) as [c|e2] eqn:Hc.
      * eexists. split; [exact (all_return reply resume job l s d c Hs Hd Hc)|].
        reflexivity.
      * rewrite (location_throw_caught reply resume job l s d e2 Hs Hd Hc).
        exists zero_scores. split; reflexivity.
    + rewrite (education_throw_caught reply resume job l s e1 Hs Hd).
      exists zero_scores. split; reflexivity.
  - rewrite (skills_throw_caught reply resume job l e0 Hs).
    exists zero_scores. split; reflexivity.
Qed.

Lemma number_neq (a b : number) : PrimFloat.Leibniz.eqb a b = false -> a <> b.
Proof.
  intros H E. subst b.
  rewrite (proj2 (FloatAxioms.Leibniz.eqb_spec a a) eq_refl) in H. discriminate.
Qed.

(** Documents whose four dimension scores are 1, 57, 0 and 50: the model
    replies 1 for the skills, four years of experience stand against a
    minimum of seven, the required degree is not held, and the candidate's
    location is unknown. *)
Definition tie_resume : Resume.t := {|
  Resume.skillsEmbedding := None;
  Resume.extractedData := {|
    Resume.skills := Some [ {| Resume.name := Some "Python"%string |} ];
    Resume.experience :=
      Some [ {| Resume.startDate := Some {| Resume.getFullYear := 2020; Resume.getMonth := 0 |};
                Resume.endDate := Some {| Resume.getFullYear := 2024; Resume.getMonth := 0 |} |} ];
    Resume.education := Some [ {| Resume.degree := Some "B.Sc."%string |} ];
    Resume.personalInfo := Some {| Resume.location := None |}
  |}
|}.

Definition tie_job : Job.t := {|
  Job.embedding := None;
  Job.requirements := {|
    Job.skills := Some [ {| Job.name := Some "Go"%string |} ];
    Job.experience := Some {| Job.min := Some 7%float |};
    Job.education := Some {| Job.required := true; Job.degree := Some "PhD"%string |}
  |};
  Job.location := Some {| Job.remote := false; Job.city := Some "Chennai"%string |}
|}.

(** C1, as stated, fails.  For the dimension scores 1, 57, 0 and 50 the
    weighted sum is exactly 22.5 (ten times it is 4*1 + 3*57 + 2*0 + 50 =
    225), whose rounding is 23; the sum computed in double precision falls
    just below 22.5, and the aggregator returns the overall score 22. *)
Lemma overallScore_rounds_a_tie_down :
  calculateJobMatchScore (Return "1"%string) tie_resume tie_job
  = ([], Return {| skillsMatch := 1%float; experienceMatch := 57%float;
                   educationMatch := 0%float; locationMatch := 50%float;
                   overallScore := 22%float |})
  /\ (4 * 1 + 3 * 57 + 2 * 0 + 50 = 225)%Z
  /\ Math_round 22.5%float = 23%float
  /\ ((4 * 1 + 3 * 57 + 2 * 0 + 50 + 5) / 10 = 23)%Z
  /\ 22%float <> 23%float.
Proof.
  split; [vm_compute; reflexivity|]. split; [reflexivity|].
  split; [vm_compute; reflexivity|]. split; [reflexivity|].
  apply number_neq. vm_compute. reflexivity.
Qed.

(** C1, amended.  Whenever the four dimension scorers return integers s, e,
    d and l of [0,100], the aggregator returns the record of these scores
    with an overall score that is Math.round of the sum s*0.4 + e*0.3 +
    d*0.2 + l*0.1 computed in double precision.  That overall score is an
    integer z of [0,100] within 1/2 of the exact weighted sum
    (4s + 3e + 2d + l) / 10; it is the rounding of the exact sum whenever
    the exact sum is not halfway between two integers, and at a halfway sum
    it is one of the two neighbouring integers. *)
Theorem overallScore_rounds_double_sum
  (reply : outcome string) (resume : Resume.t) (job : Job.t) (log : list entry)
  (s e d l : Z) :
  (0 <= s <= 100)%Z -> (0 <= e <= 100)%Z -> (0 <= d <= 100)%Z -> (0 <= l <= 100)%Z ->
  skillsDimension reply resume job = (log, Return (of_Z s)) ->
  calculateExperienceMatch (Resume.experience (Resume.extractedData resume))
                           (Job.experience (Job.requirements job)) = of_Z e ->
  calculateEducationMatch (Resume.education (Resume.extractedData resume))
                          (Job.education (Job.requirements job)) = Return (of_Z d) ->
  calculateLocationMatch (Resume.personalInfo (Resume.extractedData resume))
                         (Job.location job) = Return (of_Z l) ->
  exists z : Z,
    (0 <= z <= 100)%Z
    /\ (Z.abs (10 * z - (4 * s + 3 * e + 2 * d + l)) <= 5)%Z
    /\ ((4 * s + 3 * e + 2 * d + l) mod 10 <> 5 ->
        z = (4 * s + 3 * e + 2 * d + l + 5) / 10)%Z
    /\ Math_round (of_Z s * 0.4 + of_Z e * 0.3 + of_Z d * 0.2 + of_Z l * 0.1)%float
       = of_Z z
    /\ calculateJobMatchScore reply resume job
       = (log, Return {| skillsMatch := of_Z s; experienceMatch := of_Z e;
                         educationMatch := of_Z d; locationMatch := of_Z l;
                         overallScore := of_Z z |}).
Proof.
  intros Hs He Hd Hl Hskills Hexp Hedu Hloc.
  destruct (Overall.rounded_in_range s e d l Hs He Hd Hl) as (z & Hz & Hr & Hn).
  exists z. split; [exact Hr|]. split; [exact Hn|]. split; [|split; [exact Hz|]].
  - intros Htie.
    pose proof (Z.div_mod (4 * s + 3 * e + 2 * d + l) 10 ltac:(lia)) as Hdm.
    pose proof (Z.mod_pos_bound (4 * s + 3 * e + 2 * d + l) 10 ltac:(lia)) as Hb.
    apply (Z.div_unique _ 10 z (4 * s + 3 * e + 2 * d + l + 5 - 10 * z)); lia.
  - rewrite (all_return_run reply resume job log (of_Z s) (of_Z d) (of_Z l)
               Hskills Hedu Hloc).
    cbv zeta. rewrite Hexp. unfold weighted_score. rewrite Hz. reflexivity.
Qed.

Lemma overallScore_rounds_double_sum_witness :
  exists z : Z,
    (0 <= z <= 100)%Z
    /\ (Z.abs (10 * z - (4 * 70 + 3 * 57 + 2 * 0 + 50)) <= 5)%Z
    /\ ((4 * 70 + 3 * 57 + 2 * 0 + 50) mod 10 <> 5 ->
        z = (4 * 70 + 3 * 57 + 2 * 0 + 50 + 5) / 10)%Z
    /\ Math_round (of_Z 70 * 0.4 + of_Z 57 * 0.3 + of_Z 0 * 0.2 + of_Z 50 * 0.1)%float
       = of_Z z
    /\ calculateJobMatchScore (Return "70"%string) tie_resume tie_job
       = ([], Return {| skillsMatch := of_Z 70; experienceMatch := of_Z 57;
                        educationMatch := of_Z 0; locationMatch := of_Z 50;
                        overallScore := of_Z z |}).
Proof.
  apply (overallScore_rounds_double_sum (Return "70"%string) tie_resume tie_job []
           70 57 0 50);
    first [lia | vm_compute; reflexivity].
Defined.

(** Sample documents: no embeddings, skills on both sides, a job that
    requires a degree without naming one, and a remote position. *)
Definition sample_resume : Resume.t := {|
  Resume.skillsEmbedding := None;
  Resume.extractedData := {|
    Resume.skills := Some [ {| Resume.name := Some "Python"%string |} ];
    Resume.experience := Some [];
    Resume.education := Some [ {| Resume.degree := Some "BSc Computer Science"%string |} ];
    Resume.personalInfo := Some {| Resume.location := Some "Chennai"%string |}
  |}
|}.

Definition sample_job : Job.t := {|
  Job.embedding := None;
  Job.requirements := {|
    Job.skills := Some [ {| Job.name := Some "Python"%string |} ];
    Job.experience := None;
    Job.education := Some {| Job.required := true; Job.degree := None |}
  |};
  Job.location := Some {| Job.remote := true; Job.city := None |}
|}.

(** Sample documents whose embeddings differ in length: an empty résumé
    skills embedding against a job embedding. *)
Definition resume_without_vector : Resume.t := {|
  Resume.skillsEmbedding := Some [];
  Resume.extractedData := Resume.extractedData sample_resume
|}.

Definition job_with_vector : Job.t := {|
  Job.embedding := Some [0.5; 0.25]%float;
  Job.requirements := {|
    Job.skills := Some [ {| Job.name := Some "Python"%string |} ];
    Job.experience := None;
    Job.education := None
  |};
  Job.location := Some {| Job.remote := true; Job.city := None |}
|}.

(** C2, as stated, fails: when the education scorer throws (the job requires
    a degree and names none), the other three dimensions would score 80, 100
    and 100, and the aggregator returns 0 for every dimension and for the
    overall score. *)
Lemma throwing_education_zeroes_other_dimensions :
  calculateEducationMatch (Resume.education (Resume.extractedData sample_resume))
                          (Job.education (Job.requirements sample_job))
  = Throw (cannot_read "toLowerCase")
  /\ result (skillsDimension (Return "80"%string) sample_resume sample_job)
     = Return 80%float
  /\ calculateExperienceMatch (Resume.experience (Resume.extractedData sample_resume))
                              (Job.experience (Job.requirements sample_job))
     = 100%float
  /\ calculateLocationMatch (Resume.personalInfo (Resume.extractedData sample_resume))
                            (Job.location sample_job)
     = Return 100%float
  /\ result (calculateJobMatchScore (Return "80"%string) sample_resume sample_job)
     = Return zero_scores
  /\ skillsMatch zero_scores <> 80%float
  /\ experienceMatch zero_scores <> 100%float
  /\ locationMatch zero_scores <> 100%float
  /\ overallScore zero_scores <> weighted_score 80%float 100%float 0%float 100%float.
Proof.
  repeat split; try (vm_compute; reflexivity);
    apply number_neq; vm_compute; reflexivity.
Qed.

(** C2, amended.  If a dimension scorer throws during match scoring, the
    aggregator catches the error, logs it, and returns the all-zero record:
    every dimension and the overall score are 0, and nothing is thrown to
    the caller. *)
Theorem scorer_throw_returns_zero_scores
  (reply : outcome string) (resume : Resume.t) (job : Job.t) (e : exn) :
  result (skillsDimension reply resume job) = Throw e
  \/ calculateEducationMatch (Resume.education (Resume.extractedData resume))
                             (Job.education (Job.requirements job)) = Throw e
  \/ calculateLocationMatch (Resume.personalInfo (Resume.extractedData resume))
                            (Job.location job) = Throw e ->
  result (calculateJobMatchScore reply resume job) = Return zero_scores
  /\ exists e', In (match_score_error e')
                   (logged (calculateJobMatchScore reply resume job)).
Proof.
  intros H.
  destruct (skillsDimension reply resume job) as [l [s|e0]] eqn:Hs.
  - destruct (calculateEducationMatch (Resume.education (Resume.extractedData resume))
                (Job.education (Job.requirements job))) as [d|e1] eqn:Hd.
    + destruct (calculateLocationMatch (Resume.personalInfo (Resume.extractedData resume))
                  (Job.location job)) as [c|e2] eqn:Hc.
      * destruct H as [H|[H|H]]; discriminate.
      * rewrite (location_throw_caught reply resume job l s d e2 Hs Hd Hc).
        split; [reflexivity|]. exists e2. apply in_or_app. right. now left.
    + rewrite (education_throw_caught reply resume job l s e1 Hs Hd).
      split; [reflexivity|]. exists e1. apply in_or_app. right. now left.
  - rewrite (skills_throw_caught reply resume job l e0 Hs).
    split; [reflexivity|]. exists e0. apply in_or_app. right. now left.
Qed.

Lemma scorer_throw_returns_zero_scores_witness :
  result (calculateJobMatchScore (Return "80"%string) sample_resume sample_job)
  = Return zero_scores
  /\ exists e', In (match_score_error e')
                   (logged (calculateJobMatchScore (Return "80"%string)
                                                   sample_resume sample_job)).
Proof.
  apply (scorer_throw_returns_zero_scores (Return "80"%string) sample_resume sample_job
           (cannot_read "toLowerCase")).
  right. left. reflexivity.
Defined.

(** ** Vectors of unequal length *)

Lemma length_mismatch_throws (K : arith) (vecA vecB : list (num K)) :
  List.length vecA <> List.length vecB ->
  cosineSimilarity K vecA vecB = Throw (new_Error length_mismatch_message).
Proof.
  intros H. unfold cosineSimilarity.
  destruct (List.length vecA =? List.length vecB)%nat eqn:E; [|reflexivity].
  apply Nat.eqb_eq in E. contradiction.
Qed.

(** C3, as stated, fails: for an empty vector against a vector of two
    components the comparison throws and returns no score. *)
Lemma unequal_lengths_do_not_return_zero :
  cosineSimilarity binary64 [] [0.5; 0.25]%float
  = Throw (new_Error length_mismatch_message)
  /\ cosineSimilarity binary64 [] [0.5; 0.25]%float <> Return 0%float.
Proof. split; [reflexivity|discriminate]. Qed.

(** C3, amended.  For two vectors of unequal length the similarity
    comparison throws the error "Vectors must have the same length"; inside
    match scoring that error is caught and logged, and the all-zero score
    record is returned, so nothing reaches the caller of the aggregator. *)
Theorem unequal_lengths_throw_and_zero_the_match
  (reply : outcome string) (resume : Resume.t) (job : Job.t) (a b : list number) :
  Resume.skillsEmbedding resume = Some a ->
  Job.embedding job = Some b ->
  List.length a <> List.length b ->
  cosineSimilarity binary64 a b = Throw (new_Error length_mismatch_message)
  /\ calculateJobMatchScore reply resume job
     = ([match_score_error (new_Error length_mismatch_message)], Return zero_scores).
Proof.
  intros Ha Hb Hlen.
  pose proof (length_mismatch_throws binary64 a b Hlen) as Hthrow.
  split; [exact Hthrow|].
  apply (skills_throw_caught reply resume job []).
  unfold skillsDimension. rewrite Ha, Hb.
  change (num binary64) with number in Hthrow. rewrite Hthrow. reflexivity.
Qed.

Lemma unequal_lengths_throw_and_zero_the_match_witness :
  cosineSimilarity binary64 [] [0.5; 0.25]%float
  = Throw (new_Error length_mismatch_message)
  /\ calculateJobMatchScore (Return "80"%string) resume_without_vector job_with_vector
     = ([match_score_error (new_Error length_mismatch_message)], Return zero_scores).
Proof.
  apply (unequal_lengths_throw_and_zero_the_match
           (Return "80"%string) resume_without_vector job_with_vector
           [] [0.5; 0.25]%float);
    [reflexivity | reflexivity | simpl; lia].
Defined.
(** ** The fallback embedding *)

Module EmbeddingFacts.

Import JSObject.

(** The words of a text, the ones that are counted, the distinct ones in
    encounter order, and the number of occurrences of a word. *)
Definition words_of (text : string) : list string :=
  JSString.split_ws (JSString.toLowerCase text).

Definition long (w : string) : bool := (2 <? String.length w)%nat.

Fixpoint distinct_from (seen l : list string) : list string :=
  match l with
  | [] => []
  | w :: r =>
      if existsb (String.eqb w) seen then distinct_from seen r
      else w :: distinct_from (w :: seen) r
  end.

Definition distinct (l : list string) : list string := distinct_from [] l.

Definition occurrences (w : string) (l : list string) : Z :=
  Z.of_nat (count_occ string_dec l w).

(** The object that holds, for each key of [ks], its number of occurrences
    in [ws]. *)
Definition tally (ks ws : list string) : object :=
  map (fun w => (w, VNumber (occurrences w ws))) ks.

Lemma existsb_eqb_In (w : string) (l : list string) :
  existsb (String.eqb w) l = true <-> In w l.
Proof.
  rewrite existsb_exists. split.
  - intros [x [Hx E]]. apply String.eqb_eq in E. now subst.
  - intros H. exists w. split; [exact H|apply String.eqb_refl].
Qed.

Lemma existsb_eqb_ext (w : string) (l l' : list string) :
  (forall x, In x l <-> In x l') ->
  existsb (String.eqb w) l = existsb (String.eqb w) l'.
Proof.
  intros H. destruct (existsb (String.eqb w) l) eqn:E.
  - symmetry. apply existsb_eqb_In. apply H. now apply existsb_eqb_In.
  - symmetry. destruct (existsb (String.eqb w) l') eqn:E'; [|reflexivity].
    apply existsb_eqb_In in E'. apply H in E'. apply existsb_eqb_In in E'. congruence.
Qed.

Lemma distinct_from_In (l : list string) : forall seen w,
  In w (distinct_from seen l) <-> In w l /\ ~ In w seen.
Proof.
  induction l as [|x l IH]; intros seen w; simpl.
  - tauto.
  - destruct (existsb (String.eqb x) seen) eqn:E.
    + apply existsb_eqb_In in E. rewrite IH. split.
      * intros [H1 H2]. tauto.
      * intros [[->|H1] H2]; [contradiction|tauto].
    + assert (Hx : ~ In x seen).
      { intros H. apply existsb_eqb_In in H. congruence. }
      simpl. rewrite IH. simpl. split.
      * intros [->|[H1 H2]]; [tauto|]. tauto.
      * intros [[->|H1] H2]; [tauto|].
        destruct (string_dec x w) as [->|Hne]; [tauto|]. right. tauto.
Qed.

Lemma distinct_from_snoc (l : list string) : forall seen w,
  distinct_from seen (l ++ [w])
  = distinct_from seen l
    ++ (if existsb (String.eqb w) (seen ++ l) then [] else [w]).
Proof.
  induction l as [|x l IH]; intros seen w; simpl.
  - rewrite app_nil_r. now destruct (existsb (String.eqb w) seen).
  - destruct (existsb (String.eqb x) seen) eqn:E.
    + rewrite IH. f_equal.
      rewrite (existsb_eqb_ext w (seen ++ l) (seen ++ x :: l)); [reflexivity|].
      intros y. rewrite !in_app_iff. simpl. apply existsb_eqb_In in E.
      split; [tauto|]. intros [H|[->|H]]; tauto.
    + simpl. rewrite IH. f_equal. f_equal.
      rewrite (existsb_eqb_ext w ((x :: seen) ++ l) (seen ++ x :: l)); [reflexivity|].
      intros y. simpl. rewrite !in_app_iff. simpl. tauto.
Qed.

Lemma distinct_snoc (l : list string) (w : string) :
  distinct (l ++ [w])
  = distinct l ++ (if existsb (String.eqb w) l then [] else [w]).
Proof. unfold distinct. now rewrite distinct_from_snoc. Qed.

Lemma distinct_In (l : list string) (w : string) : In w (distinct l) <-> In w l.
Proof. unfold distinct. rewrite distinct_from_In. simpl. tauto. Qed.

Lemma occurrences_snoc (w x : string) (l : list string) :
  occurrences w (l ++ [x])
  = (occurrences w l + (if String.eqb x w then 1 else 0))%Z.
Proof.
  unfold occurrences. rewrite count_occ_app. simpl.
  destruct (string_dec x w) as [->|Hne].
  - rewrite String.eqb_refl. lia.
  - apply String.eqb_neq in Hne. rewrite Hne. lia.
Qed.

Lemma occurrences_absent (w : string) (l : list string) :
  ~ In w l -> occurrences w l = 0%Z.
Proof.
  intros H. unfold occurrences.
  rewrite (proj1 (count_occ_not_In string_dec l w) H). reflexivity.
Qed.

Lemma own_tally (ks ws : list string) (w : string) :
  own (tally ks ws) w
  = if existsb (String.eqb w) ks then Some (VNumber (occurrences w ws)) else None.
Proof.
  induction ks as [|k ks IH]; simpl; [reflexivity|].
  rewrite (String.eqb_sym w k).
  destruct (String.eqb k w) eqn:E; simpl.
  - apply String.eqb_eq in E. now subst.
  - exact IH.
Qed.

Lemma distinct_from_NoDup (l : list string) : forall seen,
  NoDup (distinct_from seen l).
Proof.
  induction l as [|x l IH]; intros seen; simpl.
  - constructor.
  - destruct (existsb (String.eqb x) seen); [apply IH|].
    constructor; [|apply IH].
    rewrite distinct_from_In. simpl. tauto.
Qed.

Lemma tally_snoc_other (ks ws : list string) (x : string) :
  ~ In x ks -> tally ks (ws ++ [x]) = tally ks ws.
Proof.
  induction ks as [|k ks IH]; intros H; simpl; [reflexivity|].
  simpl in H. rewrite IH by tauto. rewrite occurrences_snoc.
  assert (E : String.eqb x k = false) by (apply String.eqb_neq; intros ->; tauto).
  rewrite E. do 3 f_equal. lia.
Qed.

Lemma update_present (ks ws : list string) (w : string) :
  NoDup ks -> In w ks ->
  update (tally ks ws) w (VNumber (occurrences w ws + 1)) = tally ks (ws ++ [w]).
Proof.
  induction ks as [|k ks IH]; intros Hnd Hin; [contradiction|].
  apply NoDup_cons_iff in Hnd. destruct Hnd as [Hk Hnd]. simpl.
  destruct (String.eqb k w) eqn:E.
  - apply String.eqb_eq in E. subst k.
    rewrite tally_snoc_other by assumption.
    rewrite occurrences_snoc, String.eqb_refl. reflexivity.
  - assert (Hw : In w ks).
    { destruct Hin as [->|H]; [|exact H]. rewrite String.eqb_refl in E. discriminate. }
    rewrite IH by assumption. rewrite occurrences_snoc.
    rewrite String.eqb_sym, E. do 3 f_equal. lia.
Qed.

Lemma update_absent (ks ws : list string) (w : string) (v : value) :
  ~ In w ks -> update (tally ks ws) w v = tally ks ws ++ [(w, v)].
Proof.
  induction ks as [|k ks IH]; intros H; simpl; [reflexivity|].
  simpl in H.
  assert (E : String.eqb k w = false) by (apply String.eqb_neq; intros ->; tauto).
  rewrite E, IH by tauto. reflexivity.
Qed.

Lemma inherited_proto (w : string) :
  inherited w = false -> String.eqb w proto_accessor = false.
Proof. unfold inherited. intros H. now apply orb_false_elim in H. Qed.

(** The loop over the words builds the tally of the distinct counted
    words. *)
Lemma fold_count_word (ws : list string) :
  (forall w, In w (filter long ws) -> inherited w = false) ->
  fold_left count_word ws [] = tally (distinct (filter long ws)) ws.
Proof.
  induction ws as [|x ws IH] using rev_ind; intros Hin; [reflexivity|].
  rewrite fold_left_app, filter_app. cbn [fold_left filter].
  rewrite IH.
  2:{ intros w Hw. apply Hin. rewrite filter_app. apply in_or_app. now left. }
  unfold count_word. fold (long x).
  destruct (long x) eqn:Hx.
  - assert (Hnot : inherited x = false).
    { apply Hin. rewrite filter_app. apply in_or_app. right. simpl.
      fold (long x). rewrite Hx. now left. }
    unfold assign. rewrite (inherited_proto x Hnot).
    unfold incremented. rewrite own_tally, distinct_snoc.
    destruct (existsb (String.eqb x) (distinct (filter long ws))) eqn:E.
    + assert (E' : existsb (String.eqb x) (filter long ws) = true).
      { apply existsb_eqb_In. apply (proj1 (distinct_In _ _)).
        now apply existsb_eqb_In. }
      rewrite E', app_nil_r.
      apply update_present; [apply distinct_from_NoDup|now apply existsb_eqb_In].
    + assert (Hd : ~ In x (distinct (filter long ws))).
      { intros H. apply existsb_eqb_In in H. congruence. }
      assert (E' : existsb (String.eqb x) (filter long ws) = false).
      { destruct (existsb (String.eqb x) (filter long ws)) eqn:E2; [|reflexivity].
        apply existsb_eqb_In in E2. apply (proj2 (distinct_In _ _)) in E2.
        contradiction. }
      rewrite E', Hnot.
      rewrite update_absent by assumption.
      unfold tally at 2. rewrite map_app. fold (tally (distinct (filter long ws)) (ws ++ [x])).
      rewrite tally_snoc_other by assumption.
      simpl. do 4 f_equal.
      rewrite occurrences_snoc, String.eqb_refl.
      rewrite occurrences_absent; [reflexivity|].
      intros H. apply Hd. apply (proj2 (distinct_In _ _)).
      apply filter_In. split; assumption.
  - rewrite app_nil_r. symmetry. apply tally_snoc_other.
    intros H. apply (proj1 (distinct_In _ _)) in H. apply filter_In in H.
    destruct H as [_ H]. congruence.
Qed.

Lemma insert_index_In (k w : string) (l : list string) :
  In w (insert_index k l) <-> w = k \/ In w l.
Proof.
  induction l as [|x l IH]; simpl.
  - split; [intros [H|[]]; now left | intros [H|[]]; now left].
  - destruct (index_value k <=? index_value x)%Z; simpl.
    + split; [intros [H|H]; [now left|now right] | intros [H|H]; [now left|now right]].
    + rewrite IH. split.
      * intros [H|[H|H]]; [right; now left | now left | right; now right].
      * intros [H|[H|H]]; [right; now left | now left | right; now right].
Qed.

Lemma sort_indices_In (w : string) (l : list string) :
  In w (sort_indices l) <-> In w l.
Proof.
  unfold sort_indices. induction l as [|x l IH]; simpl; [tauto|].
  rewrite insert_index_In, IH. split; intros [H|H]; auto.
Qed.

Lemma key_order_In (w : string) (ks : list string) :
  In w (key_order ks) -> In w ks.
Proof.
  unfold key_order. rewrite in_app_iff, sort_indices_In, !filter_In. tauto.
Qed.

Lemma key_order_no_index (ks : list string) :
  (forall w, In w ks -> is_array_index w = false) -> key_order ks = ks.
Proof.
  unfold key_order. induction ks as [|k ks IH]; intros H; [reflexivity|].
  simpl. rewrite (H k) by now left. simpl.
  simpl in IH. specialize (IH (fun w Hw => H w (or_intror Hw))).
  assert (Hnil : filter is_array_index ks = []).
  { clear IH. induction ks as [|x ks IHk]; [reflexivity|].
    simpl. rewrite (H x) by (right; now left).
    apply IHk. intros w [->|Hw]; apply H; [now left|right; now right]. }
  rewrite Hnil in *. simpl in *. now rewrite IH.
Qed.

Lemma keys_tally (ks ws : list string) : keys (tally ks ws) = key_order ks.
Proof.
  unfold keys, tally. rewrite map_map. simpl. now rewrite map_id.
Qed.

End EmbeddingFacts.

(** C7, as stated, fails: in the text "abc 123 abc" the first distinct word
    of length greater than 2 is "abc", which occurs twice among three words,
    and component 0 is 1/3, the share of "123": a key that is an array index
    is listed before the other keys. *)
Lemma numeric_word_is_listed_first :
  let text := "abc 123 abc"%string in
  let words := EmbeddingFacts.words_of text in
  nth_error (EmbeddingFacts.distinct (filter EmbeddingFacts.long words)) 0
  = Some "abc"%string
  /\ EmbeddingFacts.occurrences "abc" words = 2%Z
  /\ List.length words = 3%nat
  /\ nth_error (generateFallbackEmbedding text) 0 = Some (of_Z 1 / of_Z 3)%float
  /\ nth_error (generateFallbackEmbedding text) 0 <> Some (of_Z 2 / of_Z 3)%float.
Proof.
  repeat split; try (vm_compute; reflexivity).
  intros H.
  assert (E : Some (of_Z 1 / of_Z 3)%float = Some (of_Z 2 / of_Z 3)%float)
    by (rewrite <- H; vm_compute; reflexivity).
  apply (f_equal (fun o => match o with
                           | Some x => PrimFloat.Leibniz.eqb x (of_Z 1 / of_Z 3)
                           | None => false
                           end)) in E.
  vm_compute in E. discriminate.
Qed.

(** C7, amended.  For every input string, including the empty string, the
    fallback embedding is a vector of exactly 50 components.  When no
    counted word is the name of a member of Object.prototype, component i
    equals the number of occurrences of the i-th key of the word-count
    object divided by the total number of words, and 0 when there are fewer
    keys; the keys are the distinct words of length greater than 2, those
    that are array indices first in ascending numeric order and then the
    others in encounter order, which is plain encounter order when no
    counted word is an array index. *)
Theorem fallback_embedding_components (text : string) :
  let words := EmbeddingFacts.words_of text in
  let counted := filter EmbeddingFacts.long words in
  let keys := JSObject.key_order (EmbeddingFacts.distinct counted) in
  List.length (generateFallbackEmbedding text) = 50%nat
  /\ ((forall w, In w counted -> JSObject.inherited w = false) ->
      forall i, (i < 50)%nat ->
        nth_error (generateFallbackEmbedding text) i
        = Some match nth_error keys i with
               | Some w =>
                   (of_Z (EmbeddingFacts.occurrences w words)
                    / of_Z (Z.of_nat (List.length words)))%float
               | None => 0%float
               end)
  /\ ((forall w, In w counted -> JSObject.is_array_index w = false) ->
      keys = EmbeddingFacts.distinct counted).
Proof.
  intros words counted keys.
  split; [|split].
  - unfold generateFallbackEmbedding. now rewrite length_map, length_seq.
  - intros Hin i Hi. unfold generateFallbackEmbedding.
    fold (EmbeddingFacts.words_of text). fold words.
    rewrite (EmbeddingFacts.fold_count_word words Hin). fold counted.
    rewrite EmbeddingFacts.keys_tally. fold keys.
    rewrite nth_error_map, nth_error_seq.
    apply Nat.ltb_lt in Hi. rewrite Hi. cbn [option_map Nat.add].
    destruct (nth_error keys i) as [w|] eqn:E; [|reflexivity].
    rewrite EmbeddingFacts.own_tally.
    assert (Hw : In w (EmbeddingFacts.distinct counted)).
    { apply EmbeddingFacts.key_order_In. apply (nth_error_In _ _ E). }
    rewrite (proj2 (EmbeddingFacts.existsb_eqb_In w _) Hw). reflexivity.
  - intros Hno. apply EmbeddingFacts.key_order_no_index.
    intros w Hw. apply Hno. now apply (proj1 (EmbeddingFacts.distinct_In _ _)).
Qed.

(** The text "abc 123 abc": the keys are "123" and "abc". *)
Lemma fallback_embedding_components_witness :
  nth_error (generateFallbackEmbedding "abc 123 abc") 1
  = Some (of_Z 2 / of_Z 3)%float.
Proof.
  refine (eq_trans
            (proj1 (proj2 (fallback_embedding_components "abc 123 abc")) _ 1%nat _) _).
  - intros w Hw. vm_compute in Hw.
    destruct Hw as [<-|[<-|[<-|[]]]]; reflexivity.
  - lia.
  - vm_compute. reflexivity.
Defined.
(** ** The embedder and a failing backend *)

(** C4, as stated, fails: when the backend fails with an error that mentions
    neither a quota nor status 429, the embedder throws to its caller and
    returns no fallback vector. *)
Lemma other_backend_error_reaches_caller :
  let embedContent := fun _ : string => Throw (new_Error "500 Internal Server Error") in
  result (generateEmbedding embedContent "hello world")
  = Throw (new_Error embedding_failed_message)
  /\ result (generateEmbedding embedContent "hello world")
     <> Return (generateFallbackEmbedding "hello world").
Proof. split; [reflexivity|discriminate]. Qed.

(** C4, amended.  When the primary embedding call fails with an error whose
    message contains "quota" or "429", generateEmbedding returns the
    deterministic fallback embedding of the text; when it fails with any
    other error, generateEmbedding throws the error "Failed to generate
    embedding" to its caller. *)
Theorem generateEmbedding_on_backend_failure
  (embedContent : string -> outcome (list number)) (text : string) (e : exn) :
  embedContent (JSString.substring 0 8000 text) = Throw e ->
  (is_quota_error e = true ->
   result (generateEmbedding embedContent text) = Return (generateFallbackEmbedding text))
  /\ (is_quota_error e = false ->
      result (generateEmbedding embedContent text)
      = Throw (new_Error embedding_failed_message)).
Proof.
  intros H. unfold generateEmbedding. rewrite H.
  split; intros Hq; simpl; rewrite Hq; reflexivity.
Qed.

Lemma generateEmbedding_on_backend_failure_witness :
  let embedContent := fun _ : string => Throw (new_Error "429 Too Many Requests") in
  (is_quota_error (new_Error "429 Too Many Requests") = true ->
   result (generateEmbedding embedContent "hello world")
   = Return (generateFallbackEmbedding "hello world"))
  /\ (is_quota_error (new_Error "429 Too Many Requests") = false ->
      result (generateEmbedding embedContent "hello world")
      = Throw (new_Error embedding_failed_message)).
Proof.
  exact (generateEmbedding_on_backend_failure
           (fun _ : string => Throw (new_Error "429 Too Many Requests"))
           "hello world" (new_Error "429 Too Many Requests") eq_refl).
Defined.

(** The primary path hands the backend's vector back unchanged. *)
Lemma generateEmbedding_primary
  (embedContent : string -> outcome (list number)) (text : string) (v : list number) :
  embedContent (JSString.substring 0 8000 text) = Return v ->
  generateEmbedding embedContent text = ([], Return v).
Proof. intros H. unfold generateEmbedding. rewrite H. reflexivity. Qed.
(** ** The experience scorer *)

(** The months of the entries that have both dates, as the sum the
    specification writes. *)
Definition dated_spans (experience : list Resume.experience_entry)
  : list (Resume.date * Resume.date) :=
  flat_map (fun exp =>
              match Resume.startDate exp, Resume.endDate exp with
              | Some start, Some end_ => [(start, end_)]
              | _, _ => []
              end)
           experience.

Definition total_months (experience : list Resume.experience_entry) : Z :=
  fold_right Z.add 0%Z
    (map (fun span => months_between (fst span) (snd span)) (dated_spans experience)).

(** The required minimum: [jobExperience.min || 0]. *)
Definition required_minimum (jobExperience : Job.experience_req) : number :=
  match Job.min jobExperience with
  | Some m => if truthy m then m else 0%float
  | None => 0%float
  end.

Lemma fold_add_months experience : forall acc,
  fold_left add_months experience acc = (acc + total_months experience)%Z.
Proof.
  induction experience as [|exp rest IH]; intros acc; simpl.
  - unfold total_months. simpl. lia.
  - rewrite IH. unfold add_months, total_months. simpl.
    destruct (Resume.startDate exp) as [start|]; [|reflexivity].
    destruct (Resume.endDate exp) as [end_|]; [|reflexivity].
    simpl. lia.
Qed.

Lemma calculateTotalExperience_sum experience :
  calculateTotalExperience experience
  = Math_round (of_Z (total_months experience) / 12)%float.
Proof.
  unfold calculateTotalExperience. rewrite fold_add_months. reflexivity.
Qed.

(** C5, as stated, fails: with an empty résumé experience list the candidate
    has 0 years, and a job whose experience requirement sets no minimum is
    scored 0, not 100. *)
Lemma empty_experience_scores_zero_without_minimum :
  calculateTotalExperience [] = 0%float
  /\ calculateExperienceMatch (Some []) (Some {| Job.min := None |}) = 0%float
  /\ calculateExperienceMatch (Some []) (Some {| Job.min := None |}) <> 100%float.
Proof.
  repeat split; try (vm_compute; reflexivity).
  apply number_neq. vm_compute. reflexivity.
Qed.

(** C5, amended.  Candidate total experience is the sum, over the entries
    with both a start and an end date, of (end.year - start.year)*12 +
    (end.month - start.month) months, divided by 12 and rounded to an
    integer.  The score is 100 when the job has no experience requirement;
    0 when it has one and the résumé experience list is empty or absent;
    and for a non-empty list it is 100 when candidate years >= the required
    minimum (a missing minimum counting as 0) and Math.round((candidateYears
    / requiredMinimum) * 100), in double precision, otherwise.  In
    particular 2 years against a 4-year minimum score 50 and 5 years
    score 100. *)
Theorem experience_score_cases
  (resumeExperience : list Resume.experience_entry) :
  calculateTotalExperience resumeExperience
  = Math_round (of_Z (total_months resumeExperience) / 12)%float
  /\ (forall anyExperience,
        calculateExperienceMatch anyExperience None = 100%float)
  /\ (forall jobExperience,
        calculateExperienceMatch None (Some jobExperience) = 0%float
        /\ calculateExperienceMatch (Some []) (Some jobExperience) = 0%float)
  /\ (forall jobExperience,
        resumeExperience <> [] ->
        let years := calculateTotalExperience resumeExperience in
        let required := required_minimum jobExperience in
        (geb years required = true ->
         calculateExperienceMatch (Some resumeExperience) (Some jobExperience)
         = 100%float)
        /\ (geb years required = false ->
            calculateExperienceMatch (Some resumeExperience) (Some jobExperience)
            = Math_round ((years / required) * 100)%float))
  /\ (resumeExperience <> [] ->
      calculateTotalExperience resumeExperience = 2%float ->
      calculateExperienceMatch (Some resumeExperience)
                               (Some {| Job.min := Some 4%float |}) = 50%float)
  /\ (resumeExperience <> [] ->
      calculateTotalExperience resumeExperience = 5%float ->
      calculateExperienceMatch (Some resumeExperience)
                               (Some {| Job.min := Some 4%float |}) = 100%float).
Proof.
  split; [apply calculateTotalExperience_sum|].
  split; [intros [l|]; reflexivity|].
  split; [intros je; split; reflexivity|].
  split; [|split].
  - intros je Hne years required.
    destruct resumeExperience as [|exp rest]; [contradiction|].
    unfold calculateExperienceMatch. fold (required_minimum je).
    fold years. fold required.
    split; intros H; rewrite H; reflexivity.
  - intros Hne H2.
    destruct resumeExperience as [|exp rest]; [contradiction|].
    unfold calculateExperienceMatch. rewrite H2. vm_compute. reflexivity.
  - intros Hne H5.
    destruct resumeExperience as [|exp rest]; [contradiction|].
    unfold calculateExperienceMatch. rewrite H5. vm_compute. reflexivity.
Qed.

(** A résumé entry from January 2020 to January 2022, and one to January
    2025. *)
Definition two_years : list Resume.experience_entry :=
  [ {| Resume.startDate := Some {| Resume.getFullYear := 2020; Resume.getMonth := 0 |};
       Resume.endDate := Some {| Resume.getFullYear := 2022; Resume.getMonth := 0 |} |} ].

Definition five_years : list Resume.experience_entry :=
  [ {| Resume.startDate := Some {| Resume.getFullYear := 2020; Resume.getMonth := 0 |};
       Resume.endDate := Some {| Resume.getFullYear := 2025; Resume.getMonth := 0 |} |} ].

Lemma experience_score_cases_witness :
  calculateExperienceMatch (Some two_years) (Some {| Job.min := Some 4%float |})
  = 50%float
  /\ calculateExperienceMatch (Some five_years) (Some {| Job.min := Some 4%float |})
     = 100%float.
Proof.
  split.
  - apply (proj1 (proj2 (proj2 (proj2 (proj2 (experience_score_cases two_years)))))).
    + discriminate.
    + vm_compute. reflexivity.
  - apply (proj2 (proj2 (proj2 (proj2 (proj2 (experience_score_cases five_years)))))).
    + discriminate.
    + vm_compute. reflexivity.
Defined.
(** ** The rule-based extractor on a skills line *)

Module ExtractorFacts.

Import JSString Extractor.
Local Open Scope string_scope.

Definition line_feed : string := String "010"%char EmptyString.

Fixpoint has_line_feed (s : string) : bool :=
  match s with
  | EmptyString => false
  | String c r => Ascii.eqb c "010"%char || has_line_feed r
  end.

Lemma split_lines_single s : forall cur,
  has_line_feed s = false ->
  split_lines_from s cur = [rev_string (rev_string s cur) EmptyString].
Proof.
  induction s as [|c r IH]; intros cur H; simpl in *.
  - reflexivity.
  - apply orb_false_elim in H. destruct H as [Hc Hr].
    rewrite Hc. now apply IH.
Qed.

Lemma append_empty_r s : (s ++ EmptyString)%string = s.
Proof. induction s as [|c r IH]; simpl; [reflexivity|now rewrite IH]. Qed.

Lemma rev_string_twice s : forall acc acc',
  rev_string (rev_string s acc) acc' = rev_string acc (s ++ acc')%string.
Proof.
  induction s as [|c r IH]; intros acc acc'; simpl.
  - reflexivity.
  - rewrite IH. reflexivity.
Qed.

Lemma rev_string_involutive s :
  rev_string (rev_string s EmptyString) EmptyString = s.
Proof. rewrite rev_string_twice. simpl. apply append_empty_r. Qed.

Lemma lines_of_single (h k : string) : lines_of [(h, [])] k = [].
Proof. unfold lines_of. simpl. now destruct (String.eqb h k). Qed.

Lemma first_defined_single (h a b : string) :
  first_defined (lookup [(h, [])] a) (lookup [(h, [])] b) = [].
Proof. simpl. now destruct (String.eqb h a), (String.eqb h b). Qed.

(** A header line alone in the text: every line of the text is the header,
    so every section stays empty. *)
Lemma header_only_text (text header : string) :
  has_line_feed text = false ->
  match_section (trim text) = Some header ->
  let p := ruleBasedExtraction text in
  skills p = [] /\ experiences p = [] /\ educations p = [] /\ projects p = []
  /\ certifications p = [] /\ languages p = [].
Proof.
  intros Hlf Hm. unfold ruleBasedExtraction.
  unfold split_lines. rewrite (split_lines_single text EmptyString Hlf).
  rewrite rev_string_involutive. cbn [map filter].
  destruct (nonempty_string (trim text)) eqn:Hne.
  - cbn [fold_left]. unfold collect_line. rewrite Hm.
    change (lines_of [] header) with (@nil string).
    change (store [] header []) with [(header, @nil string)].
    cbn [snd]. rewrite !first_defined_single, !lines_of_single.
    cbn. repeat split; reflexivity.
  - cbn. repeat split; reflexivity.
Qed.

End ExtractorFacts.

(** C6, as stated, fails: for the text "Skills: Python, React, SQL" the
    whole line is taken as the section header, and the skills list is
    empty. *)
Lemma inline_skills_line_gives_no_skills :
  Extractor.skills (Extractor.ruleBasedExtraction "Skills: Python, React, SQL") = []
  /\ Extractor.skills (Extractor.ruleBasedExtraction "Skills: Python, React, SQL")
     <> ["Python"; "React"; "SQL"]%string.
Proof. split; [vm_compute; reflexivity | vm_compute; discriminate]. Qed.

(** C6, amended.  For a résumé text with the header "Skills:" on a line of
    its own followed by the line "Python, React, SQL" and no other section
    content, the rule-based extractor returns exactly the skills list
    [Python, React, SQL] and empty experience, education and projects lists.
    A line that starts with a section header is consumed as the header: for
    a text that is such a line alone, which "Skills: Python, React, SQL" is,
    the skills, experience, education and projects lists are all empty. *)
Theorem skills_section_extraction :
  (let p := Extractor.ruleBasedExtraction
              ("Skills:" ++ ExtractorFacts.line_feed ++ "Python, React, SQL") in
   Extractor.skills p = ["Python"; "React"; "SQL"]%string
   /\ Extractor.experiences p = [] /\ Extractor.educations p = []
   /\ Extractor.projects p = [])
  /\ (forall text header,
        ExtractorFacts.has_line_feed text = false ->
        Extractor.match_section (JSString.trim text) = Some header ->
        let p := Extractor.ruleBasedExtraction text in
        Extractor.skills p = [] /\ Extractor.experiences p = []
        /\ Extractor.educations p = [] /\ Extractor.projects p = [])
  /\ Extractor.match_section (JSString.trim "Skills: Python, React, SQL")
     = Some "skills"%string.
Proof.
  split; [vm_compute; repeat split; reflexivity|].
  split; [|vm_compute; reflexivity].
  intros text header Hlf Hm p.
  destruct (ExtractorFacts.header_only_text text header Hlf Hm)
    as (H1 & H2 & H3 & H4 & _).
  repeat split; assumption.
Qed.
(** ** The response sanitizer *)

Module SanitizerFacts.

Import JSString Sanitizer.
Local Open Scope string_scope.

Fixpoint occurs (c : ascii) (s : string) : bool :=
  match s with
  | EmptyString => false
  | String a r => Ascii.eqb a c || occurs c r
  end.

Lemma length_append (s t : string) :
  String.length (s ++ t) = (String.length s + String.length t)%nat.
Proof. induction s as [|a s IH]; simpl; [reflexivity|now rewrite IH]. Qed.

Lemma indexOf_from_append c pre rest : forall i,
  occurs c pre = false ->
  indexOf_from c (pre ++ String c rest) i = (i + Z.of_nat (String.length pre))%Z.
Proof.
  induction pre as [|a pre IH]; intros i H; simpl in *.
  - rewrite Ascii.eqb_refl. lia.
  - apply orb_false_elim in H. destruct H as [Ha Hp].
    rewrite Ha. rewrite IH by assumption. lia.
Qed.

Lemma lastIndexOf_from_append c s t : forall i last,
  lastIndexOf_from c (s ++ t) i last
  = lastIndexOf_from c t (i + Z.of_nat (String.length s))%Z (lastIndexOf_from c s i last).
Proof.
  induction s as [|a s IH]; intros i last; simpl.
  - f_equal. lia.
  - rewrite IH. f_equal. lia.
Qed.

Lemma lastIndexOf_from_absent c t : forall i last,
  occurs c t = false -> lastIndexOf_from c t i last = last.
Proof.
  induction t as [|a t IH]; intros i last H; simpl in *.
  - reflexivity.
  - apply orb_false_elim in H. destruct H as [Ha Ht].
    rewrite Ha. now apply IH.
Qed.

Lemma substring_prefix (b c : string) :
  String.substring 0 (String.length b) (b ++ c) = b.
Proof.
  induction b as [|x b IH]; simpl.
  - now destruct c.
  - now rewrite IH.
Qed.

Lemma substring_middle (a b c : string) :
  String.substring (String.length a) (String.length b) (a ++ b ++ c) = b.
Proof.
  induction a as [|x a IH]; simpl.
  - apply substring_prefix.
  - exact IH.
Qed.

Lemma substring_length_le s : forall n m,
  (String.length (String.substring n m s) <= m)%nat.
Proof.
  induction s as [|a s IH]; intros n m; simpl.
  - destruct n, m; simpl; lia.
  - destruct n as [|n].
    + destruct m as [|m]; simpl; [lia|]. specialize (IH 0%nat m). lia.
    + apply IH.
Qed.

Lemma append_last (b p : string) (c : ascii) :
  (b ++ String c EmptyString) ++ p = b ++ String c p.
Proof. induction b as [|x b IH]; simpl; [reflexivity|now rewrite IH]. Qed.

(** The span from the first [open] to the last [close] of a text in which
    they enclose [body]. *)
Lemma enclosed_span (open close : ascii) (pre body post : string) :
  occurs open pre = false ->
  occurs close post = false ->
  let cleaned := pre ++ String open (body ++ String close post) in
  let i := indexOf open cleaned in
  let j := lastIndexOf close cleaned in
  (0 <= i)%Z /\ (i < j)%Z
  /\ substring i (j + 1) cleaned = String open (body ++ String close EmptyString).
Proof.
  intros Hpre Hpost cleaned i j.
  assert (Hi : i = Z.of_nat (String.length pre)).
  { unfold i, indexOf, cleaned. rewrite indexOf_from_append by assumption. lia. }
  assert (Hj : j = Z.of_nat (String.length pre + 1 + String.length body)).
  { unfold j, lastIndexOf, cleaned.
    change (pre ++ String open (body ++ String close post))
      with (pre ++ (String open body ++ String close post)).
    rewrite lastIndexOf_from_append.
    rewrite lastIndexOf_from_append.
    simpl lastIndexOf_from at 1. rewrite Ascii.eqb_refl.
    rewrite lastIndexOf_from_absent by assumption.
    simpl String.length. lia. }
  split; [lia|]. split; [lia|].
  unfold substring.
  assert (Hlen : String.length cleaned
                 = (String.length pre + (String.length body + 2) + String.length post)%nat).
  { unfold cleaned. rewrite length_append. simpl. rewrite length_append. simpl. lia. }
  rewrite Hlen, Hi, Hj.
  replace (Z.to_nat _) with (String.length pre) by lia.
  replace (Z.to_nat _)
    with (String.length (String open (body ++ String close EmptyString))).
  2:{ simpl. rewrite length_append. simpl. lia. }
  unfold cleaned.
  replace (String open (body ++ String close post))
    with (String open (body ++ String close EmptyString) ++ post).
  - apply substring_middle.
  - simpl. f_equal. apply append_last.
Qed.

Definition quote : string := String "034"%char EmptyString.
Definition line_feed : string := String "010"%char EmptyString.

(** The sample responses: fenced JSON, JSON inside prose, no JSON. *)
Definition fenced_response : string :=
  "```json" ++ line_feed ++ "{" ++ quote ++ "a" ++ quote ++ ":1}" ++ line_feed ++ "```".
Definition prose_response : string :=
  "blah {" ++ quote ++ "a" ++ quote ++ ":[1,2]} blah".
Definition plain_response : string := "no json here".

(** What the [catch] block writes before it rethrows [e]. *)
Definition failure_log (e : exn) (text : string) : list entry :=
  [ (console_error, [Text "JSON parsing error:"; Thrown e]);
    (console_error, [Text "Raw response text:"; Text (substring 0 500 text)]) ].

(** The thrown error carries a copy of the first 500 characters of the raw
    response when its message contains them. *)
Definition carries_copy (e : exn) (text : string) : bool :=
  match message e with
  | Some m => includes m (substring 0 500 text)
  | None => false
  end.

Section Candidates.

Variable text : string.
Let cleaned := trim (strip_fences text).

Lemma object_candidate pre body post :
  cleaned = pre ++ String "{"%char (body ++ String "}"%char post) ->
  occurs "{"%char pre = false ->
  occurs "}"%char post = false ->
  json_candidate text = Return (String "{"%char (body ++ "}")).
Proof.
  intros Hc Hpre Hpost.
  destruct (enclosed_span "{"%char "}"%char pre body post Hpre Hpost) as (Hi & Hij & Hs).
  rewrite <- Hc in Hi, Hij, Hs.
  unfold json_candidate. fold cleaned.
  replace (indexOf "{"%char cleaned =? -1)%Z with false by (symmetry; apply Z.eqb_neq; lia).
  replace (lastIndexOf "}"%char cleaned =? -1)%Z with false by (symmetry; apply Z.eqb_neq; lia).
  replace (lastIndexOf "}"%char cleaned <? indexOf "{"%char cleaned)%Z with false
    by (symmetry; apply Z.ltb_ge; lia).
  simpl orb. cbv iota. rewrite Hs. reflexivity.
Qed.

Lemma array_candidate pre body post :
  (indexOf "{"%char cleaned = -1
   \/ lastIndexOf "}"%char cleaned = -1
   \/ lastIndexOf "}"%char cleaned < indexOf "{"%char cleaned)%Z ->
  cleaned = pre ++ String "["%char (body ++ String "]"%char post) ->
  occurs "["%char pre = false ->
  occurs "]"%char post = false ->
  json_candidate text = Return (String "["%char (body ++ "]")).
Proof.
  intros Hno Hc Hpre Hpost.
  destruct (enclosed_span "["%char "]"%char pre body post Hpre Hpost) as (Hi & Hij & Hs).
  rewrite <- Hc in Hi, Hij, Hs.
  unfold json_candidate. fold cleaned.
  replace ((indexOf "{"%char cleaned =? -1)%Z || (lastIndexOf "}"%char cleaned =? -1)%Z
           || (lastIndexOf "}"%char cleaned <? indexOf "{"%char cleaned)%Z) with true.
  2:{ symmetry. apply orb_true_iff. destruct Hno as [H|[H|H]].
      - left. apply orb_true_iff. left. now apply Z.eqb_eq.
      - left. apply orb_true_iff. right. now apply Z.eqb_eq.
      - right. now apply Z.ltb_lt. }
  replace (indexOf "["%char cleaned =? -1)%Z with false by (symmetry; apply Z.eqb_neq; lia).
  replace (lastIndexOf "]"%char cleaned =? -1)%Z with false by (symmetry; apply Z.eqb_neq; lia).
  replace (lastIndexOf "]"%char cleaned >? indexOf "["%char cleaned)%Z with true
    by (symmetry; rewrite Z.gtb_ltb; apply Z.ltb_lt; lia).
  simpl. rewrite Hs. reflexivity.
Qed.

Lemma no_candidate :
  (indexOf "{"%char cleaned = -1
   \/ lastIndexOf "}"%char cleaned = -1
   \/ lastIndexOf "}"%char cleaned < indexOf "{"%char cleaned)%Z ->
  (indexOf "["%char cleaned = -1
   \/ lastIndexOf "]"%char cleaned = -1
   \/ lastIndexOf "]"%char cleaned <= indexOf "["%char cleaned)%Z ->
  json_candidate text = Throw (new_Error no_json_message).
Proof.
  intros Hno Hna.
  unfold json_candidate. fold cleaned.
  replace ((indexOf "{"%char cleaned =? -1)%Z || (lastIndexOf "}"%char cleaned =? -1)%Z
           || (lastIndexOf "}"%char cleaned <? indexOf "{"%char cleaned)%Z) with true.
  2:{ symmetry. apply orb_true_iff. destruct Hno as [H|[H|H]].
      - left. apply orb_true_iff. left. now apply Z.eqb_eq.
      - left. apply orb_true_iff. right. now apply Z.eqb_eq.
      - right. now apply Z.ltb_lt. }
  replace (negb (indexOf "["%char cleaned =? -1)%Z
           && negb (lastIndexOf "]"%char cleaned =? -1)%Z
           && (lastIndexOf "]"%char cleaned >? indexOf "["%char cleaned)%Z) with false.
  - reflexivity.
  - symmetry. destruct Hna as [H|[H|H]].
    + rewrite (proj2 (Z.eqb_eq _ _) H). reflexivity.
    + rewrite (proj2 (Z.eqb_eq _ _) H). apply andb_false_iff. left.
      apply andb_false_r.
    + apply andb_false_iff. right. rewrite Z.gtb_ltb. apply Z.ltb_ge. lia.
Qed.

End Candidates.

Section Parsing.

Variable JSON : Type.
Variable JSON_parse : string -> outcome JSON.

Lemma parsed candidate text v :
  json_candidate text = Return candidate ->
  JSON_parse candidate = Return v ->
  parseAIJsonResponse JSON JSON_parse text = ([], Return v).
Proof.
  intros Hc Hp. unfold parseAIJsonResponse. rewrite Hc. simpl. rewrite Hp. reflexivity.
Qed.

Lemma parse_failure candidate text e :
  json_candidate text = Return candidate ->
  JSON_parse candidate = Throw e ->
  parseAIJsonResponse JSON JSON_parse text = (failure_log e text, Throw e).
Proof.
  intros Hc Hp. unfold parseAIJsonResponse. rewrite Hc. simpl. rewrite Hp. reflexivity.
Qed.

Lemma nothing_to_parse text e :
  json_candidate text = Throw e ->
  parseAIJsonResponse JSON JSON_parse text = (failure_log e text, Throw e).
Proof.
  intros Hc. unfold parseAIJsonResponse. rewrite Hc. reflexivity.
Qed.

End Parsing.

End SanitizerFacts.

(** C8, as stated, fails: for the response "no json here" the error that is
    thrown has the fixed message "No valid JSON found in AI response" and
    carries no copy of the response; the truncated copy is written to the
    console. *)
Lemma no_json_error_carries_no_copy :
  Sanitizer.parseAIJsonResponse unit (fun _ => Return tt) SanitizerFacts.plain_response
  = (SanitizerFacts.failure_log (new_Error Sanitizer.no_json_message)
                                SanitizerFacts.plain_response,
     Throw (new_Error Sanitizer.no_json_message))
  /\ SanitizerFacts.carries_copy (new_Error Sanitizer.no_json_message)
                                 SanitizerFacts.plain_response = false.
Proof. split; vm_compute; reflexivity. Qed.

(** C8, amended.  Given any raw string, the sanitizer strips the Markdown
    code-fence markers and trims; it hands JSON.parse the substring from the
    first '{' to the last '}' when the closing brace follows the opening
    one, and returns what JSON.parse returns; when there are no such object
    boundaries it does the same with '[' and ']'; when neither is found it
    throws the error "No valid JSON found in AI response".  Whenever it
    throws, that error or the one of JSON.parse, it first writes the error
    and the first 500 characters of the raw response to the console and
    rethrows the error unchanged, which itself carries no copy of the
    response.  So fenced JSON and JSON embedded in prose are extracted, and
    an input containing no JSON raises an error. *)
Theorem sanitizer_extracts_or_rethrows
  (JSON : Type) (JSON_parse : string -> outcome JSON) (text : string) :
  let cleaned := JSString.trim (Sanitizer.strip_fences text) in
  let run := Sanitizer.parseAIJsonResponse JSON JSON_parse text in
  let outcome_of candidate :=
    (forall v, JSON_parse candidate = Return v -> run = ([], Return v))
    /\ (forall e, JSON_parse candidate = Throw e ->
                  run = (SanitizerFacts.failure_log e text, Throw e)) in
  let no_object :=
    (JSString.indexOf "{"%char cleaned = -1
     \/ JSString.lastIndexOf "}"%char cleaned = -1
     \/ JSString.lastIndexOf "}"%char cleaned < JSString.indexOf "{"%char cleaned)%Z in
  let no_array :=
    (JSString.indexOf "["%char cleaned = -1
     \/ JSString.lastIndexOf "]"%char cleaned = -1
     \/ JSString.lastIndexOf "]"%char cleaned <= JSString.indexOf "["%char cleaned)%Z in
  (forall pre body post,
     cleaned = (pre ++ String "{"%char (body ++ String "}"%char post))%string ->
     SanitizerFacts.occurs "{"%char pre = false ->
     SanitizerFacts.occurs "}"%char post = false ->
     outcome_of (String "{"%char (body ++ "}"))%string)
  /\ (forall pre body post,
        no_object ->
        cleaned = (pre ++ String "["%char (body ++ String "]"%char post))%string ->
        SanitizerFacts.occurs "["%char pre = false ->
        SanitizerFacts.occurs "]"%char post = false ->
        outcome_of (String "["%char (body ++ "]"))%string)
  /\ (no_object -> no_array ->
      run = (SanitizerFacts.failure_log (new_Error Sanitizer.no_json_message) text,
             Throw (new_Error Sanitizer.no_json_message)))
  /\ (String.length (JSString.substring 0 500 text) <= 500)%nat
  /\ Sanitizer.json_candidate SanitizerFacts.fenced_response
     = Return ("{" ++ SanitizerFacts.quote ++ "a" ++ SanitizerFacts.quote ++ ":1}")%string
  /\ Sanitizer.json_candidate SanitizerFacts.prose_response
     = Return ("{" ++ SanitizerFacts.quote ++ "a" ++ SanitizerFacts.quote ++ ":[1,2]}")%string
  /\ Sanitizer.json_candidate SanitizerFacts.plain_response
     = Throw (new_Error Sanitizer.no_json_message).
Proof.
  intros cleaned run outcome_of no_object no_array.
  split; [|split; [|split; [|split; [|repeat split; vm_compute; reflexivity]]]].
  - intros pre body post Hc Hpre Hpost.
    pose proof (SanitizerFacts.object_candidate text pre body post Hc Hpre Hpost) as H.
    split.
    + intros v Hv. exact (SanitizerFacts.parsed JSON JSON_parse _ text v H Hv).
    + intros e He. exact (SanitizerFacts.parse_failure JSON JSON_parse _ text e H He).
  - intros pre body post Hno Hc Hpre Hpost.
    pose proof (SanitizerFacts.array_candidate text pre body post Hno Hc Hpre Hpost) as H.
    split.
    + intros v Hv. exact (SanitizerFacts.parsed JSON JSON_parse _ text v H Hv).
    + intros e He. exact (SanitizerFacts.parse_failure JSON JSON_parse _ text e H He).
  - intros Hno Hna.
    apply SanitizerFacts.nothing_to_parse.
    exact (SanitizerFacts.no_candidate text Hno Hna).
  - unfold JSString.substring.
    etransitivity; [apply SanitizerFacts.substring_length_le|]. lia.
Qed.

(** The prose sample, with a parser that returns the text it is given. *)
Lemma sanitizer_extracts_or_rethrows_witness :
  Sanitizer.parseAIJsonResponse string (fun s => Return s) SanitizerFacts.prose_response
  = ([], Return ("{" ++ SanitizerFacts.quote ++ "a" ++ SanitizerFacts.quote ++ ":[1,2]}")%string).
Proof.
  refine (proj1 (proj1 (sanitizer_extracts_or_rethrows string (fun s => Return s)
                          SanitizerFacts.prose_response)
                       "blah "%string
                       (SanitizerFacts.quote ++ "a" ++ SanitizerFacts.quote ++ ":[1,2]")%string
                       " blah"%string _ _ _) _ _);
    reflexivity.
Defined.
(** ** Rounding in double precision

    The operations of binary64 are specified through [binary_round_aux],
    which shifts a mantissa to 53 digits and rounds it to nearest, ties to
    even.  This section derives what the scorers need from that
    specification: a rounded result is within a relative error of 2^-53 of
    the exact one, and values of at most 53 digits are computed exactly. *)

Module Rounding.

Local Open Scope Z_scope.

(** *** Binary digits *)

Lemma digits2_size (p : positive) : digits2_pos p = Pos.size p.
Proof. induction p; simpl; congruence. Qed.

Lemma digits2_bounds (p : positive) :
  2 ^ (Z.pos (digits2_pos p) - 1) <= Z.pos p < 2 ^ Z.pos (digits2_pos p).
Proof.
  rewrite digits2_size. split.
  - pose proof (Pos.size_le p) as H.
    assert (H' : Z.pos (2 ^ Pos.size p) <= Z.pos p~0) by exact H.
    rewrite Pos2Z.inj_pow in H'.
    replace (Z.pos (Pos.size p)) with (Z.succ (Z.pos (Pos.size p) - 1)) in H' by lia.
    rewrite Z.pow_succ_r in H' by lia. lia.
  - pose proof (Pos.size_gt p) as H.
    assert (H' : Z.pos p < Z.pos (2 ^ Pos.size p)) by exact H.
    now rewrite Pos2Z.inj_pow in H'.
Qed.

Lemma digits2_unique (p : positive) (d : Z) :
  2 ^ (d - 1) <= Z.pos p < 2 ^ d -> Z.pos (digits2_pos p) = d.
Proof.
  intros [Hlo Hhi]. pose proof (digits2_bounds p) as [Hl Hh].
  set (s := Z.pos (digits2_pos p)) in *.
  assert (0 < d).
  { destruct (Z_lt_le_dec 0 d) as [|Hd]; [assumption|].
    exfalso. destruct (Z.eq_dec d 0) as [->|].
    - simpl in Hhi. lia.
    - rewrite Z.pow_neg_r in Hhi by lia. lia. }
  destruct (Z_lt_le_dec s d) as [Hsd|Hsd].
  - assert (2 ^ s <= 2 ^ (d - 1)) by (apply Z.pow_le_mono_r; lia). lia.
  - destruct (Z_lt_le_dec d s) as [Hds|Hds]; [|lia].
    assert (2 ^ d <= 2 ^ (s - 1)) by (apply Z.pow_le_mono_r; lia). lia.
Qed.

(** *** Shifting right with a round bit and a sticky bit

    A record [(m, r, s)] stands for the fraction [X / D] when [m] is its
    integer part, [r] tells whether the rest is at least one half, and [s]
    whether something is left after that. *)
Definition represents (X D : Z) (mrs : shr_record) : Prop :=
  0 < D /\ 0 <= X
  /\ shr_m mrs = X / D
  /\ shr_r mrs = (D <=? 2 * (X mod D))
  /\ shr_s mrs = negb (2 * (X mod D) =? (if shr_r mrs then D else 0)).

Ltac zbool :=
  repeat match goal with
         | |- context [Z.eqb ?a ?b] => destruct (Z.eqb_spec a b)
         | |- context [Z.leb ?a ?b] => destruct (Z.leb_spec a b)
         | |- context [Z.ltb ?a ?b] => destruct (Z.ltb_spec a b)
         end;
  cbn [negb orb andb]; try reflexivity; try lia.

Lemma represents_shr_1 (X D : Z) (mrs : shr_record) :
  represents X D mrs -> represents X (2 * D) (shr_1 mrs).
Proof.
  destruct mrs as [m r s]. unfold represents. cbn [shr_m shr_r shr_s].
  intros (HD & HX & Hm & Hr & Hs).
  pose proof (Z.div_mod X D ltac:(lia)) as Hdm.
  pose proof (Z.mod_pos_bound X D HD) as Hrem.
  pose proof (Z.div_pos X D HX HD) as Hq.
  set (q := X / D) in *. set (rem := X mod D) in *.
  assert (Hrs : (r || s) = negb (rem =? 0)).
  { rewrite Hs, Hr. zbool. }
  assert (Hcase : forall m' b, q = 2 * m' + b -> (b = 0 \/ b = 1) ->
            X / (2 * D) = m' /\ X mod (2 * D) = b * D + rem).
  { intros m' b Hqb Hb.
    assert (X = (2 * D) * m' + (b * D + rem)) by nia.
    split.
    - symmetry. apply (Z.div_unique_pos X (2 * D) m' (b * D + rem)); [nia|assumption].
    - symmetry. apply (Z.mod_unique_pos X (2 * D) m' (b * D + rem)); [nia|assumption]. }
  split; [lia|]. split; [assumption|].
  unfold shr_1.
  destruct m as [|[p|p|]|p]; cbn [shr_m shr_r shr_s]; try lia.
  - destruct (Hcase 0 0 ltac:(lia) ltac:(lia)) as [E1 E2]. rewrite E1, E2.
    split; [reflexivity|]. rewrite Hrs. split; zbool.
  - destruct (Hcase (Z.pos p) 1 ltac:(lia) ltac:(lia)) as [E1 E2]. rewrite E1, E2.
    split; [reflexivity|]. rewrite Hrs. split; zbool.
  - destruct (Hcase (Z.pos p) 0 ltac:(lia) ltac:(lia)) as [E1 E2]. rewrite E1, E2.
    split; [reflexivity|]. rewrite Hrs. split; zbool.
  - destruct (Hcase 0 1 ltac:(lia) ltac:(lia)) as [E1 E2]. rewrite E1, E2.
    split; [reflexivity|]. rewrite Hrs. split; zbool.
Qed.

Lemma represents_iter (p : positive) : forall (X D : Z) (mrs : shr_record),
  represents X D mrs -> represents X (D * 2 ^ Z.pos p) (iter_pos shr_1 p mrs).
Proof.
  induction p as [p IH|p IH|]; intros X D mrs H; cbn [iter_pos].
  - apply represents_shr_1 in H. apply IH in H. apply IH in H.
    replace (D * 2 ^ Z.pos p~1) with (2 * D * 2 ^ Z.pos p * 2 ^ Z.pos p); [exact H|].
    replace (Z.pos p~1) with (Z.pos p + Z.pos p + 1) by lia.
    rewrite !Z.pow_add_r by lia. change (2 ^ 1) with 2. ring.
  - apply IH in H. apply IH in H.
    replace (D * 2 ^ Z.pos p~0) with (D * 2 ^ Z.pos p * 2 ^ Z.pos p); [exact H|].
    replace (Z.pos p~0) with (Z.pos p + Z.pos p) by lia.
    rewrite !Z.pow_add_r by lia. ring.
  - apply represents_shr_1 in H. change (2 ^ 1) with 2. now rewrite Z.mul_comm.
Qed.

(** *** Rounding to nearest, ties to even *)

Lemma round_nearest (X D : Z) (mrs : shr_record) :
  represents X D mrs ->
  let m2 := round_nearest_even (shr_m mrs) (loc_of_shr_record mrs) in
  X / D <= m2 <= X / D + 1
  /\ 2 * Z.abs (m2 * D - X) <= D
  /\ (X mod D = 0 -> m2 = X / D).
Proof.
  destruct mrs as [m r s]. unfold represents. cbn [shr_m shr_r shr_s].
  intros (HD & HX & Hm & Hr & Hs).
  pose proof (Z.div_mod X D ltac:(lia)) as Hdm.
  pose proof (Z.mod_pos_bound X D HD) as Hrem.
  set (q := X / D) in *. set (rem := X mod D) in *.
  subst m. unfold loc_of_shr_record, round_nearest_even.
  destruct r, s; cbn zeta.
  - symmetry in Hr. apply Z.leb_le in Hr.
    symmetry in Hs. apply negb_true_iff, Z.eqb_neq in Hs. nia.
  - symmetry in Hr. apply Z.leb_le in Hr.
    symmetry in Hs. apply negb_false_iff, Z.eqb_eq in Hs.
    destruct (Z.even q); nia.
  - symmetry in Hr. apply Z.leb_gt in Hr. nia.
  - symmetry in Hr. apply Z.leb_gt in Hr.
    symmetry in Hs. apply negb_false_iff, Z.eqb_eq in Hs. nia.
Qed.

Lemma Zdigits2_pos_bounds (z d : Z) :
  2 ^ (d - 1) <= z < 2 ^ d -> 0 < d -> Zdigits2 z = d.
Proof.
  intros H Hd. assert (0 < z) by (pose proof (Z.pow_pos_nonneg 2 (d - 1)); lia).
  destruct z as [|p|p]; try lia. cbn [Zdigits2]. now apply digits2_unique.
Qed.

Lemma Zdigits2_bounds (z : Z) :
  0 < z -> 2 ^ (Zdigits2 z - 1) <= z < 2 ^ Zdigits2 z.
Proof. destruct z as [|p|p]; try lia. intros _. apply digits2_bounds. Qed.

(** The rounding of [X / D * 2 ^ ex] to a double, for a quotient of at
    least 53 digits, away from the subnormal numbers and from overflow:
    the result is [m2 * 2 ^ (ex + p)], where [p] is the number of digits
    that are shifted out and [m2] a nearest integer to [X / (D * 2 ^ p)]. *)
Lemma binary_round_aux_normal (sx : bool) (mx ex : Z) (lx : location) (X D : Z) :
  represents X D (shr_record_of_loc mx lx) ->
  let p := Zdigits2 mx - 53 in
  0 <= p -> -1074 <= ex + p <= 970 ->
  exists (m : positive) (c : Z),
    binary_round_aux prec emax sx mx ex lx = S754_finite sx m (ex + p + c)
    /\ 2 ^ 52 <= Z.pos m < 2 ^ 53
    /\ (c = 0 \/ c = 1)
    /\ let D' := D * 2 ^ p in
       let m2 := Z.pos m * 2 ^ c in
       X / D' <= m2 <= X / D' + 1
       /\ 2 * Z.abs (m2 * D' - X) <= D'
       /\ (X mod D' = 0 -> m2 = X / D').
Proof.
  intros Hrep p Hp He.
  assert (Hmx : shr_m (shr_record_of_loc mx lx) = mx) by (destruct lx as [|[]]; reflexivity).
  assert (HD : 0 < D) by apply Hrep. assert (HX : 0 <= X) by apply Hrep.
  assert (Hq : mx = X / D) by (rewrite <- Hmx; apply Hrep).
  assert (Hpos : 0 < mx).
  { destruct mx as [|q|q]; [unfold p in Hp; simpl in Hp; lia|lia|].
    pose proof (Z.div_pos X D HX HD). lia. }
  pose proof (Zdigits2_bounds mx Hpos) as Hdig.
  replace (Zdigits2 mx - 1) with (52 + p) in Hdig by (unfold p; lia).
  replace (Zdigits2 mx) with (53 + p) in Hdig by (unfold p; lia).
  rewrite !Z.pow_add_r in Hdig by lia.
  assert (H2p : 0 < 2 ^ p) by (apply Z.pow_pos_nonneg; lia).
  unfold binary_round_aux, shr_fexp.
  assert (Hf : fexp prec emax (Zdigits2 mx + ex) - ex = p).
  { unfold fexp, emin, prec, emax, p. lia. }
  rewrite Hf.
  assert (Hshr : exists mrs', shr (shr_record_of_loc mx lx) ex p = (mrs', ex + p)
                              /\ represents X (D * 2 ^ p) mrs').
  { destruct p as [|q|q] eqn:Ep; [| |lia].
    - exists (shr_record_of_loc mx lx). split; [cbn [shr]; f_equal; lia|].
      now rewrite Z.pow_0_r, Z.mul_1_r.
    - eexists. split; [reflexivity|]. now apply represents_iter. }
  destruct Hshr as (mrs' & -> & Hrep').
  pose proof (round_nearest X (D * 2 ^ p) mrs' Hrep') as Hround. cbv zeta in Hround.
  set (m2 := round_nearest_even (shr_m mrs') (loc_of_shr_record mrs')) in *.
  assert (Hm1 : 2 ^ 52 <= X / (D * 2 ^ p) < 2 ^ 53).
  { rewrite <- Z.div_div by lia. rewrite <- Hq. split.
    - apply Z.div_le_lower_bound; lia.
    - apply Z.div_lt_upper_bound; lia. }
  destruct Hround as (Hm2 & Hnear & Hexact).
  destruct (Z_lt_le_dec m2 (2 ^ 53)) as [Hlt|Hge].
  - assert (Hd2 : Zdigits2 m2 = 53) by (apply Zdigits2_pos_bounds; simpl; lia).
    assert (Hf2 : fexp prec emax (Zdigits2 m2 + (ex + p)) - (ex + p) = 0).
    { rewrite Hd2. unfold fexp, emin, prec, emax. lia. }
    rewrite Hf2. cbn [shr shr_record_of_loc shr_m].
    destruct m2 as [|q|q] eqn:E2; [lia| |lia].
    assert (Hle : (ex + p <=? emax - prec) = true)
      by (apply Z.leb_le; unfold emax, prec; lia).
    rewrite Hle. exists q, 0. split; [f_equal; lia|].
    split; [lia|]. split; [now left|]. cbv zeta. rewrite Z.pow_0_r, Z.mul_1_r.
    split; [lia|]. split; assumption.
  - assert (E2 : m2 = 2 ^ 53) by lia.
    rewrite E2.
    assert (Hf2 : fexp prec emax (Zdigits2 (2 ^ 53) + (ex + p)) - (ex + p) = 1).
    { change (Zdigits2 (2 ^ 53)) with 54. unfold fexp, emin, prec, emax. lia. }
    rewrite Hf2. change (2 ^ 53) with 9007199254740992.
    cbn [shr iter_pos shr_1 shr_record_of_loc shr_m].
    assert (Hle : (ex + p + 1 <=? emax - prec) = true)
      by (apply Z.leb_le; unfold emax, prec; lia).
    rewrite Hle. exists 4503599627370496%positive, 1. split; [reflexivity|].
    split; [simpl; lia|]. split; [now right|]. cbv zeta.
    change (Z.pos 4503599627370496 * 2 ^ 1) with (2 ^ 53). rewrite <- E2.
    split; [lia|]. split; assumption.
Qed.

(** *** Positive normal doubles and their values

    [normal f m e]: the double [f] is [m * 2 ^ e] with a mantissa of 53
    digits.  Every double is a multiple of [2 ^ -1074]; [scaled m e] is
    the value in units of [2 ^ -1100]. *)
Definition normal (f : float) (m : positive) (e : Z) : Prop :=
  Prim2SF f = S754_finite false m e
  /\ 2 ^ 52 <= Z.pos m < 2 ^ 53 /\ -1074 <= e <= 971.

Definition scaled (m : positive) (e : Z) : Z := Z.pos m * 2 ^ (e + 1100).

Lemma scaled_bounds (m : positive) (e : Z) :
  2 ^ 52 <= Z.pos m < 2 ^ 53 -> -1100 <= e ->
  2 ^ (e + 1152) <= scaled m e < 2 ^ (e + 1153).
Proof.
  intros Hm He. unfold scaled.
  replace (e + 1152) with (52 + (e + 1100)) by lia.
  replace (e + 1153) with (53 + (e + 1100)) by lia.
  rewrite (Z.pow_add_r 2 52), (Z.pow_add_r 2 53) by lia.
  assert (0 < 2 ^ (e + 1100)) by (apply Z.pow_pos_nonneg; lia).
  split; [apply Z.mul_le_mono_nonneg_r; lia|apply Zmult_lt_compat_r; lia].
Qed.

Lemma exact_record (P : positive) :
  represents (Z.pos P) 1 (shr_record_of_loc (Z.pos P) loc_Exact).
Proof.
  unfold represents. cbn [shr_record_of_loc shr_m shr_r shr_s].
  rewrite Z.div_1_r, Z.mod_1_r. repeat split; lia.
Qed.

(** The relative error of a rounding is at most [2 ^ -53]. *)
Lemma relative_error (m2 D' X : Z) :
  2 ^ 52 <= m2 -> 0 < D' -> 2 * Z.abs (m2 * D' - X) <= D' ->
  2 ^ 53 * Z.abs (m2 * D' - X) <= m2 * D'.
Proof. intros Hm HD H. change (2 ^ 53) with (2 ^ 52 * 2). nia. Qed.

Lemma mantissa_with_carry (m : positive) (c : Z) :
  2 ^ 52 <= Z.pos m < 2 ^ 53 -> c = 0 \/ c = 1 -> 2 ^ 52 <= Z.pos m * 2 ^ c.
Proof. intros H [->| ->]; simpl (2 ^ _) in *; lia. Qed.

(** The rounding of [X / D * 2 ^ ex], in units of [2 ^ -s]. *)
Lemma binary_round_aux_value (sx : bool) (mx ex : Z) (lx : location) (X D s : Z) :
  represents X D (shr_record_of_loc mx lx) ->
  let p := Zdigits2 mx - 53 in
  0 <= p -> -1074 <= ex + p <= 970 -> 0 <= ex + s ->
  exists (m : positive) (e : Z),
    binary_round_aux prec emax sx mx ex lx = S754_finite sx m e
    /\ 2 ^ 52 <= Z.pos m < 2 ^ 53
    /\ ex + p <= e <= ex + p + 1
    /\ 2 ^ 53 * Z.abs (Z.pos m * 2 ^ (e + s) * D - X * 2 ^ (ex + s))
       <= Z.pos m * 2 ^ (e + s) * D
    /\ (X mod (D * 2 ^ p) = 0 -> Z.pos m * 2 ^ (e + s) * D = X * 2 ^ (ex + s)).
Proof.
  intros Hrep p Hp He Hs.
  destruct (binary_round_aux_normal sx mx ex lx X D Hrep Hp He)
    as (m & c & Hbra & Hm & Hc & Hval).
  fold p in Hbra, Hval. cbv zeta in Hval. destruct Hval as (Hm2 & Hnear & Hexact).
  assert (HD : 0 < D) by apply Hrep.
  assert (H2p : 0 < 2 ^ p) by (apply Z.pow_pos_nonneg; lia).
  assert (HW : 0 < 2 ^ (ex + s)) by (apply Z.pow_pos_nonneg; lia).
  exists m, (ex + p + c). split; [exact Hbra|]. split; [exact Hm|]. split; [lia|].
  assert (E : Z.pos m * 2 ^ (ex + p + c + s) = Z.pos m * 2 ^ c * 2 ^ p * 2 ^ (ex + s)).
  { replace (ex + p + c + s) with (c + p + (ex + s)) by lia.
    rewrite !Z.pow_add_r by lia. ring. }
  rewrite E.
  set (m2 := Z.pos m * 2 ^ c) in *. set (W := 2 ^ (ex + s)) in *.
  set (D' := D * 2 ^ p) in *.
  assert (Hm2' : 2 ^ 52 <= m2) by (apply mantissa_with_carry; assumption).
  assert (HD' : 0 < D') by (unfold D'; lia).
  pose proof (relative_error m2 D' X Hm2' HD' Hnear) as Hrel.
  replace (m2 * 2 ^ p * W * D - X * W) with ((m2 * D' - X) * W) by (unfold D'; ring).
  replace (m2 * 2 ^ p * W * D) with (m2 * D' * W) by (unfold D'; ring).
  split.
  - rewrite Z.abs_mul, (Z.abs_eq W) by lia.
    rewrite Z.mul_assoc. apply Z.mul_le_mono_nonneg_r; lia.
  - intros Hmod. specialize (Hexact Hmod).
    pose proof (Z.div_mod X D' ltac:(lia)) as Hdm. rewrite Hmod in Hdm.
    rewrite Hexact. nia.
Qed.

(** Multiplication. *)
Lemma SFmul_normal (mx my : positive) (ex ey : Z) :
  2 ^ 52 <= Z.pos mx < 2 ^ 53 -> 2 ^ 52 <= Z.pos my < 2 ^ 53 ->
  -1074 <= ex -> -1074 <= ey -> -1126 <= ex + ey <= 917 ->
  exists (m : positive) (e : Z),
    SFmul prec emax (S754_finite false mx ex) (S754_finite false my ey)
    = S754_finite false m e
    /\ 2 ^ 52 <= Z.pos m < 2 ^ 53 /\ ex + ey + 52 <= e <= ex + ey + 54
    /\ 2 ^ 53 * Z.abs (scaled m e * 2 ^ 1100 - scaled mx ex * scaled my ey)
       <= scaled m e * 2 ^ 1100.
Proof.
  intros Hx Hy Hex Hey He. cbn [SFmul xorb].
  assert (Hprod : 2 ^ 104 <= Z.pos (mx * my) < 2 ^ 106).
  { rewrite Pos2Z.inj_mul. change (2 ^ 104) with (2 ^ 52 * 2 ^ 52).
    change (2 ^ 106) with (2 ^ 53 * 2 ^ 53). split.
    - apply Z.mul_le_mono_nonneg; lia.
    - apply Z.mul_lt_mono_nonneg; lia. }
  assert (Hd : 105 <= Zdigits2 (Z.pos (mx * my)) <= 106).
  { pose proof (Zdigits2_bounds (Z.pos (mx * my)) ltac:(lia)) as Hb.
    destruct (Z_lt_le_dec (Zdigits2 (Z.pos (mx * my))) 105) as [H|H].
    - assert (2 ^ Zdigits2 (Z.pos (mx * my)) <= 2 ^ 104)
        by (apply Z.pow_le_mono_r; lia). lia.
    - destruct (Z_lt_le_dec 106 (Zdigits2 (Z.pos (mx * my)))) as [H'|H']; [|lia].
      assert (2 ^ 106 <= 2 ^ (Zdigits2 (Z.pos (mx * my)) - 1))
        by (apply Z.pow_le_mono_r; lia). lia. }
  destruct (binary_round_aux_value false (Z.pos (mx * my)) (ex + ey) loc_Exact
              (Z.pos (mx * my)) 1 2200 (exact_record (mx * my))
              ltac:(lia) ltac:(lia) ltac:(lia))
    as (m & e & Hbra & Hm & Hrange & Hrel & _).
  exists m, e. split; [exact Hbra|]. split; [exact Hm|]. split; [lia|].
  unfold scaled.
  replace (Z.pos m * 2 ^ (e + 1100) * 2 ^ 1100) with (Z.pos m * 2 ^ (e + 2200) * 1).
  2:{ replace (e + 2200) with (e + 1100 + 1100) by lia.
      rewrite (Z.pow_add_r 2 (e + 1100)) by lia. ring. }
  replace (Z.pos mx * 2 ^ (ex + 1100) * (Z.pos my * 2 ^ (ey + 1100)))
    with (Z.pos (mx * my) * 2 ^ (ex + ey + 2200)); [exact Hrel|].
  replace (ex + ey + 2200) with (ex + 1100 + (ey + 1100)) by lia.
  rewrite Z.pow_add_r, Pos2Z.inj_mul by lia. ring.
Qed.

(** Two normal mantissas with the same value have the same exponent. *)
Lemma canonical_unique (m m' : positive) (a b : Z) :
  2 ^ 52 <= Z.pos m < 2 ^ 53 -> 2 ^ 52 <= Z.pos m' < 2 ^ 53 ->
  0 <= a -> 0 <= b ->
  Z.pos m * 2 ^ a = Z.pos m' * 2 ^ b -> m = m' /\ a = b.
Proof.
  assert (Hlt : forall (m m' : positive) a b,
            2 ^ 52 <= Z.pos m < 2 ^ 53 -> 2 ^ 52 <= Z.pos m' < 2 ^ 53 ->
            0 <= a -> a < b -> Z.pos m * 2 ^ a <> Z.pos m' * 2 ^ b).
  { intros n n' u v Hn Hn' Hu Huv E.
    replace v with (u + 1 + (v - u - 1)) in E by lia.
    rewrite !Z.pow_add_r in E by lia. change (2 ^ 1) with 2 in E.
    assert (0 < 2 ^ u) by (apply Z.pow_pos_nonneg; lia).
    assert (0 < 2 ^ (v - u - 1)) by (apply Z.pow_pos_nonneg; lia).
    assert (Z.pos n = Z.pos n' * 2 * 2 ^ (v - u - 1)) by nia.
    change (2 ^ 53) with (2 ^ 52 * 2) in *. nia. }
  intros Hm Hm' Ha Hb E.
  destruct (Z.lt_trichotomy a b) as [H|[H|H]].
  - now elim (Hlt m m' a b).
  - subst b. split; [|reflexivity].
    assert (0 < 2 ^ a) by (apply Z.pow_pos_nonneg; lia).
    apply Pos2Z.inj. nia.
  - symmetry in E. now elim (Hlt m' m b a).
Qed.

Lemma shl_align_spec (mx : positive) (ex ex' : Z) :
  ex' <= ex ->
  Z.pos (fst (shl_align mx ex ex')) = Z.pos mx * 2 ^ (ex - ex')
  /\ snd (shl_align mx ex ex') = ex'.
Proof.
  intros H. unfold shl_align.
  destruct (ex' - ex) as [|d|d] eqn:E; try lia.
  - cbn [fst snd]. replace (ex - ex') with 0 by lia. rewrite Z.pow_0_r. lia.
  - cbn [fst snd]. split; [|reflexivity].
    change (Pos.iter xO mx d) with (shift_pos d mx).
    rewrite shift_pos_correct, Zpower_pos_nat, Zpower_nat_Z.
    rewrite positive_nat_Z. replace (ex - ex') with (Z.pos d) by lia. ring.
Qed.

(** A multiple of a power of two that denotes a value of at most 53 digits
    loses nothing when its mantissa is cut to 53 digits. *)
Lemma exact_divides (M N u v p : Z) :
  0 <= u -> 0 <= v -> 0 <= p -> 0 < N < 2 ^ 53 ->
  2 ^ (52 + p) <= M -> M * 2 ^ u = N * 2 ^ v -> M mod 2 ^ p = 0.
Proof.
  intros Hu Hv Hp HN HM E.
  assert (H2u : 0 < 2 ^ u) by (apply Z.pow_pos_nonneg; lia).
  assert (H2p : 0 < 2 ^ p) by (apply Z.pow_pos_nonneg; lia).
  rewrite Z.pow_add_r in HM by lia.
  destruct (Z_lt_le_dec v (u + p)) as [Hlt|Hge].
  - exfalso.
    assert (N * 2 ^ v < 2 ^ 53 * 2 ^ v)
      by (apply Zmult_lt_compat_r; [apply Z.pow_pos_nonneg|]; lia).
    assert (2 ^ 53 * 2 ^ v <= 2 ^ 52 * 2 ^ (u + p)).
    { change (2 ^ 53) with (2 ^ 52 * 2 ^ 1). rewrite <- Z.mul_assoc, <- Z.pow_add_r by lia.
      apply Z.mul_le_mono_nonneg_l; [lia|]. apply Z.pow_le_mono_r; lia. }
    rewrite Z.pow_add_r in * by lia. nia.
  - replace v with (u + p + (v - u - p)) in E by lia.
    rewrite !Z.pow_add_r in E by lia.
    assert (M = N * 2 ^ (v - u - p) * 2 ^ p) by nia.
    subst M. apply Z.mod_mul. lia.
Qed.

(** [binary_round] on a value that fits in 53 digits. *)
Lemma binary_round_exact (P : positive) (ex N v : Z) :
  0 <= v -> 0 < N < 2 ^ 53 -> -1100 <= ex ->
  Z.pos P * 2 ^ (ex + 1100) = N * 2 ^ v ->
  -1074 <= Zdigits2 (Z.pos P) + ex - 53 <= 970 ->
  exists (m : positive) (e : Z),
    binary_round prec emax false P ex = S754_finite false m e
    /\ 2 ^ 52 <= Z.pos m < 2 ^ 53 /\ -1074 <= e <= 971
    /\ scaled m e = Z.pos P * 2 ^ (ex + 1100).
Proof.
  intros Hv HN Hex Eval Hrange. unfold binary_round.
  cbn [Zdigits2] in Hrange. set (d := Z.pos (digits2_pos P)) in *.
  assert (Hf : fexp prec emax (d + ex) = d + ex - 53)
    by (unfold fexp, emin, prec, emax; lia).
  rewrite Hf.
  pose proof (digits2_bounds P) as Hd. fold d in Hd.
  destruct (Z_lt_le_dec d 53) as [Hlt|Hge].
  - pose proof (shl_align_spec P ex (d + ex - 53) ltac:(lia)) as [Hm1 He1].
    destruct (shl_align P ex (d + ex - 53)) as [mz ez]. cbn [fst snd] in Hm1, He1.
    subst ez. replace (ex - (d + ex - 53)) with (53 - d) in Hm1 by lia.
    assert (Hmz : 2 ^ 52 <= Z.pos mz < 2 ^ 53).
    { rewrite Hm1.
      assert (E52 : 2 ^ 52 = 2 ^ (d - 1) * 2 ^ (53 - d))
        by (rewrite <- Z.pow_add_r by lia; f_equal; lia).
      assert (E53 : 2 ^ 53 = 2 ^ d * 2 ^ (53 - d))
        by (rewrite <- Z.pow_add_r by lia; f_equal; lia).
      rewrite E52, E53.
      assert (0 < 2 ^ (53 - d)) by (apply Z.pow_pos_nonneg; lia).
      split; [apply Z.mul_le_mono_nonneg_r; lia|apply Zmult_lt_compat_r; lia]. }
    assert (Hdz : Zdigits2 (Z.pos mz) = 53) by (apply Zdigits2_pos_bounds; simpl; lia).
    destruct (binary_round_aux_value false (Z.pos mz) (d + ex - 53) loc_Exact
                (Z.pos mz) 1 1100 (exact_record mz)
                ltac:(rewrite Hdz; lia) ltac:(rewrite Hdz; lia) ltac:(lia))
      as (m & e & Hbra & Hm & He & _ & Hexact).
    rewrite Hdz in He, Hexact. rewrite Z.pow_0_r, Z.mul_1_r, Z.mod_1_r in Hexact.
    specialize (Hexact eq_refl). rewrite Z.mul_1_r in Hexact.
    destruct (canonical_unique m mz (e + 1100) (d + ex - 53 + 1100) Hm Hmz
                ltac:(lia) ltac:(lia) Hexact) as [-> He'].
    exists mz, e. split; [exact Hbra|]. split; [exact Hmz|]. split; [lia|].
    unfold scaled. rewrite Hexact, Hm1.
    rewrite <- Z.mul_assoc, <- Z.pow_add_r by lia. do 2 f_equal. lia.
  - assert (Hsh : shl_align P ex (d + ex - 53) = (P, ex)).
    { unfold shl_align. destruct (d + ex - 53 - ex) eqn:E; try reflexivity; lia. }
    rewrite Hsh.
    assert (Hlow : 2 ^ (52 + (d - 53)) <= Z.pos P)
      by (replace (52 + (d - 53)) with (d - 1) by lia; apply Hd).
    pose proof (exact_divides (Z.pos P) N (ex + 1100) v (d - 53)
                  ltac:(lia) Hv ltac:(lia) HN Hlow Eval) as Hdiv.
    destruct (binary_round_aux_value false (Z.pos P) ex loc_Exact
                (Z.pos P) 1 1100 (exact_record P)
                ltac:(cbn [Zdigits2]; fold d; lia) ltac:(cbn [Zdigits2]; fold d; lia)
                ltac:(lia))
      as (m & e & Hbra & Hm & He & _ & Hexact).
    cbn [Zdigits2] in He, Hexact. fold d in He, Hexact.
    rewrite Z.mul_1_l in Hexact. specialize (Hexact Hdiv). rewrite Z.mul_1_r in Hexact.
    exists m, e. split; [exact Hbra|]. split; [exact Hm|]. split; [lia|].
    exact Hexact.
Qed.

Lemma Zdigits2_between (z a b : Z) :
  0 <= a -> 2 ^ a <= z < 2 ^ b -> a + 1 <= Zdigits2 z <= b.
Proof.
  intros Ha [Hlo Hhi].
  assert (Hz : 0 < z) by (pose proof (Z.pow_pos_nonneg 2 a); lia).
  pose proof (Zdigits2_bounds z Hz) as [Hl Hh].
  split.
  - destruct (Z_lt_le_dec (Zdigits2 z) (a + 1)) as [H|H]; [|lia].
    assert (2 ^ Zdigits2 z <= 2 ^ a) by (apply Z.pow_le_mono_r; lia). lia.
  - destruct (Z_lt_le_dec b (Zdigits2 z)) as [H|H]; [|lia].
    destruct (Z_lt_le_dec b 0) as [Hb|Hb].
    + rewrite Z.pow_neg_r in Hhi by lia. lia.
    + assert (2 ^ b <= 2 ^ (Zdigits2 z - 1)) by (apply Z.pow_le_mono_r; lia). lia.
Qed.

(** Addition of two positive doubles whose sum fits in 53 digits. *)
Lemma SFadd_exact (mx my : positive) (ex ey N v : Z) :
  2 ^ 52 <= Z.pos mx < 2 ^ 53 -> 2 ^ 52 <= Z.pos my < 2 ^ 53 ->
  -1074 <= ex <= 968 -> -1074 <= ey <= 968 ->
  0 <= v -> 0 < N < 2 ^ 53 ->
  scaled mx ex + scaled my ey = N * 2 ^ v ->
  exists (m : positive) (e : Z),
    SFadd prec emax (S754_finite false mx ex) (S754_finite false my ey)
    = S754_finite false m e
    /\ 2 ^ 52 <= Z.pos m < 2 ^ 53 /\ -1074 <= e <= 971
    /\ scaled m e = scaled mx ex + scaled my ey.
Proof.
  intros Hx Hy Hex Hey Hv HN Eval. cbn [SFadd cond_Zopp].
  set (ez := Z.min ex ey).
  destruct (shl_align_spec mx ex ez ltac:(unfold ez; lia)) as [Hax _].
  destruct (shl_align_spec my ey ez ltac:(unfold ez; lia)) as [Hay _].
  set (ax := fst (shl_align mx ex ez)) in *. set (ay := fst (shl_align my ey ez)) in *.
  change (Z.pos ax + Z.pos ay) with (Z.pos (ax + ay)). cbn [binary_normalize].
  assert (HM : Z.pos (ax + ay) * 2 ^ (ez + 1100) = scaled mx ex + scaled my ey).
  { rewrite Pos2Z.inj_add, Hax, Hay, Z.mul_add_distr_r. unfold scaled.
    rewrite <- !Z.mul_assoc, <- !Z.pow_add_r by (unfold ez; lia).
    replace (ex - ez + (ez + 1100)) with (ex + 1100) by lia.
    replace (ey - ez + (ez + 1100)) with (ey + 1100) by lia. reflexivity. }
  assert (Hdig : Z.max ex ey - ez + 53 <= Zdigits2 (Z.pos (ax + ay))
                 <= Z.max ex ey - ez + 54).
  { assert (0 < 2 ^ (ex - ez)) by (apply Z.pow_pos_nonneg; unfold ez; lia).
    assert (0 < 2 ^ (ey - ez)) by (apply Z.pow_pos_nonneg; unfold ez; lia).
    assert (Hmax : 2 ^ (Z.max ex ey - ez) = Z.max (2 ^ (ex - ez)) (2 ^ (ey - ez))).
    { destruct (Z_le_gt_dec ex ey) as [Hle|Hgt].
      - rewrite (Z.max_r ex ey) by lia. rewrite Z.max_r; [reflexivity|].
        apply Z.pow_le_mono_r; unfold ez; lia.
      - rewrite (Z.max_l ex ey) by lia. rewrite Z.max_l; [reflexivity|].
        apply Z.pow_le_mono_r; unfold ez; lia. }
    pose proof (Zdigits2_between (Z.pos (ax + ay)) (Z.max ex ey - ez + 52)
                  (Z.max ex ey - ez + 54) ltac:(unfold ez; lia)) as Hb.
    assert (Hbounds : 2 ^ (Z.max ex ey - ez + 52) <= Z.pos (ax + ay)
                      < 2 ^ (Z.max ex ey - ez + 54)).
    { rewrite !Z.pow_add_r by (unfold ez; lia). rewrite Hmax.
      rewrite Pos2Z.inj_add, Hax, Hay.
      change (2 ^ 54) with (2 ^ 53 * 2).
      set (u := 2 ^ (ex - ez)) in *. set (w := 2 ^ (ey - ez)) in *.
      destruct (Z.max_spec u w) as [[? ->]|[? ->]]; nia. }
    specialize (Hb Hbounds). lia. }
  destruct (binary_round_exact (ax + ay) ez N v Hv HN ltac:(unfold ez; lia)
              ltac:(rewrite HM; exact Eval) ltac:(unfold ez in *; lia))
    as (m & e & Hbr & Hm & He & Hs).
  exists m, e. split; [exact Hbr|]. split; [exact Hm|]. split; [exact He|].
  rewrite Hs. exact HM.
Qed.

(** Multiplication by the literal 0.5, whose mantissa is [2 ^ 52]. *)
Lemma SFmul_half (mx : positive) (ex : Z) :
  2 ^ 52 <= Z.pos mx < 2 ^ 53 -> -1073 <= ex <= 971 ->
  SFmul prec emax (S754_finite false mx ex) (S754_finite false 4503599627370496 (-53))
  = S754_finite false mx (ex - 1).
Proof.
  intros Hx Hex. cbn [SFmul xorb].
  assert (Hprod : Z.pos (mx * 4503599627370496) = Z.pos mx * 2 ^ 52)
    by (rewrite Pos2Z.inj_mul; reflexivity).
  assert (Hd : Zdigits2 (Z.pos (mx * 4503599627370496)) = 105).
  { apply Zdigits2_pos_bounds; [|lia]. rewrite Hprod.
    change (2 ^ (105 - 1)) with (2 ^ 52 * 2 ^ 52). change (2 ^ 105) with (2 ^ 53 * 2 ^ 52).
    lia. }
  destruct (binary_round_aux_value false (Z.pos (mx * 4503599627370496)) (ex + -53)
              loc_Exact (Z.pos (mx * 4503599627370496)) 1 1200
              (exact_record (mx * 4503599627370496))
              ltac:(rewrite Hd; lia) ltac:(rewrite Hd; lia) ltac:(lia))
    as (m & e & Hbra & Hm & He & _ & Hexact).
  rewrite Hd in He, Hexact. rewrite Hbra.
  rewrite Z.mul_1_l, Hprod in Hexact. change (105 - 53) with 52 in Hexact.
  rewrite Z.mod_mul in Hexact by lia. specialize (Hexact eq_refl).
  rewrite Z.mul_1_r in Hexact.
  assert (E : Z.pos mx * 2 ^ 52 * 2 ^ (ex + -53 + 1200) = Z.pos mx * 2 ^ (ex - 1 + 1200)).
  { rewrite <- Z.mul_assoc, <- Z.pow_add_r by lia. do 2 f_equal. lia. }
  rewrite E in Hexact.
  destruct (canonical_unique m mx (e + 1200) (ex - 1 + 1200) Hm Hx
              ltac:(lia) ltac:(lia) Hexact) as [-> He'].
  f_equal. lia.
Qed.

(** The location of a remainder [r] of a division by [d]. *)
Lemma division_record (X d : Z) :
  0 <= X -> 0 < d ->
  represents X d (shr_record_of_loc (X / d) (new_location d (X mod d))).
Proof.
  intros HX Hd. pose proof (Z.mod_pos_bound X d Hd) as Hr.
  set (r := X mod d) in *.
  assert (Hloc : new_location d r
                 = if (r =? 0) then loc_Exact
                   else loc_Inexact (Z.compare (2 * r) d)).
  { unfold new_location, new_location_even, new_location_odd.
    destruct (Z.even d) eqn:Ev; [reflexivity|].
    destruct (r =? 0); [reflexivity|]. f_equal.
    assert (Hodd : Z.odd d = true) by (rewrite <- Z.negb_even, Ev; reflexivity).
    apply Z.odd_spec in Hodd. destruct Hodd as [h Hh].
    destruct (Z.compare_spec (2 * r + 1) d), (Z.compare_spec (2 * r) d);
      try reflexivity; lia. }
  rewrite Hloc. unfold represents.
  destruct (Z.eqb_spec r 0) as [E0|N0].
  - cbn [shr_record_of_loc shr_m shr_r shr_s]. fold r. rewrite E0.
    repeat split; try lia; zbool.
  - destruct (Z.compare_spec (2 * r) d); cbn [shr_record_of_loc shr_m shr_r shr_s];
      fold r; (split; [lia|]); (split; [lia|]); (split; [reflexivity|]); split; zbool.
Qed.

(** Division. *)
Lemma SFdiv_normal (mx my : positive) (ex ey : Z) :
  2 ^ 52 <= Z.pos mx < 2 ^ 53 -> 2 ^ 52 <= Z.pos my < 2 ^ 53 ->
  -1074 <= ex -> -1074 <= ey -> -1021 <= ex - ey <= 1022 ->
  exists (m : positive) (e : Z),
    SFdiv prec emax (S754_finite false mx ex) (S754_finite false my ey)
    = S754_finite false m e
    /\ 2 ^ 52 <= Z.pos m < 2 ^ 53 /\ ex - ey - 53 <= e <= ex - ey - 51
    /\ 2 ^ 53 * Z.abs (scaled m e * scaled my ey - scaled mx ex * 2 ^ 1100)
       <= scaled m e * scaled my ey.
Proof.
  intros Hx Hy Hex Hey He. cbn [SFdiv xorb]. unfold SFdiv_core_binary.
  assert (Hdx : Zdigits2 (Z.pos mx) = 53) by (apply Zdigits2_pos_bounds; simpl; lia).
  assert (Hdy : Zdigits2 (Z.pos my) = 53) by (apply Zdigits2_pos_bounds; simpl; lia).
  rewrite Hdx, Hdy.
  assert (He' : Z.min (fexp prec emax (53 + ex - (53 + ey))) (ex - ey) = ex - ey - 53)
    by (unfold fexp, emin, prec, emax; lia).
  rewrite He'. replace (ex - ey - (ex - ey - 53)) with 53 by lia.
  rewrite Z.shiftl_mul_pow2 by lia.
  set (X := Z.pos mx * 2 ^ 53).
  assert (Hqr : Z.div_eucl X (Z.pos my) = (X / Z.pos my, X mod Z.pos my)).
  { unfold Z.div, Z.modulo. now destruct (Z.div_eucl X (Z.pos my)). }
  rewrite Hqr.
  assert (HX : 0 <= X) by (unfold X; lia).
  pose proof (division_record X (Z.pos my) HX ltac:(lia)) as Hrep.
  assert (Hq : 2 ^ 52 <= X / Z.pos my < 2 ^ 54).
  { split.
    - apply Z.div_le_lower_bound; [lia|]. unfold X.
      change (2 ^ 53) with (2 ^ 1 * 2 ^ 52). nia.
    - apply Z.div_lt_upper_bound; [lia|]. unfold X.
      change (2 ^ 54) with (2 ^ 53 * 2). change (2 ^ 53) with (2 ^ 52 * 2) in *. nia. }
  pose proof (Zdigits2_between (X / Z.pos my) 52 54 ltac:(lia) Hq) as Hdq.
  destruct (binary_round_aux_value false (X / Z.pos my) (ex - ey - 53)
              (new_location (Z.pos my) (X mod Z.pos my)) X (Z.pos my) 1100 Hrep
              ltac:(lia) ltac:(lia) ltac:(lia))
    as (m & e & Hbra & Hm & Hrange & Hrel & _).
  exists m, e. split; [exact Hbra|]. split; [exact Hm|]. split; [lia|].
  unfold scaled.
  assert (HW : 0 < 2 ^ (ey + 1100)) by (apply Z.pow_pos_nonneg; lia).
  replace (Z.pos m * 2 ^ (e + 1100) * (Z.pos my * 2 ^ (ey + 1100))
           - Z.pos mx * 2 ^ (ex + 1100) * 2 ^ 1100)
    with ((Z.pos m * 2 ^ (e + 1100) * Z.pos my - X * 2 ^ (ex - ey - 53 + 1100))
          * 2 ^ (ey + 1100)).
  2:{ unfold X. rewrite Z.mul_sub_distr_r. f_equal; [ring|].
      rewrite <- !Z.mul_assoc. f_equal. rewrite <- !Z.pow_add_r by lia. f_equal. lia. }
  rewrite Z.abs_mul, (Z.abs_eq (2 ^ (ey + 1100))) by lia.
  replace (Z.pos m * 2 ^ (e + 1100) * (Z.pos my * 2 ^ (ey + 1100)))
    with (Z.pos m * 2 ^ (e + 1100) * Z.pos my * 2 ^ (ey + 1100)) by ring.
  rewrite Z.mul_assoc. apply Z.mul_le_mono_nonneg_r; [lia|exact Hrel].
Qed.

(** The order of two positive normal doubles is that of their values. *)
Lemma SFcompare_normal (mx my : positive) (ex ey : Z) :
  2 ^ 52 <= Z.pos mx < 2 ^ 53 -> 2 ^ 52 <= Z.pos my < 2 ^ 53 ->
  -1100 <= ex -> -1100 <= ey ->
  SFcompare (S754_finite false mx ex) (S754_finite false my ey)
  = Some (Z.compare (scaled mx ex) (scaled my ey)).
Proof.
  intros Hx Hy Hex Hey. cbn [SFcompare]. f_equal.
  pose proof (scaled_bounds mx ex Hx Hex) as Hbx.
  pose proof (scaled_bounds my ey Hy Hey) as Hby.
  destruct (Z.compare_spec ex ey) as [E|L|G].
  - subst ey. change (Pos.compare_cont Eq mx my) with (Z.compare (Z.pos mx) (Z.pos my)).
    unfold scaled.
    assert (0 < 2 ^ (ex + 1100)) by (apply Z.pow_pos_nonneg; lia).
    destruct (Z.compare_spec (Z.pos mx) (Z.pos my)) as [E|L|G]; symmetry.
    + apply Z.compare_eq_iff. congruence.
    + apply Z.compare_lt_iff. apply Zmult_lt_compat_r; lia.
    + apply Z.compare_gt_iff. apply Zmult_lt_compat_r; lia.
  - symmetry. apply Z.compare_lt_iff.
    assert (2 ^ (ex + 1153) <= 2 ^ (ey + 1152)) by (apply Z.pow_le_mono_r; lia). lia.
  - symmetry. apply Z.compare_gt_iff.
    assert (2 ^ (ey + 1153) <= 2 ^ (ex + 1152)) by (apply Z.pow_le_mono_r; lia). lia.
Qed.

(** *** The operations on doubles *)

Lemma exponent_of_scaled (m : positive) (e a b : Z) :
  2 ^ 52 <= Z.pos m < 2 ^ 53 -> -1100 <= e -> 0 <= a ->
  2 ^ a <= scaled m e < 2 ^ b -> a - 1152 <= e <= b - 1153.
Proof.
  intros Hm He Ha [Hlo Hhi]. pose proof (scaled_bounds m e Hm He) as [Hl Hh].
  split.
  - destruct (Z_lt_le_dec e (a - 1152)) as [H|H]; [|lia].
    assert (2 ^ (e + 1153) <= 2 ^ a) by (apply Z.pow_le_mono_r; lia). lia.
  - destruct (Z_lt_le_dec (b - 1153) e) as [H|H]; [|lia].
    destruct (Z_lt_le_dec b 0) as [Hb|Hb].
    + rewrite Z.pow_neg_r in Hhi by lia. lia.
    + assert (2 ^ b <= 2 ^ (e + 1152)) by (apply Z.pow_le_mono_r; lia). lia.
Qed.

Lemma normal_unique (x y : float) (m m' : positive) (e e' : Z) :
  normal x m e -> normal y m' e' -> scaled m e = scaled m' e' -> x = y.
Proof.
  intros (Hx & Hm & He) (Hy & Hm' & He') E. unfold scaled in E.
  destruct (canonical_unique m m' (e + 1100) (e' + 1100) Hm Hm' ltac:(lia) ltac:(lia) E)
    as [-> E'].
  apply Prim2SF_inj. rewrite Hx, Hy. f_equal. lia.
Qed.

(** An integer of at most 53 digits is a double. *)
Lemma of_Z_normal (k : Z) :
  0 < k < 2 ^ 53 ->
  exists (m : positive) (e : Z),
    normal (of_Z k) m e /\ scaled m e = k * 2 ^ 1100 /\ -52 <= e <= 0.
Proof.
  intros Hk. unfold of_Z.
  assert (Habs : (Z.abs k <? 4611686018427387904) = true)
    by (apply Z.ltb_lt; change (2 ^ 53) with 9007199254740992 in Hk; lia).
  assert (Hneg : (k <? 0) = false) by (apply Z.ltb_ge; lia).
  rewrite Habs, Hneg.
  assert (Hphi : Uint63.to_Z (Uint63.of_Z k) = k).
  { rewrite Uint63.of_Z_spec. apply Z.mod_small.
    change (2 ^ 53) with 9007199254740992 in Hk.
    change Uint63.wB with 9223372036854775808. lia. }
  pose proof (of_uint63_spec (Uint63.of_Z k)) as Hspec. rewrite Hphi in Hspec.
  destruct k as [|P|P]; try lia. cbn [binary_normalize] in Hspec.
  pose proof (Zdigits2_between (Z.pos P) 0 53 ltac:(lia) ltac:(simpl (2 ^ 0); lia)) as Hd.
  destruct (binary_round_exact P 0 (Z.pos P) 1100 ltac:(lia) Hk ltac:(lia)
              eq_refl ltac:(lia))
    as (m & e & Hbr & Hm & He & Hs).
  exists m, e. change (0 + 1100) with 1100 in Hs.
  assert (Hexp : 1100 - 1152 <= e <= 1153 - 1153).
  { apply (exponent_of_scaled m e 1100 1153 Hm ltac:(lia) ltac:(lia)).
    rewrite Hs. change (2 ^ 1153) with (2 ^ 53 * 2 ^ 1100).
    assert (0 < 2 ^ 1100) by (apply Z.pow_pos_nonneg; lia).
    split; [|apply Zmult_lt_compat_r; lia].
    replace (2 ^ 1100) with (1 * 2 ^ 1100) at 1 by lia.
    apply Z.mul_le_mono_nonneg_r; lia. }
  split; [|split; [exact Hs|lia]].
  split; [rewrite Hspec; exact Hbr|]. split; [exact Hm|lia].
Qed.

Lemma of_Z_zero : of_Z 0 = 0%float.
Proof. reflexivity. Qed.

Lemma mul_normal (x y : float) (mx my : positive) (ex ey : Z) :
  normal x mx ex -> normal y my ey -> -1126 <= ex + ey <= 917 ->
  exists (m : positive) (e : Z),
    normal (x * y)%float m e
    /\ ex + ey + 52 <= e <= ex + ey + 54
    /\ 2 ^ 53 * Z.abs (scaled m e * 2 ^ 1100 - scaled mx ex * scaled my ey)
       <= scaled m e * 2 ^ 1100.
Proof.
  intros (Hx & Hmx & Hex) (Hy & Hmy & Hey) He.
  destruct (SFmul_normal mx my ex ey Hmx Hmy ltac:(lia) ltac:(lia) He)
    as (m & e & Hmul & Hm & Hrange & Hrel).
  exists m, e. split; [|split; [exact Hrange|exact Hrel]].
  split; [|split; [exact Hm|lia]].
  rewrite FloatAxioms.mul_spec, Hx, Hy. exact Hmul.
Qed.

Lemma mul_half (x : float) (m : positive) (e : Z) :
  normal x m e -> -1073 <= e -> normal (x * 0.5)%float m (e - 1).
Proof.
  intros (Hx & Hm & He) Hlow. split; [|split; [exact Hm|lia]].
  rewrite FloatAxioms.mul_spec, Hx.
  change (Prim2SF 0.5%float) with (S754_finite false 4503599627370496 (-53)).
  apply SFmul_half; [exact Hm|lia].
Qed.

Lemma div_normal (x y : float) (mx my : positive) (ex ey : Z) :
  normal x mx ex -> normal y my ey -> -1021 <= ex - ey <= 1022 ->
  exists (m : positive) (e : Z),
    normal (x / y)%float m e
    /\ ex - ey - 53 <= e <= ex - ey - 51
    /\ 2 ^ 53 * Z.abs (scaled m e * scaled my ey - scaled mx ex * 2 ^ 1100)
       <= scaled m e * scaled my ey.
Proof.
  intros (Hx & Hmx & Hex) (Hy & Hmy & Hey) He.
  destruct (SFdiv_normal mx my ex ey Hmx Hmy ltac:(lia) ltac:(lia) He)
    as (m & e & Hdiv & Hm & Hrange & Hrel).
  exists m, e. split; [|split; [exact Hrange|exact Hrel]].
  split; [|split; [exact Hm|lia]].
  rewrite FloatAxioms.div_spec, Hx, Hy. exact Hdiv.
Qed.

Lemma add_exact (x y : float) (mx my : positive) (ex ey N v : Z) :
  normal x mx ex -> normal y my ey -> ex <= 968 -> ey <= 968 ->
  0 <= v -> 0 < N < 2 ^ 53 ->
  scaled mx ex + scaled my ey = N * 2 ^ v ->
  exists (m : positive) (e : Z),
    normal (x + y)%float m e /\ scaled m e = scaled mx ex + scaled my ey.
Proof.
  intros (Hx & Hmx & Hex) (Hy & Hmy & Hey) Hux Huy Hv HN E.
  destruct (SFadd_exact mx my ex ey N v Hmx Hmy ltac:(lia) ltac:(lia) Hv HN E)
    as (m & e & Hadd & Hm & He & Hs).
  exists m, e. split; [|exact Hs]. split; [|split; [exact Hm|exact He]].
  rewrite FloatAxioms.add_spec, Hx, Hy. exact Hadd.
Qed.

(** Comparisons of positive normal doubles. *)
Lemma ltb_normal (x y : float) (mx my : positive) (ex ey : Z) :
  normal x mx ex -> normal y my ey ->
  PrimFloat.ltb x y = (scaled mx ex <? scaled my ey).
Proof.
  intros (Hx & Hmx & Hex) (Hy & Hmy & Hey).
  rewrite FloatAxioms.ltb_spec, Hx, Hy. unfold SFltb.
  rewrite (SFcompare_normal mx my ex ey Hmx Hmy ltac:(lia) ltac:(lia)).
  unfold Z.ltb. now destruct (scaled mx ex ?= scaled my ey).
Qed.

Lemma is_nan_normal (x : float) (m : positive) (e : Z) :
  normal x m e -> PrimFloat.is_nan x = false.
Proof.
  intros (Hx & Hm & He). unfold PrimFloat.is_nan.
  rewrite FloatAxioms.eqb_spec, Hx. unfold SFeqb.
  rewrite (SFcompare_normal m m e e Hm Hm ltac:(lia) ltac:(lia)).
  now rewrite Z.compare_refl.
Qed.

Lemma get_sign_normal (x : float) (m : positive) (e : Z) :
  normal x m e -> PrimFloat.get_sign x = false.
Proof.
  intros (Hx & Hm & He). unfold PrimFloat.get_sign, PrimFloat.is_zero.
  rewrite FloatAxioms.eqb_spec, Hx.
  change (Prim2SF PrimFloat.zero) with (S754_zero false). cbn [SFeqb SFcompare].
  rewrite FloatAxioms.ltb_spec, Hx.
  change (Prim2SF PrimFloat.zero) with (S754_zero false). reflexivity.
Qed.

Lemma Math_max_zero (x : float) (m : positive) (e : Z) :
  normal x m e -> Math_max x 0%float = x.
Proof.
  intros H. unfold Math_max. rewrite (is_nan_normal x m e H).
  change (PrimFloat.is_nan 0) with false.
  destruct H as (Hx & Hm & He).
  rewrite !FloatAxioms.ltb_spec, Hx.
  change (Prim2SF 0%float) with (S754_zero false). reflexivity.
Qed.

Lemma Math_min_normal (x y : float) (mx my : positive) (ex ey : Z) :
  normal x mx ex -> normal y my ey ->
  exists (m : positive) (e : Z),
    normal (Math_min x y) m e /\ scaled m e = Z.min (scaled mx ex) (scaled my ey).
Proof.
  intros Hx Hy. unfold Math_min.
  rewrite (is_nan_normal x mx ex Hx), (is_nan_normal y my ey Hy).
  rewrite (ltb_normal y x my mx ey ex Hy Hx), (ltb_normal x y mx my ex ey Hx Hy).
  rewrite (get_sign_normal x mx ex Hx).
  destruct (Z.ltb_spec (scaled my ey) (scaled mx ex)) as [H|H].
  - exists my, ey. split; [exact Hy|lia].
  - destruct (Z.ltb_spec (scaled mx ex) (scaled my ey)) as [H'|H'].
    + exists mx, ex. split; [exact Hx|lia].
    + exists my, ey. split; [exact Hy|lia].
Qed.

(** [Math.round] below [2 ^ 52]: the floor of the value plus one half. *)
Lemma Math_round_normal (x : float) (m : positive) (e : Z) :
  normal x m e -> e < 0 ->
  Math_round x = of_Z ((scaled m e + 2 ^ 1099) / 2 ^ 1100).
Proof.
  intros (Hx & Hm & He) Hneg. unfold Math_round. rewrite Hx.
  assert (H0 : (0 <=? e) = false) by (apply Z.leb_gt; lia). rewrite H0.
  rewrite Z.shiftr_div_pow2, Z.shiftl_mul_pow2 by lia. rewrite Z.mul_1_l.
  assert (E : (2 * Z.pos m + 2 ^ (- e)) / 2 ^ (1 - e)
              = (scaled m e + 2 ^ 1099) / 2 ^ 1100).
  { assert (HW : 0 < 2 ^ (e + 1099)) by (apply Z.pow_pos_nonneg; lia).
    rewrite <- (Z.div_mul_cancel_r (2 * Z.pos m + 2 ^ (- e)) (2 ^ (1 - e)) (2 ^ (e + 1099)))
      by (try apply Z.pow_nonzero; lia).
    f_equal.
    - rewrite Z.mul_add_distr_r, <- Z.pow_add_r by lia.
      replace (- e + (e + 1099)) with 1099 by lia. f_equal.
      unfold scaled. replace (e + 1100) with (1 + (e + 1099)) by lia.
      rewrite (Z.pow_add_r 2 1) by lia. change (2 ^ 1) with 2. ring.
    - rewrite <- Z.pow_add_r by lia. f_equal. lia. }
  rewrite E.
  destruct (Z.eqb_spec ((scaled m e + 2 ^ 1099) / 2 ^ 1100) 0) as [Ez|Nz];
    [rewrite Ez|]; reflexivity.
Qed.

Lemma scaled_half (m : positive) (e : Z) :
  -1099 <= e -> 2 * scaled m (e - 1) = scaled m e.
Proof.
  intros He. unfold scaled. replace (e + 1100) with (1 + (e - 1 + 1100)) by lia.
  rewrite (Z.pow_add_r 2 1) by lia. change (2 ^ 1) with 2. ring.
Qed.

(** Half an integer of at most 53 digits is a double. *)
Lemma half_of_Z_normal (k : Z) :
  0 < k < 2 ^ 53 ->
  exists (m : positive) (e : Z),
    normal (of_Z k * 0.5)%float m e /\ scaled m e = k * 2 ^ 1099 /\ -53 <= e <= -1.
Proof.
  intros Hk. destruct (of_Z_normal k Hk) as (m & e & Hn & Hs & He).
  exists m, (e - 1). split; [apply mul_half; [exact Hn|lia]|]. split; [|lia].
  pose proof (scaled_half m e ltac:(lia)) as Hh.
  change (2 ^ 1100) with (2 * 2 ^ 1099) in Hs. lia.
Qed.

(** [exactMatches + partialMatches * 0.5] is computed exactly: it is half
    of [2 * exactMatches + partialMatches]. *)
Lemma sum_exact (e p : Z) :
  0 <= e -> 0 <= p -> 2 * e + p < 2 ^ 53 ->
  (of_Z e + of_Z p * 0.5)%float = (of_Z (2 * e + p) * 0.5)%float.
Proof.
  intros He Hp Hk.
  destruct (Z.eq_dec e 0) as [->|Ne], (Z.eq_dec p 0) as [->|Np].
  - reflexivity.
  - replace (2 * 0 + p) with p by lia.
    destruct (half_of_Z_normal p ltac:(lia)) as (m & x & (Hy & _) & _).
    apply Prim2SF_inj. rewrite FloatAxioms.add_spec, Hy. reflexivity.
  - change (of_Z 0 * 0.5)%float with 0%float.
    destruct (of_Z_normal e ltac:(lia)) as (m & x & Hn & Hs & Hx).
    destruct (half_of_Z_normal (2 * e + 0) ltac:(lia)) as (m' & x' & Hn' & Hs' & Hx').
    assert (E : (of_Z e + 0)%float = of_Z e).
    { destruct Hn as (Hsf & _). apply Prim2SF_inj.
      rewrite FloatAxioms.add_spec, Hsf. reflexivity. }
    rewrite E. apply (normal_unique _ _ m m' x x' Hn Hn').
    rewrite Hs, Hs'. change (2 ^ 1100) with (2 * 2 ^ 1099). ring.
  - destruct (of_Z_normal e ltac:(lia)) as (m & x & Hn & Hs & Hx).
    destruct (half_of_Z_normal p ltac:(lia)) as (m' & x' & Hn' & Hs' & Hx').
    destruct (half_of_Z_normal (2 * e + p) ltac:(lia)) as (m2 & x2 & Hn2 & Hs2 & Hx2).
    destruct (add_exact (of_Z e) (of_Z p * 0.5)%float m m' x x' (2 * e + p) 1099
                Hn Hn' ltac:(lia) ltac:(lia) ltac:(lia) ltac:(lia))
      as (m3 & x3 & Hn3 & Hs3).
    { rewrite Hs, Hs'. change (2 ^ 1100) with (2 * 2 ^ 1099). ring. }
    apply (normal_unique _ _ m3 m2 x3 x2 Hn3 Hn2).
    rewrite Hs3, Hs2, Hs, Hs'. change (2 ^ 1100) with (2 * 2 ^ 1099). ring.
Qed.

(** *** The percentage of the lexical skills score

    [percentage t n] is what lines 285-289 of aiMatching.js compute from
    the total [t] and the number [n] of job skills. *)
Definition percentage (t : float) (n : Z) : float :=
  Math_round (Math_min (Math_max (t / of_Z n * of_Z 100)%float (of_Z 0)) (of_Z 100)).

(** The percentage for [k] half points out of [n] job skills is the
    rounding of a value [V], in units of [2 ^ -1100], that two roundings
    separate from [100 * (k / 2) / n]. *)
Definition close_to (V k n : Z) : Prop :=
  0 <= V
  /\ (2 ^ 53 - 1) * (2 ^ 53 - 1) * (V * n) <= 100 * (2 ^ 53 * 2 ^ 53) * (k * 2 ^ 1099)
  /\ 100 * (2 ^ 53 * 2 ^ 53) * (k * 2 ^ 1099) <= (2 ^ 53 + 1) * (2 ^ 53 + 1) * (V * n).

Definition rounded (V : Z) : Z := (Z.min V (100 * 2 ^ 1100) + 2 ^ 1099) / 2 ^ 1100.

Lemma rounded_range (V : Z) : 0 <= V -> 0 <= rounded V <= 100.
Proof.
  intros HV. unfold rounded.
  assert (0 < 2 ^ 1099) by (apply Z.pow_pos_nonneg; lia).
  change (2 ^ 1100) with (2 * 2 ^ 1099). split.
  - apply Z.div_pos; lia.
  - apply Z.lt_succ_r. apply Z.div_lt_upper_bound; lia.
Qed.

Lemma rounded_monotone (V V' : Z) : V <= V' -> rounded V <= rounded V'.
Proof.
  intros H. unfold rounded. apply Z.div_le_mono; [apply Z.pow_pos_nonneg; lia|lia].
Qed.

Lemma cancel_scale (c a b d W : Z) :
  0 < W -> c * Z.abs (a * W - b * W) <= d * W -> c * Z.abs (a - b) <= d.
Proof.
  intros HW H. rewrite <- Z.mul_sub_distr_r, Z.abs_mul, (Z.abs_eq W) in H by lia.
  rewrite Z.mul_assoc in H. apply (Z.mul_le_mono_pos_r _ _ W HW). exact H.
Qed.

Lemma percentage_spec (k n : Z) :
  1 <= n < 2 ^ 32 -> 0 <= k <= 2 * n ->
  exists V : Z,
    percentage (of_Z k * 0.5)%float n = of_Z (rounded V) /\ close_to V k n.
Proof.
  intros Hn Hk. unfold percentage.
  assert (H32 : 2 ^ 32 = 4294967296) by reflexivity.
  assert (H53 : 2 ^ 53 = 9007199254740992) by reflexivity.
  destruct (Z.eq_dec k 0) as [->|Nk].
  - exists 0. split; [|unfold close_to; lia].
    destruct (of_Z_normal n ltac:(lia)) as (mn & en & (Hsf & _) & _).
    assert (E : (of_Z 0 * 0.5 / of_Z n * of_Z 100)%float = 0%float).
    { change (of_Z 0 * 0.5)%float with 0%float.
      assert (Ed : (0 / of_Z n)%float = 0%float).
      { apply Prim2SF_inj. rewrite FloatAxioms.div_spec, Hsf. reflexivity. }
      rewrite Ed. reflexivity. }
    rewrite E. reflexivity.
  - destruct (half_of_Z_normal k ltac:(lia)) as (mt & et & Ht & Hst & Het).
    destruct (of_Z_normal n ltac:(lia)) as (mn & en & Hnn & Hsn & Hen).
    destruct (of_Z_normal 100 ltac:(lia)) as (mc & ec & Hc & Hsc & Hec).
    destruct (div_normal _ _ mt mn et en Ht Hnn ltac:(lia)) as (mq & eq & Hq & Heq & Hrq).
    destruct (mul_normal _ _ mq mc eq ec Hq Hc ltac:(lia)) as (mv & ev & Hv & Hev & Hrv).
    rewrite of_Z_zero, (Math_max_zero _ mv ev Hv).
    destruct (Math_min_normal _ _ mv mc ev ec Hv Hc) as (mw & ew & Hw & Hsw).
    assert (HW : 0 < 2 ^ 1100) by (apply Z.pow_pos_nonneg; lia).
    assert (Hmw : 2 ^ 52 <= Z.pos mw < 2 ^ 53) by apply Hw.
    assert (Hew : -1074 <= ew) by apply Hw.
    assert (Hewneg : ew < 0).
    { pose proof (scaled_bounds mw ew Hmw ltac:(lia)) as [Hlo _].
      assert (Hup : scaled mw ew < 2 ^ 1107).
      { rewrite Hsw, Hsc. change (2 ^ 1107) with (128 * 2 ^ 1100). lia. }
      destruct (Z_lt_le_dec ew 0) as [|Hge]; [assumption|].
      assert (2 ^ 1107 <= 2 ^ (ew + 1152)) by (apply Z.pow_le_mono_r; lia). lia. }
    rewrite (Math_round_normal _ mw ew Hw Hewneg).
    exists (scaled mv ev). split; [unfold rounded; rewrite Hsw, Hsc; reflexivity|].
    set (V := scaled mv ev) in *. set (Q := scaled mq eq) in *.
    rewrite Hsc in Hrv. rewrite Hsn, Hst in Hrq.
    replace (Q * (100 * 2 ^ 1100)) with (100 * Q * 2 ^ 1100) in Hrv by ring.
    replace (V * 2 ^ 1100) with (V * 2 ^ 1100) in Hrv by ring.
    apply (cancel_scale (2 ^ 53) V (100 * Q) V (2 ^ 1100) HW) in Hrv.
    replace (Q * (n * 2 ^ 1100)) with (Q * n * 2 ^ 1100) in Hrq by ring.
    apply (cancel_scale (2 ^ 53) (Q * n) (k * 2 ^ 1099) (Q * n) (2 ^ 1100) HW) in Hrq.
    assert (HV : 0 < V).
    { unfold V, scaled. apply Z.mul_pos_pos; [lia|apply Z.pow_pos_nonneg].
      lia. destruct Hv as (_ & _ & ?). lia. }
    assert (HQ : 0 < Q).
    { unfold Q, scaled. apply Z.mul_pos_pos; [lia|apply Z.pow_pos_nonneg].
      lia. destruct Hq as (_ & _ & ?). lia. }
    set (U := 2 ^ 53) in *. set (T := k * 2 ^ 1099) in *.
    assert (HU : 1 < U) by (unfold U; lia).
    assert (H1 : (U - 1) * V <= 100 * U * Q) by lia.
    assert (H2 : 100 * U * Q <= (U + 1) * V) by lia.
    assert (H3 : (U - 1) * (Q * n) <= U * T) by lia.
    assert (H4 : U * T <= (U + 1) * (Q * n)) by lia.
    unfold close_to. split; [lia|]. split.
    + replace ((U - 1) * (U - 1) * (V * n)) with ((U - 1) * n * ((U - 1) * V)) by ring.
      assert ((U - 1) * n * ((U - 1) * V) <= (U - 1) * n * (100 * U * Q))
        by (apply Z.mul_le_mono_nonneg_l; nia).
      replace ((U - 1) * n * (100 * U * Q)) with (100 * U * ((U - 1) * (Q * n))) in * by ring.
      assert (100 * U * ((U - 1) * (Q * n)) <= 100 * U * (U * T))
        by (apply Z.mul_le_mono_nonneg_l; lia).
      replace (100 * (U * U) * T) with (100 * U * (U * T)) by ring. lia.
    + replace ((U + 1) * (U + 1) * (V * n)) with ((U + 1) * n * ((U + 1) * V)) by ring.
      assert ((U + 1) * n * (100 * U * Q) <= (U + 1) * n * ((U + 1) * V))
        by (apply Z.mul_le_mono_nonneg_l; nia).
      replace ((U + 1) * n * (100 * U * Q)) with (100 * U * ((U + 1) * (Q * n))) in * by ring.
      assert (100 * U * (U * T) <= 100 * U * ((U + 1) * (Q * n)))
        by (apply Z.mul_le_mono_nonneg_l; lia).
      replace (100 * (U * U) * T) with (100 * U * (U * T)) by ring. lia.
Qed.

(** More half points never give a smaller value: the distance between two
    exact percentages is far greater than the error of two roundings. *)
Lemma close_to_monotone (V V' k k' n : Z) :
  1 <= n -> 0 <= k -> k < k' -> k < 2 ^ 50 ->
  close_to V k n -> close_to V' k' n -> V <= V'.
Proof.
  intros Hn Hk Hkk Hsmall (HV & Hup & _) (HV' & _ & Hlow).
  destruct (Z_le_gt_dec V V') as [|Hgt]; [assumption|exfalso].
  assert (H53 : 2 ^ 53 = 9007199254740992) by reflexivity.
  assert (H50 : 2 ^ 50 = 1125899906842624) by reflexivity.
  set (U := 2 ^ 53) in *. set (T := 2 ^ 1099) in *.
  assert (HT : 0 < T) by (apply Z.pow_pos_nonneg; lia).
  assert (HU : 1 < U) by (unfold U; lia).
  set (a := (U - 1) * (U - 1)) in *. set (b := (U + 1) * (U + 1)) in *.
  set (c := 100 * (U * U)) in *.
  assert (Ha : 0 < a) by (unfold a; nia). assert (Hb : 0 < b) by (unfold b; nia).
  assert (Hc : 0 < c) by (unfold c; nia).
  (* b * a * (V n) <= b c k T  and  a c k' T <= a b (V' n) <= a b (V n) *)
  assert (E1 : b * (a * (V * n)) <= b * (c * (k * T)))
    by (apply Z.mul_le_mono_nonneg_l; lia).
  assert (E2 : a * (c * (k' * T)) <= a * (b * (V' * n)))
    by (apply Z.mul_le_mono_nonneg_l; lia).
  assert (E3 : V' * n < V * n) by nia.
  assert (E4 : a * (b * (V' * n)) < b * (a * (V * n))).
  { replace (b * (a * (V * n))) with (a * (b * (V * n))) by ring.
    apply Z.mul_lt_mono_pos_l; [exact Ha|]. apply Z.mul_lt_mono_pos_l; [exact Hb|exact E3]. }
  assert (E5 : a * (c * (k' * T)) < b * (c * (k * T))) by lia.
  replace (a * (c * (k' * T))) with (c * T * (a * k')) in E5 by ring.
  replace (b * (c * (k * T))) with (c * T * (b * k)) in E5 by ring.
  apply Z.mul_lt_mono_pos_l in E5; [|nia].
  assert (E6 : a * (k + 1) <= a * k') by (apply Z.mul_le_mono_nonneg_l; lia).
  unfold a, b, U in *. lia.
Qed.

(** The percentages for [k <= k'] half points out of [n] job skills. *)
Lemma percentage_pair (k k' n : Z) :
  1 <= n < 2 ^ 32 -> 0 <= k -> k <= k' -> k' <= 2 * n ->
  exists z z' : Z,
    percentage (of_Z k * 0.5)%float n = of_Z z
    /\ percentage (of_Z k' * 0.5)%float n = of_Z z'
    /\ 0 <= z <= 100 /\ 0 <= z' <= 100 /\ z <= z'.
Proof.
  intros Hn Hk Hkk Hk'.
  assert (H32 : 2 ^ 32 = 4294967296) by reflexivity.
  assert (H50 : 2 ^ 50 = 1125899906842624) by reflexivity.
  destruct (percentage_spec k n Hn ltac:(lia)) as (V & HP & HC).
  destruct (percentage_spec k' n Hn ltac:(lia)) as (V' & HP' & HC').
  destruct (Z.eq_dec k k') as [<-|Hne].
  - exists (rounded V), (rounded V). split; [exact HP|]. split; [exact HP|].
    pose proof (rounded_range V ltac:(apply HC)). lia.
  - exists (rounded V), (rounded V'). split; [exact HP|]. split; [exact HP'|].
    split; [apply rounded_range; apply HC|]. split; [apply rounded_range; apply HC'|].
    apply rounded_monotone.
    apply (close_to_monotone V V' k k' n); try assumption; lia.
Qed.

End Rounding.
(** ** Cosine similarity in double precision *)

Module CosineFacts.

(** A binary64 vector all of whose components are zero (+0 or -0). *)
Definition zero_vector (v : list number) : Prop :=
  Forall (fun z => z = 0%float \/ z = (-0)%float) v.

Lemma loop_zero_right (a : list number) : forall (b : list number) d x,
  zero_vector b ->
  exists d' x', cosine_loop binary64 a b (d, x, 0%float) = (d', x', 0%float).
Proof.
  induction a as [|u a IH]; intros [|v b] d x Hb; try (now exists d, x).
  inversion Hb as [|? ? Hv Hb']; subst.
  cbn [cosine_loop]. cbn [add mul binary64].
  replace (0 + v * v)%float with 0%float by (destruct Hv; subst v; reflexivity).
  apply IH. exact Hb'.
Qed.

Lemma loop_zero_left (a : list number) : forall (b : list number) d y,
  zero_vector a ->
  exists d' y', cosine_loop binary64 a b (d, 0%float, y) = (d', 0%float, y').
Proof.
  induction a as [|u a IH]; intros [|v b] d y Ha; try (now exists d, y).
  inversion Ha as [|? ? Hu Ha']; subst.
  cbn [cosine_loop]. cbn [add mul binary64].
  replace (0 + u * u)%float with 0%float by (destruct Hu; subst u; reflexivity).
  apply IH. exact Ha'.
Qed.

Lemma cosine_zero_vector (a b : list number) :
  List.length a = List.length b ->
  zero_vector b ->
  cosineSimilarity binary64 a b = Return 0%float
  /\ cosineSimilarity binary64 b a = Return 0%float.
Proof.
  intros Hlen Hb. split.
  - unfold cosineSimilarity.
    assert (E : (@List.length (num binary64) a =? @List.length (num binary64) b)%nat = true)
      by (apply Nat.eqb_eq; exact Hlen).
    rewrite E. cbn [negb zero binary64].
    destruct (loop_zero_right a b 0%float 0%float Hb) as (d & x & H).
    destruct (cosine_loop binary64 a b _) as [[d' x'] y'] eqn:E2.
    assert (Hy : y' = 0%float) by (now injection H).
    subst y'. cbn [sqrt is_zero binary64].
    replace (PrimFloat.sqrt 0 =? 0)%float with true by reflexivity.
    now rewrite orb_true_r.
  - unfold cosineSimilarity.
    assert (E : (@List.length (num binary64) b =? @List.length (num binary64) a)%nat = true)
      by (apply Nat.eqb_eq; symmetry; exact Hlen).
    rewrite E. cbn [negb zero binary64].
    destruct (loop_zero_left b a 0%float 0%float Hb) as (d & y & H).
    destruct (cosine_loop binary64 b a _) as [[d' x'] y'] eqn:E2.
    assert (Hx : x' = 0%float) by (now injection H).
    subst x'. cbn [sqrt is_zero binary64].
    replace (PrimFloat.sqrt 0 =? 0)%float with true by reflexivity.
    reflexivity.
Qed.

Lemma cosine_returns (a b : list number) :
  List.length a = List.length b ->
  exists c, cosineSimilarity binary64 a b = Return c.
Proof.
  intros Hlen. unfold cosineSimilarity.
  assert (E : (@List.length (num binary64) a =? @List.length (num binary64) b)%nat = true)
    by (apply Nat.eqb_eq; exact Hlen).
  rewrite E. cbn [negb].
  destruct (cosine_loop binary64 a b (zero binary64, zero binary64, zero binary64))
    as [[d x] y].
  destruct (is_zero binary64 (sqrt binary64 x) || is_zero binary64 (sqrt binary64 y));
    eexists; reflexivity.
Qed.

End CosineFacts.



(** ** The lexical skills score: range and monotonicity *)

Module SkillsFacts.

(** The credit of one job skill, in half points: 2 for an exact match, 1 for
    a partial match, 0 otherwise. *)
Definition has_exact (resumeSkillNames : list string) (jobSkill : string) : bool :=
  existsb (String.eqb jobSkill) resumeSkillNames.

Definition has_partial (resumeSkillNames : list string) (jobSkill : string) : bool :=
  existsb (fun resumeSkill =>
             JSString.includes resumeSkill jobSkill
             || JSString.includes jobSkill resumeSkill)
          resumeSkillNames.

Definition credit (resumeSkillNames : list string) (jobSkill : string) : Z :=
  if has_exact resumeSkillNames jobSkill then 2
  else if has_partial resumeSkillNames jobSkill then 1 else 0.

Fixpoint credits (resumeSkillNames jobSkillNames : list string) : Z :=
  match jobSkillNames with
  | [] => 0
  | jobSkill :: rest => credit resumeSkillNames jobSkill + credits resumeSkillNames rest
  end.

Lemma count_matches_credits names js : forall e p,
  (2 * fst (count_matches names js e p) + snd (count_matches names js e p)
   = 2 * e + p + credits names js)%Z
  /\ (e <= fst (count_matches names js e p))%Z
  /\ (p <= snd (count_matches names js e p))%Z
  /\ (fst (count_matches names js e p) + snd (count_matches names js e p)
      <= e + p + Z.of_nat (List.length js))%Z.
Proof.
  induction js as [|j rest IH]; intros e p.
  - simpl. lia.
  - cbn [count_matches credits List.length]. unfold credit, has_exact, has_partial.
    destruct (existsb (String.eqb j) names).
    + specialize (IH (e + 1)%Z p). lia.
    + destruct (existsb _ names).
      * specialize (IH e (p + 1)%Z). lia.
      * specialize (IH e p). lia.
Qed.

Lemma credit_range names j : (0 <= credit names j <= 2)%Z.
Proof. unfold credit. destruct (has_exact names j), (has_partial names j); lia. Qed.

Lemma credit_append names x j : (credit names j <= credit (names ++ [x]) j)%Z.
Proof.
  unfold credit, has_exact, has_partial. rewrite !existsb_app.
  destruct (existsb (String.eqb j) names); [simpl; lia|].
  destruct (existsb _ names) eqn:E.
  - simpl. destruct (String.eqb j x); simpl; lia.
  - pose proof (credit_range [x] j) as H. unfold credit, has_exact, has_partial in H.
    simpl orb. exact (proj1 H).
Qed.

Lemma credits_append names x js : (credits names js <= credits (names ++ [x]) js)%Z.
Proof.
  induction js as [|j rest IH]; simpl; [lia|].
  pose proof (credit_append names x j). lia.
Qed.

Lemma credits_range names js : (0 <= credits names js <= 2 * Z.of_nat (List.length js))%Z.
Proof.
  induction js as [|j rest IH]; simpl List.length; simpl credits; [lia|].
  pose proof (credit_range names j). lia.
Qed.

(** The lower-cased names of a list of skills that all have one. *)
Definition named {A} (name : A -> option string) (skills : list A) : Prop :=
  forall skill, In skill skills -> name skill <> None.

Definition names_of {A} (name : A -> option string) (skills : list A) : list string :=
  map (fun skill =>
         JSString.toLowerCase (match name skill with Some n => n | None => EmptyString end))
      skills.

Lemma lower_names_named {A} (name : A -> option string) (skills : list A) :
  named name skills -> lower_names name skills = Return (names_of name skills).
Proof.
  induction skills as [|skill rest IH]; intros H; [reflexivity|].
  cbn [lower_names names_of map].
  destruct (name skill) as [n|] eqn:E.
  - rewrite IH by (intros x Hx; apply H; now right). reflexivity.
  - elim (H skill (or_introl eq_refl)). exact E.
Qed.

Lemma lower_names_nameless {A} (name : A -> option string) (skills : list A) :
  (exists skill, In skill skills /\ name skill = None) ->
  lower_names name skills = Throw (cannot_read "toLowerCase").
Proof.
  induction skills as [|skill rest IH]; intros [x [Hin Hx]]; [destruct Hin|].
  cbn [lower_names]. destruct (name skill) as [n|] eqn:E; [|reflexivity].
  rewrite IH; [reflexivity|]. destruct Hin as [<-|Hin]; [congruence|now exists x].
Qed.

Lemma names_of_append {A} (name : A -> option string) (skills : list A) (extra : A) :
  names_of name (skills ++ [extra]) = names_of name skills ++ names_of name [extra].
Proof. unfold names_of. now rewrite map_app. Qed.

(** *** Double precision

    A JS array has fewer than [2 ^ 32] elements; for such a number of job
    skills the counters and their sum are computed exactly, and the
    percentage is [Rounding.percentage] of half the half points. *)
Lemma fallback_binary (r : Resume.skill) rs (j : Job.skill) js :
  (Z.of_nat (List.length (j :: js)) < 2 ^ 32)%Z ->
  named Resume.name (r :: rs) -> named Job.name (j :: js) ->
  let names := names_of Resume.name (r :: rs) in
  let jobs := names_of Job.name (j :: js) in
  calculateSkillsMatchFallback binary64 (Some (r :: rs)) (Some (j :: js))
  = Return (Rounding.percentage (of_Z (credits names jobs) * 0.5)%float
              (Z.of_nat (List.length (j :: js)))).
Proof.
  intros Hlen Hr Hj names jobs. unfold calculateSkillsMatchFallback.
  rewrite (lower_names_named Resume.name (r :: rs) Hr).
  rewrite (lower_names_named Job.name (j :: js) Hj).
  cbn [obind]. fold names. fold jobs. unfold match_percentage.
  pose proof (count_matches_credits names jobs 0 0) as (H & He & Hp & Hs).
  pose proof (credits_range names jobs) as Hc.
  destruct (count_matches names jobs 0 0) as [e p]. cbn [fst snd] in *.
  cbn [round min max mul div add from_Z half binary64].
  assert (Hn : List.length jobs = List.length (j :: js))
    by (unfold jobs, names_of; apply length_map).
  rewrite Hn in *.
  assert (H32 : (2 ^ 32 = 4294967296)%Z) by reflexivity.
  assert (H53 : (2 ^ 53 = 9007199254740992)%Z) by reflexivity.
  rewrite Rounding.sum_exact by lia.
  replace (2 * e + p)%Z with (credits names jobs) by lia.
  reflexivity.
Qed.

End SkillsFacts.




(** * Further properties *)

(** ** The order of JS numbers

    [<], [<=] and [===] on numbers compare sign, exponent and mantissa; on
    numbers other than NaN they form a total order. *)

Module NumberOrder.

Lemma SFcompare_antisym (a b : spec_float) (c : comparison) :
  SFcompare a b = Some c -> SFcompare b a = Some (CompOpp c).
Proof.
  destruct a as [sa|sa| |sa ma ea], b as [sb|sb| |sb mb eb]; simpl;
    try discriminate;
    try (destruct sa; intros [= <-]; reflexivity);
    try (destruct sb; intros [= <-]; reflexivity);
    try (intros [= <-]; reflexivity).
  - destruct sa, sb; intros [= <-]; reflexivity.
  - destruct sa, sb; intros [= <-]; try reflexivity;
      rewrite (Z.compare_antisym ea eb);
      destruct (ea ?= eb)%Z; simpl; try reflexivity;
      rewrite (Pos.compare_cont_antisym ma mb Eq); reflexivity.
Qed.

Lemma SFcompare_defined (a b : spec_float) :
  a <> S754_nan -> b <> S754_nan -> exists c, SFcompare a b = Some c.
Proof.
  destruct a, b; simpl; intros Ha Hb; try congruence; eexists; reflexivity.
Qed.

Lemma SFcompare_nan (a : spec_float) : SFcompare a a = None -> a = S754_nan.
Proof. destruct a; simpl; try discriminate; reflexivity. Qed.

Lemma not_nan (x : number) : PrimFloat.is_nan x = false -> Prim2SF x <> S754_nan.
Proof.
  unfold PrimFloat.is_nan. rewrite FloatAxioms.eqb_spec. unfold SFeqb.
  intros H E. rewrite E in H. discriminate.
Qed.

Lemma is_nan_false (x : number) : Prim2SF x <> S754_nan -> PrimFloat.is_nan x = false.
Proof.
  intros H. unfold PrimFloat.is_nan. rewrite FloatAxioms.eqb_spec. unfold SFeqb.
  destruct (SFcompare (Prim2SF x) (Prim2SF x)) as [c|] eqn:E.
  - pose proof (SFcompare_antisym _ _ _ E) as E'. rewrite E in E'.
    destruct c; try discriminate. reflexivity.
  - now apply SFcompare_nan in E.
Qed.

(** A comparison that holds has no NaN on either side. *)
Lemma leb_not_nan (x y : number) :
  PrimFloat.leb x y = true -> PrimFloat.is_nan x = false /\ PrimFloat.is_nan y = false.
Proof.
  rewrite FloatAxioms.leb_spec. unfold SFleb. intros H.
  split; apply is_nan_false; intros E; rewrite E in H;
    [|destruct (Prim2SF x)]; discriminate.
Qed.

Lemma ltb_leb (x y : number) : PrimFloat.ltb x y = true -> PrimFloat.leb x y = true.
Proof.
  rewrite FloatAxioms.ltb_spec, FloatAxioms.leb_spec. unfold SFltb, SFleb.
  destruct (SFcompare (Prim2SF x) (Prim2SF y)) as [[]|]; congruence.
Qed.

(** Totality: of two numbers that are not NaN, one is at most the other. *)
Lemma not_ltb_leb (x y : number) :
  PrimFloat.is_nan x = false -> PrimFloat.is_nan y = false ->
  PrimFloat.ltb x y = false -> PrimFloat.leb y x = true.
Proof.
  intros Hx Hy. rewrite FloatAxioms.ltb_spec, FloatAxioms.leb_spec.
  unfold SFltb, SFleb.
  destruct (SFcompare_defined _ _ (not_nan x Hx) (not_nan y Hy)) as [c E].
  rewrite E, (SFcompare_antisym _ _ _ E). destruct c; simpl; congruence.
Qed.

Lemma leb_not_ltb (x y : number) :
  PrimFloat.leb x y = true -> PrimFloat.ltb y x = false.
Proof.
  rewrite FloatAxioms.ltb_spec, FloatAxioms.leb_spec. unfold SFltb, SFleb.
  destruct (SFcompare (Prim2SF x) (Prim2SF y)) as [c|] eqn:E; [|discriminate].
  rewrite (SFcompare_antisym _ _ _ E). destruct c; simpl; congruence.
Qed.

(** [Math.max(x, lo)] is at least [lo], and [Math.min(x, hi)] at most
    [hi]; each is one of its arguments. *)
Lemma Math_max_cases (x lo : number) :
  PrimFloat.is_nan x = false -> PrimFloat.is_nan lo = false ->
  (Math_max x lo = x \/ Math_max x lo = lo)
  /\ PrimFloat.leb lo (Math_max x lo) = true
  /\ PrimFloat.leb x (Math_max x lo) = true.
Proof.
  intros Hx Hl. unfold Math_max. rewrite Hx, Hl.
  assert (Rx : PrimFloat.leb x x = true).
  { apply not_ltb_leb; trivial.
    destruct (PrimFloat.ltb x x) eqn:E; trivial.
    pose proof (leb_not_ltb _ _ (ltb_leb _ _ E)). congruence. }
  assert (Rl : PrimFloat.leb lo lo = true).
  { apply not_ltb_leb; trivial.
    destruct (PrimFloat.ltb lo lo) eqn:E; trivial.
    pose proof (leb_not_ltb _ _ (ltb_leb _ _ E)). congruence. }
  destruct (PrimFloat.ltb x lo) eqn:E1.
  - repeat split; auto using ltb_leb.
  - destruct (PrimFloat.ltb lo x) eqn:E2.
    + repeat split; auto using ltb_leb.
    + destruct (PrimFloat.get_sign x); repeat split; auto using not_ltb_leb.
Qed.

Lemma Math_min_cases (x hi : number) :
  PrimFloat.is_nan x = false -> PrimFloat.is_nan hi = false ->
  (Math_min x hi = x \/ Math_min x hi = hi)
  /\ PrimFloat.leb (Math_min x hi) hi = true
  /\ PrimFloat.leb (Math_min x hi) x = true.
Proof.
  intros Hx Hh. unfold Math_min. rewrite Hx, Hh.
  assert (Rx : PrimFloat.leb x x = true).
  { apply not_ltb_leb; trivial.
    destruct (PrimFloat.ltb x x) eqn:E; trivial.
    pose proof (leb_not_ltb _ _ (ltb_leb _ _ E)). congruence. }
  assert (Rh : PrimFloat.leb hi hi = true).
  { apply not_ltb_leb; trivial.
    destruct (PrimFloat.ltb hi hi) eqn:E; trivial.
    pose proof (leb_not_ltb _ _ (ltb_leb _ _ E)). congruence. }
  destruct (PrimFloat.ltb hi x) eqn:E1.
  - repeat split; auto using ltb_leb.
  - destruct (PrimFloat.ltb x hi) eqn:E2.
    + repeat split; auto using ltb_leb.
    + destruct (PrimFloat.get_sign x); repeat split; auto using not_ltb_leb.
Qed.

End NumberOrder.

(** ** The dimension scorers, case by case *)

Module ScorerFacts.

(** The elements of a list that may be missing. *)
Definition entries {A} (l : option (list A)) : list A :=
  match l with
  | Some l => l
  | None => []
  end.

Lemma startsWith_refl (s : string) : JSString.startsWith s s = true.
Proof.
  induction s as [|c s IH]; simpl; [reflexivity|].
  now rewrite Ascii.eqb_refl.
Qed.

Lemma includes_refl (s : string) : JSString.includes s s = true.
Proof. destruct s; simpl; [reflexivity|]. now rewrite Ascii.eqb_refl, startsWith_refl. Qed.

Lemma includes_empty (s : string) : JSString.includes s EmptyString = true.
Proof. destruct s; reflexivity. Qed.

Lemma nonempty_Some (o : option string) (d : string) :
  nonempty o = Some d <-> o = Some d /\ d <> EmptyString.
Proof.
  destruct o as [[|c s]|]; simpl; split; try discriminate.
  - intros [[= <-] H]. now elim H.
  - intros [= <-]. split; [reflexivity|discriminate].
  - intros [H _]. exact H.
  - intros [H _]. discriminate.
Qed.

(** An entry of the education list that meets the degree [jd]: it has a
    non-empty degree that contains [jd], ignoring case. *)
Definition meets (jd : string) (edu : Resume.education_entry) : Prop :=
  exists d, Resume.degree edu = Some d /\ d <> EmptyString
            /\ JSString.includes (JSString.toLowerCase d) (JSString.toLowerCase jd) = true.

Lemma some_degree_includes_true (l : list Resume.education_entry) (jd : string) :
  (exists edu, In edu l /\ meets jd edu) ->
  some_degree_includes l (Some jd) = Return true.
Proof.
  induction l as [|edu rest IH]; intros [x [Hin Hx]]; [destruct Hin|].
  simpl. destruct (nonempty (Resume.degree edu)) as [d|] eqn:Hd.
  - destruct (JSString.includes (JSString.toLowerCase d) (JSString.toLowerCase jd)) eqn:Hi;
      [reflexivity|].
    apply IH. destruct Hin as [<-|Hin]; [|now exists x].
    destruct Hx as [d' [Hd' [_ Hi']]].
    apply nonempty_Some in Hd. destruct Hd as [Hd _]. congruence.
  - apply IH. destruct Hin as [<-|Hin]; [|now exists x].
    destruct Hx as [d' [Hd' [Hne _]]].
    assert (nonempty (Resume.degree edu) = Some d') by now apply nonempty_Some.
    congruence.
Qed.

Lemma some_degree_includes_false (l : list Resume.education_entry) (jd : string) :
  ~ (exists edu, In edu l /\ meets jd edu) ->
  some_degree_includes l (Some jd) = Return false.
Proof.
  induction l as [|edu rest IH]; intros Hno; [reflexivity|].
  simpl. destruct (nonempty (Resume.degree edu)) as [d|] eqn:Hd.
  - destruct (JSString.includes (JSString.toLowerCase d) (JSString.toLowerCase jd)) eqn:Hi.
    + elim Hno. exists edu. split; [now left|].
      apply nonempty_Some in Hd. destruct Hd as [Hd Hne]. now exists d.
    + apply IH. intros [x [Hin Hx]]. apply Hno. exists x. split; [now right|exact Hx].
  - apply IH. intros [x [Hin Hx]]. apply Hno. exists x. split; [now right|exact Hx].
Qed.

Lemma some_degree_includes_no_degree (l : list Resume.education_entry) :
  ((forall edu, In edu l -> nonempty (Resume.degree edu) = None) ->
   some_degree_includes l None = Return false)
  /\ ((exists edu, In edu l /\ nonempty (Resume.degree edu) <> None) ->
      some_degree_includes l None = Throw (cannot_read "toLowerCase")).
Proof.
  induction l as [|edu rest [IH1 IH2]]; split.
  - reflexivity.
  - intros [x [[] _]].
  - intros H. simpl. rewrite (H edu (or_introl eq_refl)).
    apply IH1. intros x Hx. apply H. now right.
  - intros [x [Hin Hx]]. simpl.
    destruct (nonempty (Resume.degree edu)) eqn:E; [reflexivity|].
    apply IH2. destruct Hin as [<-|Hin]; [contradiction|now exists x].
Qed.

Lemma total_months_cons (exp : Resume.experience_entry) (rest : list Resume.experience_entry) :
  total_months (exp :: rest) = (add_months 0 exp + total_months rest)%Z.
Proof.
  unfold total_months, add_months. simpl.
  destruct (Resume.startDate exp); [|reflexivity].
  destruct (Resume.endDate exp); reflexivity.
Qed.

Lemma total_months_app (l1 l2 : list Resume.experience_entry) :
  total_months (l1 ++ l2) = (total_months l1 + total_months l2)%Z.
Proof.
  induction l1 as [|exp rest IH]; [reflexivity|].
  simpl. rewrite !total_months_cons, IH. lia.
Qed.

Lemma total_months_permutation (l l' : list Resume.experience_entry) :
  Permutation l l' -> total_months l = total_months l'.
Proof.
  induction 1 as [|x l l' _ IH|x y l|l l' l'' _ IH1 _ IH2].
  - reflexivity.
  - rewrite !total_months_cons, IH. reflexivity.
  - rewrite !total_months_cons. lia.
  - congruence.
Qed.

(** [exp.startDate && exp.endDate] *)
Definition dated (exp : Resume.experience_entry) : bool :=
  match Resume.startDate exp, Resume.endDate exp with
  | Some _, Some _ => true
  | _, _ => false
  end.

Lemma total_months_dated (l : list Resume.experience_entry) :
  total_months (filter dated l) = total_months l.
Proof.
  induction l as [|exp rest IH]; [reflexivity|].
  simpl. destruct (dated exp) eqn:E.
  - rewrite !total_months_cons, IH. reflexivity.
  - rewrite total_months_cons, IH. unfold add_months. unfold dated in E.
    destruct (Resume.startDate exp); [|reflexivity].
    destruct (Resume.endDate exp); [discriminate|reflexivity].
Qed.

End ScorerFacts.

(** X1.  Education score.  A job without an education requirement, or with
    one that is not marked required (whether or not it names a degree),
    scores 100 and the résumé is not looked at.  When the requirement is
    marked required and names a degree, the scorer never throws: the score
    is 100 exactly when some entry of the résumé's education list has a
    non-empty degree that contains the job's degree, ignoring case, and 0
    otherwise (missing and empty lists included).  When the requirement is
    marked required and names no degree, the score is 0 if no entry of the
    résumé has a non-empty degree, and otherwise the scorer throws a
    TypeError. *)
Theorem education_score_cases
  (resumeEducation : option (list Resume.education_entry))
  (jobEducation : Job.education_req) :
  let score := calculateEducationMatch resumeEducation (Some jobEducation) in
  calculateEducationMatch resumeEducation None = Return 100%float
  /\ (Job.required jobEducation = false -> score = Return 100%float)
  /\ (forall jd : string,
        Job.required jobEducation = true -> Job.degree jobEducation = Some jd ->
        let met := exists edu, In edu (ScorerFacts.entries resumeEducation)
                               /\ ScorerFacts.meets jd edu in
        (met -> score = Return 100%float) /\ (~ met -> score = Return 0%float))
  /\ (Job.required jobEducation = true -> Job.degree jobEducation = None ->
      ((forall edu, In edu (ScorerFacts.entries resumeEducation) ->
                    nonempty (Resume.degree edu) = None) ->
       score = Return 0%float)
      /\ ((exists edu, In edu (ScorerFacts.entries resumeEducation)
                       /\ nonempty (Resume.degree edu) <> None) ->
          score = Throw (cannot_read "toLowerCase"))).
Proof.
  intros score. split; [reflexivity|]. unfold score, calculateEducationMatch.
  split; [intros ->; reflexivity|].
  split.
  - intros jd -> ->. simpl. split; intros Hmet.
    + destruct resumeEducation as [[|edu rest]|].
      * destruct Hmet as [x [[] _]].
      * now rewrite (ScorerFacts.some_degree_includes_true (edu :: rest) jd Hmet).
      * destruct Hmet as [x [[] _]].
    + destruct resumeEducation as [[|edu rest]|]; try reflexivity.
      now rewrite (ScorerFacts.some_degree_includes_false (edu :: rest) jd Hmet).
  - intros -> ->. simpl. split; intros H.
    + destruct resumeEducation as [[|edu rest]|]; try reflexivity.
      now rewrite (proj1 (ScorerFacts.some_degree_includes_no_degree (edu :: rest)) H).
    + destruct resumeEducation as [[|edu rest]|].
      * destruct H as [x [[] _]].
      * now rewrite (proj2 (ScorerFacts.some_degree_includes_no_degree (edu :: rest)) H).
      * destruct H as [x [[] _]].
Qed.

Lemma education_score_cases_witness :
  calculateEducationMatch
    (Some [ {| Resume.degree := None |};
            {| Resume.degree := Some "B.Sc. Computer Science"%string |} ])
    (Some {| Job.required := true; Job.degree := Some "computer science"%string |})
  = Return 100%float
  /\ calculateEducationMatch
       (Some [ {| Resume.degree := Some "B.Sc. Computer Science"%string |} ])
       (Some {| Job.required := false; Job.degree := None |})
     = Return 100%float
  /\ calculateEducationMatch
       (Some [ {| Resume.degree := Some "B.Sc. Computer Science"%string |} ])
       (Some {| Job.required := true; Job.degree := None |})
     = Throw (cannot_read "toLowerCase").
Proof.
  split; [|split].
  - refine (proj1 (proj1 (proj2 (proj2
              (education_score_cases
                 (Some [ {| Resume.degree := None |};
                         {| Resume.degree := Some "B.Sc. Computer Science"%string |} ])
                 {| Job.required := true; Job.degree := Some "computer science"%string |})))
              "computer science"%string eq_refl eq_refl) _).
    exists {| Resume.degree := Some "B.Sc. Computer Science"%string |}.
    split; [right; left; reflexivity|].
    exists "B.Sc. Computer Science"%string.
    split; [reflexivity|]. split; [discriminate|reflexivity].
  - exact (proj1 (proj2
             (education_score_cases
                (Some [ {| Resume.degree := Some "B.Sc. Computer Science"%string |} ])
                {| Job.required := false; Job.degree := None |})) eq_refl).
  - refine (proj2 (proj2 (proj2 (proj2
              (education_score_cases
                 (Some [ {| Resume.degree := Some "B.Sc. Computer Science"%string |} ])
                 {| Job.required := true; Job.degree := None |}))) eq_refl eq_refl) _).
    exists {| Resume.degree := Some "B.Sc. Computer Science"%string |}.
    split; [left; reflexivity|discriminate].
Defined.

(** X2.  A required education that names the empty degree (what the posting
    form sends when the field is left blank) is met by every résumé that has
    at least one education entry with a non-empty degree, whatever that
    degree is; a résumé whose entries all lack a degree scores 0. *)
Theorem blank_required_degree
  (resumeEducation : list Resume.education_entry) :
  let job := Some {| Job.required := true; Job.degree := Some EmptyString |} in
  ((exists edu d, In edu resumeEducation /\ Resume.degree edu = Some d /\ d <> EmptyString) ->
   calculateEducationMatch (Some resumeEducation) job = Return 100%float)
  /\ ((forall edu, In edu resumeEducation -> nonempty (Resume.degree edu) = None) ->
      calculateEducationMatch (Some resumeEducation) job = Return 0%float).
Proof.
  intros job. split.
  - intros [edu [d [Hin [Hd Hne]]]].
    assert (Hmet : exists edu, In edu resumeEducation /\ ScorerFacts.meets EmptyString edu).
    { exists edu. split; [exact Hin|]. exists d. repeat split; trivial.
      apply ScorerFacts.includes_empty. }
    unfold job, calculateEducationMatch. simpl.
    destruct resumeEducation as [|e rest]; [destruct Hin|].
    now rewrite (ScorerFacts.some_degree_includes_true (e :: rest) EmptyString Hmet).
  - intros Hall.
    assert (Hno : ~ exists edu, In edu resumeEducation /\ ScorerFacts.meets EmptyString edu).
    { intros [edu [Hin [d [Hd [Hne _]]]]]. specialize (Hall edu Hin).
      assert (nonempty (Resume.degree edu) = Some d)
        by now apply ScorerFacts.nonempty_Some.
      congruence. }
    unfold job, calculateEducationMatch. simpl.
    destruct resumeEducation as [|e rest]; [reflexivity|].
    now rewrite (ScorerFacts.some_degree_includes_false (e :: rest) EmptyString Hno).
Qed.

(** X3.  Location score.  The score does not depend on which side is the
    candidate's location and which the job's city; it is one of 100, 50 and
    30; it is 50 exactly when one of the two strings is missing or empty; and
    two non-empty strings that are equal up to case score 100. *)
Theorem location_score_cases (a b : option string) :
  let score x y :=
    calculateLocationMatch (Some {| Resume.location := x |})
                           (Some {| Job.remote := false; Job.city := y |}) in
  score a b = score b a
  /\ (score a b = Return 100%float \/ score a b = Return 50%float
      \/ score a b = Return 30%float)
  /\ (score a b = Return 50%float <-> nonempty a = None \/ nonempty b = None)
  /\ (forall s t, nonempty a = Some s -> nonempty b = Some t ->
                  JSString.toLowerCase s = JSString.toLowerCase t ->
                  score a b = Return 100%float).
Proof.
  intros score. unfold score, calculateLocationMatch. simpl.
  destruct (nonempty a) as [s|], (nonempty b) as [t|].
  - rewrite (orb_comm (JSString.includes (JSString.toLowerCase t) (JSString.toLowerCase s))).
    destruct (JSString.includes (JSString.toLowerCase s) (JSString.toLowerCase t)
              || JSString.includes (JSString.toLowerCase t) (JSString.toLowerCase s))
      eqn:E.
    + repeat split; auto.
      * intros H. exfalso.
        assert (Hb : PrimFloat.Leibniz.eqb 100%float 50%float = true)
          by (apply FloatAxioms.Leibniz.eqb_spec; congruence).
        vm_compute in Hb. discriminate.
      * intros [H|H]; discriminate.
    + repeat split; auto.
      * intros H. exfalso.
        assert (Hb : PrimFloat.Leibniz.eqb 30%float 50%float = true)
          by (apply FloatAxioms.Leibniz.eqb_spec; congruence).
        vm_compute in Hb. discriminate.
      * intros [H|H]; discriminate.
      * intros s' t' [= <-] [= <-] Heq. rewrite Heq in E.
        now rewrite ScorerFacts.includes_refl in E.
  - repeat split; auto; discriminate.
  - repeat split; auto; discriminate.
  - repeat split; auto; discriminate.
Qed.

(** X4.  A remote job scores 100 for location whatever the résumé holds, even
    when the résumé has no personal information at all; for a job that is not
    remote a résumé without personal information makes the scorer throw a
    TypeError, which the aggregator turns into the all-zero score record. *)
Theorem remote_job_needs_no_personal_info
  (reply : outcome string) (resume : Resume.t) (job : Job.t) (location : Job.location_t) :
  Job.location job = Some location ->
  Resume.personalInfo (Resume.extractedData resume) = None ->
  (Job.remote location = true ->
   calculateLocationMatch None (Some location) = Return 100%float)
  /\ (Job.remote location = false ->
      calculateLocationMatch None (Some location) = Throw (cannot_read "location")
      /\ result (calculateJobMatchScore reply resume job) = Return zero_scores).
Proof.
  intros Hl Hp. unfold calculateLocationMatch.
  split; intros Hr; rewrite Hr; [reflexivity|]. split; [reflexivity|].
  unfold calculateJobMatchScore. rewrite Hl, Hp.
  destruct (skillsDimension reply resume job) as [l [s|e]]; [|reflexivity].
  simpl.
  destruct (calculateEducationMatch (Resume.education (Resume.extractedData resume))
              (Job.education (Job.requirements job))) as [d|e]; simpl.
  - rewrite Hr. reflexivity.
  - reflexivity.
Qed.

Lemma blank_required_degree_witness :
  calculateEducationMatch
    (Some [ {| Resume.degree := Some "Diploma"%string |} ])
    (Some {| Job.required := true; Job.degree := Some EmptyString |})
  = Return 100%float.
Proof.
  apply (proj1 (blank_required_degree [ {| Resume.degree := Some "Diploma"%string |} ])).
  exists {| Resume.degree := Some "Diploma"%string |}, "Diploma"%string.
  split; [left; reflexivity|]. split; [reflexivity|discriminate].
Defined.

Lemma location_score_cases_witness :
  calculateLocationMatch (Some {| Resume.location := Some "Chennai"%string |})
                         (Some {| Job.remote := false; Job.city := Some "CHENNAI"%string |})
  = Return 100%float.
Proof.
  apply (proj2 (proj2 (proj2
           (location_score_cases (Some "Chennai"%string) (Some "CHENNAI"%string))))
           "Chennai"%string "CHENNAI"%string);
    reflexivity.
Defined.

(** A résumé without personal information, and a job on site in Chennai. *)
Definition anonymous_resume : Resume.t := {|
  Resume.skillsEmbedding := None;
  Resume.extractedData := {|
    Resume.skills := Some [ {| Resume.name := Some "Python"%string |} ];
    Resume.experience := Some [];
    Resume.education := Some [];
    Resume.personalInfo := None
  |}
|}.

Definition onsite_job : Job.t := {|
  Job.embedding := None;
  Job.requirements := {|
    Job.skills := Some [ {| Job.name := Some "Python"%string |} ];
    Job.experience := None;
    Job.education := None
  |};
  Job.location := Some {| Job.remote := false; Job.city := Some "Chennai"%string |}
|}.

Lemma remote_job_needs_no_personal_info_witness :
  calculateLocationMatch None (Job.location onsite_job) = Throw (cannot_read "location")
  /\ result (calculateJobMatchScore (Return "90"%string) anonymous_resume onsite_job)
     = Return zero_scores.
Proof.
  apply (proj2 (remote_job_needs_no_personal_info
                  (Return "90"%string) anonymous_resume onsite_job
                  {| Job.remote := false; Job.city := Some "Chennai"%string |}
                  eq_refl eq_refl)).
  reflexivity.
Defined.

(** X5.  The AI-assisted skills scorer, case by case.  With a missing or
    empty skills list on either side it returns 0 without using the model's
    reply and logs nothing.  With two non-empty lists: when the model
    replies with a text, nothing is logged and the score lies between 0 and
    100 (0 when the reply does not start with a number); when the call fails
    with an error that is not a quota error, the error is logged once and
    the score is 0; when it fails with a quota error, the error and a
    warning are logged and the outcome is that of the lexical fallback
    scorer, so that a skill without a name makes the scorer throw a
    TypeError (the fallback runs in the catch block). *)
Theorem ai_skills_score_cases
  (reply : outcome string)
  (resumeSkills : option (list Resume.skill)) (jobSkills : option (list Job.skill)) :
  let run := calculateSkillsMatch reply resumeSkills jobSkills in
  let error_entry e := (console_error, [Text "Skills match calculation error:"; Thrown e]) in
  let warning :=
    (console_warn, [Text "API quota exceeded for skills matching, using fallback method"]) in
  (ScorerFacts.entries resumeSkills = [] \/ ScorerFacts.entries jobSkills = [] ->
   run = ([], Return 0%float))
  /\ (ScorerFacts.entries resumeSkills <> [] -> ScorerFacts.entries jobSkills <> [] ->
      (forall text, reply = Return text ->
         exists v : number,
           run = ([], Return v)
           /\ PrimFloat.leb 0%float v = true /\ PrimFloat.leb v 100%float = true
           /\ (PrimFloat.is_nan (parseInt (JSString.trim text)) = true -> v = 0%float))
      /\ (forall e, reply = Throw e -> is_quota_error e = false ->
            run = ([error_entry e], Return 0%float))
      /\ (forall e, reply = Throw e -> is_quota_error e = true ->
            run = ([error_entry e; warning],
                   calculateSkillsMatchFallback binary64 resumeSkills jobSkills)
            /\ ((exists skill, In skill (ScorerFacts.entries resumeSkills)
                               /\ Resume.name skill = None) ->
                result run = Throw (cannot_read "toLowerCase")))).
Proof.
  intros run error_entry warning. unfold run, calculateSkillsMatch.
  destruct resumeSkills as [[|r rs]|];
    try (split; [reflexivity|intros H; now elim H]).
  destruct jobSkills as [[|j js]|];
    try (split; [reflexivity|intros _ H; now elim H]).
  split; [intros [H|H]; discriminate|]. intros _ _.
  split; [|split].
  - intros text ->. cbn.
    set (score := parseInt (JSString.trim text)).
    destruct (PrimFloat.is_nan score) eqn:Hnan.
    + exists 0%float. repeat split.
    + exists (Math_min (Math_max score 0%float) 100%float). split; [reflexivity|].
      destruct (NumberOrder.Math_max_cases score 0%float Hnan eq_refl) as [_ [Hlo _]].
      destruct (NumberOrder.leb_not_nan _ _ Hlo) as [_ Hn1].
      destruct (NumberOrder.Math_min_cases (Math_max score 0%float) 100%float Hn1 eq_refl)
        as [[E|E] [Hhi _]].
      * split; [rewrite E; exact Hlo|]. split; [exact Hhi|]. intros H. congruence.
      * split; [rewrite E; reflexivity|]. split; [exact Hhi|]. intros H. congruence.
  - intros e -> Hq. cbn. rewrite Hq. reflexivity.
  - intros e -> Hq. cbn -[calculateSkillsMatchFallback]. rewrite Hq.
    cbn -[calculateSkillsMatchFallback].
    split.
    + reflexivity.
    + intros Hnameless. unfold lift. cbn [result snd].
      unfold calculateSkillsMatchFallback.
      now rewrite (SkillsFacts.lower_names_nameless Resume.name (r :: rs) Hnameless).
Qed.

Lemma ai_skills_score_cases_witness :
  (exists v : number,
     calculateSkillsMatch (Return "250 points"%string)
       (Some [ {| Resume.name := Some "Python"%string |} ])
       (Some [ {| Job.name := Some "Go"%string |} ])
     = ([], Return v)
     /\ PrimFloat.leb 0%float v = true /\ PrimFloat.leb v 100%float = true)
  /\ result (calculateSkillsMatch (Throw (new_Error "429 Too Many Requests"))
               (Some [ {| Resume.name := None |} ])
               (Some [ {| Job.name := Some "Go"%string |} ]))
     = Throw (cannot_read "toLowerCase").
Proof.
  split.
  - destruct (proj1 (proj2 (ai_skills_score_cases (Return "250 points"%string)
                (Some [ {| Resume.name := Some "Python"%string |} ])
                (Some [ {| Job.name := Some "Go"%string |} ]))
              ltac:(discriminate) ltac:(discriminate)) "250 points"%string eq_refl)
      as [v [Hv [Hlo [Hhi _]]]].
    exists v. split; [exact Hv|]. split; assumption.
  - refine (proj2 (proj2 (proj2 (proj2 (ai_skills_score_cases
                (Throw (new_Error "429 Too Many Requests"))
                (Some [ {| Resume.name := None |} ])
                (Some [ {| Job.name := Some "Go"%string |} ]))
              ltac:(discriminate) ltac:(discriminate)))
              (new_Error "429 Too Many Requests") eq_refl eq_refl) _).
    exists {| Resume.name := None |}. split; [left; reflexivity|reflexivity].
Defined.

(** X6.  Total experience does not depend on the order of the entries;
    entries that lack a start or an end date (a current position without an
    end date, for one) add nothing; and the months of two lists add up, so a
    period that two entries both cover is counted twice.  The experience
    score is likewise independent of the order of the entries. *)
Theorem total_experience_invariants
  (l l' : list Resume.experience_entry) :
  (Permutation l l' ->
   calculateTotalExperience l = calculateTotalExperience l'
   /\ forall jobExperience,
        calculateExperienceMatch (Some l) jobExperience
        = calculateExperienceMatch (Some l') jobExperience)
  /\ calculateTotalExperience (filter ScorerFacts.dated l) = calculateTotalExperience l
  /\ fold_left add_months (l ++ l') 0%Z
     = (fold_left add_months l 0 + fold_left add_months l' 0)%Z.
Proof.
  split; [|split].
  - intros HP.
    assert (Ht : calculateTotalExperience l = calculateTotalExperience l').
    { rewrite !calculateTotalExperience_sum.
      now rewrite (ScorerFacts.total_months_permutation l l' HP). }
    split; [exact Ht|]. intros [je|]; [|reflexivity].
    destruct l as [|x r], l' as [|x' r']; try reflexivity.
    + apply Permutation_nil in HP. discriminate.
    + apply Permutation_sym, Permutation_nil in HP. discriminate.
    + unfold calculateExperienceMatch. rewrite Ht. reflexivity.
  - rewrite !calculateTotalExperience_sum. now rewrite ScorerFacts.total_months_dated.
  - rewrite !fold_add_months, ScorerFacts.total_months_app. lia.
Qed.

Lemma total_experience_invariants_witness :
  calculateTotalExperience
    (two_years ++ [ {| Resume.startDate := None; Resume.endDate := None |} ])
  = calculateTotalExperience
      ({| Resume.startDate := None; Resume.endDate := None |} :: two_years).
Proof.
  apply (proj1 (total_experience_invariants
                  (two_years ++ [ {| Resume.startDate := None; Resume.endDate := None |} ])
                  ({| Resume.startDate := None; Resume.endDate := None |} :: two_years))).
  apply Permutation_sym. apply (Permutation_cons_append two_years).
Defined.

(** ** The match breakdown *)

Module BreakdownFacts.

Lemma filter_nil_iff {A} (p : A -> bool) (l : list A) :
  filter p l = [] <-> forall x, In x l -> p x = false.
Proof.
  induction l as [|a l IH]; simpl.
  - split; [intros _ x []|reflexivity].
  - destruct (p a) eqn:E.
    + split; [discriminate|]. intros H. specialize (H a (or_introl eq_refl)). congruence.
    + rewrite IH. split.
      * intros H x [<-|Hx]; auto.
      * intros H x Hx. apply H. now right.
Qed.

Lemma filter_length_le {A} (p : A -> bool) (l : list A) :
  (List.length (filter p l) <= List.length l)%nat.
Proof.
  induction l as [|a l IH]; simpl; [lia|]. destruct (p a); simpl; lia.
Qed.

Lemma filter_all_iff {A} (p : A -> bool) (l : list A) :
  filter p l = l <-> forall x, In x l -> p x = true.
Proof.
  induction l as [|a l IH]; simpl.
  - split; [intros _ x []|reflexivity].
  - destruct (p a) eqn:E.
    + split.
      * intros [= H] x [<-|Hx]; [exact E|]. now apply IH.
      * intros H. f_equal. apply IH. intros x Hx. apply H. now right.
    + split.
      * intros H. exfalso.
        pose proof (filter_length_le p l) as Hl. rewrite H in Hl. simpl in Hl. lia.
      * intros H. specialize (H a (or_introl eq_refl)). congruence.
Qed.

Lemma filter_split_permutation {A} (p : A -> bool) (l : list A) :
  Permutation (filter p l ++ filter (fun x => negb (p x)) l) l.
Proof.
  induction l as [|a l IH]; simpl; [constructor|].
  destruct (p a); simpl.
  - now constructor.
  - apply Permutation_sym. apply Permutation_cons_app. now apply Permutation_sym.
Qed.

(** *** Tests that can throw *)

Lemma some_of_total {A} (test : A -> outcome bool) (f : A -> bool) (l : list A) :
  (forall x, In x l -> test x = Return (f x)) -> some_of test l = Return (existsb f l).
Proof.
  induction l as [|a l IH]; intros H; [reflexivity|].
  cbn [some_of existsb]. rewrite (H a (or_introl eq_refl)). cbn [obind].
  destruct (f a); [reflexivity|]. apply IH. intros x Hx. apply H. now right.
Qed.

Lemma filter_of_total {A} (test : A -> outcome bool) (f : A -> bool) (l : list A) :
  (forall x, In x l -> test x = Return (f x)) -> filter_of test l = Return (filter f l).
Proof.
  induction l as [|a l IH]; intros H; [reflexivity|].
  cbn [filter_of filter]. rewrite (H a (or_introl eq_refl)). cbn [obind].
  rewrite IH by (intros x Hx; apply H; now right). cbn [obind].
  destruct (f a); reflexivity.
Qed.

(** A test that returns or throws [e]. *)
Definition throws_only {A} (e : exn) (o : outcome A) : Prop :=
  (exists a, o = Return a) \/ o = Throw e.

Lemma some_of_cases {A} (test : A -> outcome bool) (e : exn) (l : list A) :
  (forall x, In x l -> throws_only e (test x)) -> throws_only e (some_of test l).
Proof.
  induction l as [|a l IH]; intros H; [left; now exists false|].
  cbn [some_of]. destruct (H a (or_introl eq_refl)) as [[hit ->]| ->]; cbn [obind].
  - destruct hit; [left; now exists true|]. apply IH. intros x Hx. apply H. now right.
  - now right.
Qed.

Lemma none_of_cases {A} (test : A -> outcome bool) (e : exn) (l : list A) :
  (forall x, In x l -> throws_only e (test x)) -> throws_only e (none_of test l).
Proof.
  intros H. unfold none_of.
  destruct (some_of_cases test e l H) as [[hit ->]| ->]; cbn [obind].
  - left. now eexists.
  - now right.
Qed.

Lemma filter_of_cases {A} (test : A -> outcome bool) (e : exn) (l : list A) :
  (forall x, In x l -> throws_only e (test x)) -> throws_only e (filter_of test l).
Proof.
  induction l as [|a l IH]; intros H; [left; now exists []|].
  cbn [filter_of]. destruct (H a (or_introl eq_refl)) as [[keep ->]| ->]; cbn [obind].
  - destruct (IH (fun x Hx => H x (or_intror Hx))) as [[kept ->]| ->]; cbn [obind].
    + left. now eexists.
    + now right.
  - now right.
Qed.

Lemma filter_of_throws {A} (test : A -> outcome bool) (e : exn) (l : list A) :
  (forall x, In x l -> throws_only e (test x)) ->
  (exists x, In x l /\ test x = Throw e) ->
  filter_of test l = Throw e.
Proof.
  induction l as [|a l IH]; intros H [x [Hin Hx]]; [destruct Hin|].
  cbn [filter_of]. destruct (H a (or_introl eq_refl)) as [[keep Ha]| ->]; [|reflexivity].
  rewrite Ha. cbn [obind]. rewrite IH; [reflexivity| |].
  - intros y Hy. apply H. now right.
  - destruct Hin as [<-|Hin]; [congruence|now exists x].
Qed.

(** *** Names that may be missing *)

Definition all_named (l : list (option string)) : Prop := forall x, In x l -> x <> None.

Lemma all_named_dec (l : list (option string)) : all_named l \/ In None l.
Proof.
  induction l as [|[n|] l [IH|IH]].
  - left. intros x [].
  - left. intros x [<-|Hx]; [discriminate|now apply IH].
  - right. now right.
  - right. now left.
  - right. now left.
Qed.

Lemma all_named_map {A} (name : A -> option string) (l : list A) :
  SkillsFacts.named name l <-> all_named (map name l).
Proof.
  unfold SkillsFacts.named, all_named. split.
  - intros H x Hx. apply in_map_iff in Hx. destruct Hx as [s [<- Hs]]. now apply H.
  - intros H s Hs. apply H. now apply in_map.
Qed.

(** [related_names] where it returns, and [false] elsewhere. *)
Definition related_or_not (a b : option string) : bool :=
  match a, b with
  | Some a, Some b => related a b
  | _, _ => false
  end.

Lemma related_or_not_true (a b : option string) :
  related_or_not a b = true <-> related_names a b = Return true.
Proof.
  destruct a as [a|], b as [b|]; simpl; split; try discriminate.
  - now intros ->.
  - now intros [= ->].
Qed.

Lemma related_names_cases (a b : option string) :
  throws_only (cannot_read "toLowerCase") (related_names a b).
Proof. destruct a, b; simpl; [left; now eexists|now right..]. Qed.

Lemma related_names_named (a b : option string) :
  a <> None -> b <> None -> related_names a b = Return (related_or_not a b).
Proof. destruct a, b; simpl; congruence. Qed.

(** The names on which the three filters of the breakdown run without a
    throw: one of the lists is empty, or every skill has a name. *)
Definition lists_ok (names wanted : list (option string)) : Prop :=
  names = [] \/ wanted = [] \/ (all_named names /\ all_named wanted).

Lemma lists_ok_dec names wanted : lists_ok names wanted \/ ~ lists_ok names wanted.
Proof.
  unfold lists_ok. destruct names as [|n ns]; [now left; left|].
  destruct wanted as [|w ws]; [now left; right; left|].
  destruct (all_named_dec (n :: ns)) as [Hn|Hn], (all_named_dec (w :: ws)) as [Hw|Hw].
  - left. right. right. now split.
  - right. intros [H|[H|[_ H]]]; try discriminate. now apply (H None Hw).
  - right. intros [H|[H|[H _]]]; try discriminate. now apply (H None Hn).
  - right. intros [H|[H|[H _]]]; try discriminate. now apply (H None Hn).
Qed.

Section Filters.

Variables names wanted : list (option string).

Definition matched_test (skill : option string) : outcome bool :=
  some_of (fun jobSkill => related_names skill jobSkill) wanted.

Definition missing_test (jobSkill : option string) : outcome bool :=
  none_of (fun skill => related_names skill jobSkill) names.

Definition extra_test (skill : option string) : outcome bool :=
  none_of (fun jobSkill => related_names skill jobSkill) wanted.

Lemma filters_return :
  lists_ok names wanted ->
  filter_of matched_test names
  = Return (filter (fun skill => existsb (related_or_not skill) wanted) names)
  /\ filter_of missing_test wanted
     = Return (filter (fun jobSkill =>
                         negb (existsb (fun skill => related_or_not skill jobSkill) names))
                      wanted)
  /\ filter_of extra_test names
     = Return (filter (fun skill => negb (existsb (related_or_not skill) wanted)) names).
Proof.
  intros Hok.
  assert (Hm : forall s, In s names ->
                 some_of (fun j => related_names s j) wanted
                 = Return (existsb (related_or_not s) wanted)).
  { intros s Hs. apply some_of_total. intros j Hj.
    destruct Hok as [->|[->|[Hn Hw]]]; [destruct Hs|destruct Hj|].
    apply related_names_named; [now apply Hn|now apply Hw]. }
  assert (Hw : forall j, In j wanted ->
                 some_of (fun s => related_names s j) names
                 = Return (existsb (fun s => related_or_not s j) names)).
  { intros j Hj. apply some_of_total. intros s Hs.
    destruct Hok as [->|[->|[Hn Hw]]]; [destruct Hs|destruct Hj|].
    apply related_names_named; [now apply Hn|now apply Hw]. }
  split; [|split].
  - apply filter_of_total. exact Hm.
  - apply filter_of_total. intros j Hj. unfold missing_test, none_of.
    now rewrite (Hw j Hj).
  - apply filter_of_total. intros s Hs. unfold extra_test, none_of.
    now rewrite (Hm s Hs).
Qed.

Lemma filters_throw :
  ~ lists_ok names wanted ->
  filter_of matched_test names = Throw (cannot_read "toLowerCase")
  \/ exists matchedSkills,
       filter_of matched_test names = Return matchedSkills
       /\ filter_of missing_test wanted = Throw (cannot_read "toLowerCase").
Proof.
  intros Hno.
  assert (Hmc : forall s, throws_only (cannot_read "toLowerCase") (matched_test s)).
  { intros s. apply some_of_cases. intros j _. apply related_names_cases. }
  assert (Hwc : forall j, throws_only (cannot_read "toLowerCase") (missing_test j)).
  { intros j. apply none_of_cases. intros s _. apply related_names_cases. }
  destruct names as [|n ns] eqn:En; [elim Hno; now left|].
  destruct wanted as [|w ws] eqn:Ew; [elim Hno; now right; left|].
  rewrite <- En, <- Ew in *.
  destruct (all_named_dec names) as [Hn|Hn].
  - destruct (all_named_dec wanted) as [Hw|Hw];
      [elim Hno; right; right; now split|].
    destruct (filter_of_cases matched_test (cannot_read "toLowerCase") names
                (fun s _ => Hmc s)) as [[m Hm]|Hm]; [|now left].
    right. exists m. split; [exact Hm|].
    apply filter_of_throws; [intros j _; apply Hwc|].
    exists None. split; [exact Hw|].
    unfold missing_test, none_of. rewrite En. cbn [some_of].
    destruct n; reflexivity.
  - left. apply filter_of_throws; [intros s _; apply Hmc|].
    exists None. split; [exact Hn|].
    unfold matched_test. rewrite Ew. reflexivity.
Qed.

End Filters.

(** The error entry of the breakdown's [catch] block. *)
Definition breakdown_error (e : exn) : entry :=
  (console_error, [Text "Match breakdown generation error:"; Thrown e]).

(** What the breakdown reads: both skills lists, with a name on every skill
    unless one of the lists is empty, the experience list, the job's
    location, and an education score that is computed without a throw. *)
Definition complete (resume : Resume.t) (job : Job.t) : Prop :=
  (exists rs js,
     Resume.skills (Resume.extractedData resume) = Some rs
     /\ Job.skills (Job.requirements job) = Some js
     /\ (rs = [] \/ js = []
         \/ ((forall skill, In skill rs -> Resume.name skill <> None)
             /\ (forall skill, In skill js -> Job.name skill <> None))))
  /\ Resume.experience (Resume.extractedData resume) <> None
  /\ (exists d, calculateEducationMatch (Resume.education (Resume.extractedData resume))
                                       (Job.education (Job.requirements job)) = Return d)
  /\ Job.location job <> None.

Lemma lists_ok_skills (rs : list Resume.skill) (js : list Job.skill) :
  lists_ok (map Resume.name rs) (map Job.name js)
  <-> (rs = [] \/ js = []
       \/ ((forall skill, In skill rs -> Resume.name skill <> None)
           /\ (forall skill, In skill js -> Job.name skill <> None))).
Proof.
  unfold lists_ok. split.
  - intros [H|[H|[Hn Hw]]].
    + left. now destruct rs.
    + right. left. now destruct js.
    + right. right. split.
      * now apply (all_named_map Resume.name rs).
      * now apply (all_named_map Job.name js).
  - intros [->|[->|[Hn Hw]]]; [now left|now right; left|].
    right. right. split.
    + now apply (all_named_map Resume.name rs).
    + now apply (all_named_map Job.name js).
Qed.

Lemma breakdown_of_complete resume job matchScore :
  (exists b, breakdown_of resume job matchScore = Return b) <-> complete resume job.
Proof.
  unfold breakdown_of, complete, resume_skill_names, job_skill_names, total_experience_of.
  destruct (Resume.skills (Resume.extractedData resume)) as [rs|]; cbn [obind];
    [|split; [intros [b H]; discriminate|intros [[? [? [H _]]] _]; discriminate]].
  destruct (Job.skills (Job.requirements job)) as [js|]; cbn [obind];
    [|split; [intros [b H]; discriminate|intros [[? [? [_ [H _]]]] _]; discriminate]].
  fold (matched_test (map Job.name js)).
  fold (missing_test (map Resume.name rs)).
  fold (extra_test (map Job.name js)).
  destruct (lists_ok_dec (map Resume.name rs) (map Job.name js)) as [Hok|Hno].
  - destruct (filters_return _ _ Hok) as (-> & -> & ->). cbn [obind].
    destruct (Resume.experience (Resume.extractedData resume)) as [ex|]; cbn [obind];
      [|split; [intros [b H]; discriminate|intros [_ [H _]]; congruence]].
    destruct (calculateEducationMatch (Resume.education (Resume.extractedData resume))
                (Job.education (Job.requirements job))) as [d|e]; cbn [obind];
      [|split; [intros [b H]; discriminate|intros [_ [_ [[d H] _]]]; discriminate]].
    destruct (Job.location job) as [loc|];
      [|split; [intros [b H]; discriminate|intros [_ [_ [_ H]]]; congruence]].
    split.
    + intros _. split; [|repeat split; try discriminate; now exists d].
      exists rs, js. repeat split. now apply lists_ok_skills.
    + intros _. eexists. reflexivity.
  - split.
    + intros [b H]. exfalso.
      destruct (filters_throw _ _ Hno) as [Hm|[m [Hm Hw]]]; rewrite Hm in H;
        cbn [obind] in H; [discriminate|]. rewrite Hw in H. discriminate.
    + intros [[rs' [js' [[= <-] [[= <-] H]]]] _]. elim Hno. now apply lists_ok_skills.
Qed.

End BreakdownFacts.

(** X7.  The breakdown never throws.  It returns the full breakdown and logs
    nothing exactly when the résumé has a skills list and an experience
    list, the job has a skills list and a location, the education score can
    be computed, and every skill on both sides has a name or one of the two
    skills lists is empty; in every other case (a skill without a name
    among them) it logs one error and returns the empty object. *)
Theorem breakdown_never_throws (resume : Resume.t) (job : Job.t) (matchScore : scores) :
  let run := generateMatchBreakdown resume job matchScore in
  (BreakdownFacts.complete resume job -> exists b, run = ([], Return (Some b)))
  /\ (~ BreakdownFacts.complete resume job ->
      exists e, run = ([BreakdownFacts.breakdown_error e], Return None)).
Proof.
  intros run. unfold run, generateMatchBreakdown.
  pose proof (BreakdownFacts.breakdown_of_complete resume job matchScore) as Hc.
  destruct (breakdown_of resume job matchScore) as [b|e]; simpl.
  - split; [intros _; now exists b|]. intros Hn. elim Hn. apply Hc. now exists b.
  - split; [|intros _; now exists e]. intros H. apply Hc in H.
    destruct H as [b H]. discriminate.
Qed.

(** A job without a location, and a résumé with a skill that has no name. *)
Lemma breakdown_never_throws_witness :
  (exists e,
     generateMatchBreakdown anonymous_resume
       {| Job.embedding := None;
          Job.requirements := Job.requirements onsite_job;
          Job.location := None |}
       zero_scores
     = ([BreakdownFacts.breakdown_error e], Return None))
  /\ (exists e,
        generateMatchBreakdown
          {| Resume.skillsEmbedding := None;
             Resume.extractedData := {|
               Resume.skills := Some [ {| Resume.name := Some "Python"%string |};
                                       {| Resume.name := None |} ];
               Resume.experience := Some [];
               Resume.education := Some [];
               Resume.personalInfo := None |} |}
          onsite_job zero_scores
        = ([BreakdownFacts.breakdown_error e], Return None))
  /\ (exists b,
        generateMatchBreakdown anonymous_resume onsite_job zero_scores
        = ([], Return (Some b))).
Proof.
  split; [|split].
  - apply (proj2 (breakdown_never_throws anonymous_resume
                    {| Job.embedding := None;
                       Job.requirements := Job.requirements onsite_job;
                       Job.location := None |}
                    zero_scores)).
    intros [_ [_ [_ H]]]. now apply H.
  - apply (proj2 (breakdown_never_throws
                    {| Resume.skillsEmbedding := None;
                       Resume.extractedData := {|
                         Resume.skills := Some [ {| Resume.name := Some "Python"%string |};
                                                 {| Resume.name := None |} ];
                         Resume.experience := Some [];
                         Resume.education := Some [];
                         Resume.personalInfo := None |} |}
                    onsite_job zero_scores)).
    intros [[rs [js [[= <-] [[= <-] [H|[H|[H _]]]]]]] _]; try discriminate.
    apply (H {| Resume.name := None |}); [right; left; reflexivity|reflexivity].
  - apply (proj1 (breakdown_never_throws anonymous_resume onsite_job zero_scores)).
    split.
    + exists [ {| Resume.name := Some "Python"%string |} ],
             [ {| Job.name := Some "Python"%string |} ].
      split; [reflexivity|]. split; [reflexivity|]. right. right.
      split; intros s [<-|[]]; discriminate.
    + split; [discriminate|]. split; [now eexists|discriminate].
Defined.

(** X8.  In a breakdown, the matched and the extra skills together are the
    résumé's skills (each résumé skill is in exactly one of the two lists,
    in résumé order); a job skill is missing exactly when no résumé skill
    contains it or is contained in it, ignoring case; and no résumé skill is
    matched exactly when every job skill is missing. *)
Theorem breakdown_skill_lists
  (resume : Resume.t) (job : Job.t) (matchScore : scores) (b : Breakdown.t)
  (rs : list Resume.skill) (js : list Job.skill) :
  Resume.skills (Resume.extractedData resume) = Some rs ->
  Job.skills (Job.requirements job) = Some js ->
  result (generateMatchBreakdown resume job matchScore) = Return (Some b) ->
  let names := map Resume.name rs in
  let wanted := map Job.name js in
  let lists := Breakdown.skillsMatch b in
  Permutation (Breakdown.matchedSkills lists ++ Breakdown.extraSkills lists) names
  /\ (forall s, In s (Breakdown.matchedSkills lists)
                <-> In s names /\ exists j, In j wanted /\ related_names s j = Return true)
  /\ (forall s, In s (Breakdown.extraSkills lists)
                <-> In s names /\ ~ In s (Breakdown.matchedSkills lists))
  /\ (forall j, In j (Breakdown.missingSkills lists)
                <-> In j wanted
                    /\ forall s, In s names -> related_names s j <> Return true)
  /\ (Breakdown.matchedSkills lists = [] <-> Breakdown.missingSkills lists = wanted).
Proof.
  intros Hrs Hjs Hb.
  assert (Hok : BreakdownFacts.lists_ok (map Resume.name rs) (map Job.name js)).
  { assert (Hc : BreakdownFacts.complete resume job).
    { apply (BreakdownFacts.breakdown_of_complete resume job matchScore).
      unfold generateMatchBreakdown in Hb.
      destruct (breakdown_of resume job matchScore) as [b'|e]; [now exists b'|].
      discriminate. }
    destruct Hc as [[rs' [js' [Hrs' [Hjs' H]]]] _].
    rewrite Hrs in Hrs'. rewrite Hjs in Hjs'.
    injection Hrs' as <-. injection Hjs' as <-.
    now apply BreakdownFacts.lists_ok_skills. }
  revert Hb. unfold generateMatchBreakdown, breakdown_of.
  unfold resume_skill_names, job_skill_names. rewrite Hrs, Hjs. cbn [obind].
  fold (BreakdownFacts.matched_test (map Job.name js)).
  fold (BreakdownFacts.missing_test (map Resume.name rs)).
  fold (BreakdownFacts.extra_test (map Job.name js)).
  destruct (BreakdownFacts.filters_return _ _ Hok) as (-> & -> & ->). cbn [obind].
  destruct (total_experience_of resume) as [actual|e]; [cbn [obind]|discriminate].
  destruct (calculateEducationMatch (Resume.education (Resume.extractedData resume))
              (Job.education (Job.requirements job))) as [d|e]; [cbn [obind]|discriminate].
  destruct (Job.location job) as [loc|]; [|discriminate].
  intros Hb. assert (Hb' : Some b = Some b) by reflexivity. revert Hb'.
  injection Hb as <-. intros _. simpl.
  set (names := map Resume.name rs). set (wanted := map Job.name js).
  assert (Hrel : forall s j, BreakdownFacts.related_or_not s j = false
                             <-> related_names s j <> Return true).
  { intros s j. rewrite <- BreakdownFacts.related_or_not_true.
    destruct (BreakdownFacts.related_or_not s j); split; congruence. }
  split; [apply BreakdownFacts.filter_split_permutation|].
  split; [|split; [|split]].
  - intros s. rewrite filter_In, existsb_exists.
    split; intros [Hin [j [Hj Hr]]]; (split; [exact Hin|]); exists j;
      (split; [exact Hj|]); now apply BreakdownFacts.related_or_not_true.
  - intros s. rewrite !filter_In, negb_true_iff. split.
    + intros [Hin Hex]. split; [exact Hin|]. intros [_ H]. congruence.
    + intros [Hin Hno]. split; [exact Hin|].
      destruct (existsb (BreakdownFacts.related_or_not s) wanted) eqn:E; [|reflexivity].
      elim Hno. now split.
  - intros j. rewrite filter_In, negb_true_iff. split.
    + intros [Hin Hex]. split; [exact Hin|]. intros s Hs. apply Hrel.
      destruct (BreakdownFacts.related_or_not s j) eqn:E; [|reflexivity].
      assert (existsb (fun skill => BreakdownFacts.related_or_not skill j) names = true)
        by (apply existsb_exists; now exists s).
      congruence.
    + intros [Hin Hno]. split; [exact Hin|].
      destruct (existsb (fun skill => BreakdownFacts.related_or_not skill j) names) eqn:E;
        [|reflexivity].
      apply existsb_exists in E. destruct E as [s [Hs Hr]].
      pose proof (proj2 (Hrel s j) (Hno s Hs)). congruence.
  - rewrite BreakdownFacts.filter_nil_iff, BreakdownFacts.filter_all_iff. split.
    + intros H j Hj. apply negb_true_iff.
      destruct (existsb (fun skill => BreakdownFacts.related_or_not skill j) names) eqn:E;
        [|reflexivity].
      apply existsb_exists in E. destruct E as [s [Hs Hr]].
      specialize (H s Hs).
      assert (existsb (BreakdownFacts.related_or_not s) wanted = true)
        by (apply existsb_exists; now exists j).
      congruence.
    + intros H s Hs.
      destruct (existsb (BreakdownFacts.related_or_not s) wanted) eqn:E; [|reflexivity].
      apply existsb_exists in E. destruct E as [j [Hj Hr]].
      specialize (H j Hj). apply negb_true_iff in H.
      assert (existsb (fun skill => BreakdownFacts.related_or_not skill j) names = true)
        by (apply existsb_exists; now exists s).
      congruence.
Qed.

Lemma breakdown_skill_lists_witness :
  exists b,
    result (generateMatchBreakdown anonymous_resume onsite_job zero_scores)
    = Return (Some b)
    /\ Permutation (Breakdown.matchedSkills (Breakdown.skillsMatch b)
                    ++ Breakdown.extraSkills (Breakdown.skillsMatch b))
                   [Some "Python"%string].
Proof.
  eexists. split; [reflexivity|].
  apply (proj1 (breakdown_skill_lists anonymous_resume onsite_job zero_scores _
                  [ {| Resume.name := Some "Python"%string |} ]
                  [ {| Job.name := Some "Python"%string |} ]
                  eq_refl eq_refl eq_refl)).
Defined.

(** ** The heuristic insights *)

Module InsightsFacts.

Lemma when_length (cond : bool) (item : string) : (List.length (when cond item) <= 1)%nat.
Proof. destruct cond; simpl; lia. Qed.

Lemma firstn_length_le {A} (n : nat) (l : list A) : (List.length (firstn n l) <= n)%nat.
Proof. rewrite length_firstn. lia. Qed.

Lemma In_firstn {A} (n : nat) (l : list A) (x : A) : In x (firstn n l) -> In x l.
Proof.
  revert l. induction n as [|n IH]; intros [|a l]; simpl; try tauto.
  intros [H|H]; auto.
Qed.

(** [lower_names] returns exactly the lower-cased names, when every skill
    has one. *)
Lemma lower_names_spec {A} (name : A -> option string) (skills : list A)
  (names : list string) :
  lower_names name skills = Return names
  <-> map (fun skill => option_map JSString.toLowerCase (name skill)) skills
      = map Some names.
Proof.
  revert names. induction skills as [|skill rest IH]; intros names; cbn [lower_names map].
  - split.
    + intros [= <-]. reflexivity.
    + destruct names; [reflexivity|discriminate].
  - destruct (name skill) as [n|]; cbn [option_map].
    + destruct (lower_names name rest) as [lowered|e]; cbn [obind].
      * split.
        -- intros [= <-]. cbn [map]. f_equal. now apply IH.
        -- destruct names as [|x xs]; [discriminate|]. cbn [map]. intros [= <- H].
           apply IH in H. injection H as <-. reflexivity.
      * split; [discriminate|].
        destruct names as [|x xs]; [discriminate|]. cbn [map]. intros [= <- H].
        apply IH in H. discriminate.
    + split; [discriminate|]. destruct names; discriminate.
Qed.

(** The job skills that no résumé skill covers. *)
Definition uncovered (have wanted : list string) : list string :=
  filter (fun jobSkill => negb (covered have jobSkill)) wanted.

(** The insights behind the [Return], for documents that have what the
    function reads. *)
Lemma fallback_insights_fields resume job matchScore ins rs js :
  Resume.skills (Resume.extractedData resume) = Some rs ->
  Job.skills (Job.requirements job) = Some js ->
  generateFallbackInsights resume job matchScore = Return ins ->
  exists have wanted,
    lower_names Resume.name rs = Return have
    /\ lower_names Job.name js = Return wanted
    /\ let missing := uncovered have wanted in
       Insights.skillGaps ins = map gap_of (firstn 3 missing)
       /\ (exists a b, Insights.recommendations ins
                       = a ++ b ++ ["Tailor your resume to highlight relevant achievements";
                                    "Prepare specific examples of your skills in action"]%string
                       /\ (List.length a <= 1)%nat /\ (List.length b <= 1)%nat)
       /\ List.length (Insights.interviewTips ins)
          = (match missing with [] => 3 | _ :: _ => 4 end)%nat
       /\ (List.length (Insights.strengths ins) <= 4)%nat
       /\ (List.length (Insights.weaknesses ins) <= 3)%nat.
Proof.
  intros Hrs Hjs. unfold generateFallbackInsights, lowered_resume_skills, lowered_job_skills.
  rewrite Hrs, Hjs.
  destruct (lower_names Resume.name rs) as [have|e]; [cbn [obind]|discriminate].
  destruct (lower_names Job.name js) as [wanted|e]; [cbn [obind]|discriminate].
  cbv zeta. fold (uncovered have wanted).
  destruct (location_is_weak job matchScore) as [weak|e]; [cbn [obind]|discriminate].
  intros [= <-]. exists have, wanted. split; [reflexivity|]. split; [reflexivity|].
  cbv zeta. cbn [Insights.skillGaps Insights.recommendations Insights.interviewTips
                 Insights.strengths Insights.weaknesses].
  split; [reflexivity|]. split; [|split; [|split]].
  - eexists _, _. split; [reflexivity|]. split; apply when_length.
  - destruct (uncovered have wanted); reflexivity.
  - rewrite !length_app.
    repeat match goal with
           | |- context [List.length (when ?c ?i)] =>
               let H := fresh in
               pose proof (when_length c i) as H;
               generalize dependent (List.length (when c i)); intros
           end.
    lia.
  - rewrite !length_app.
    repeat match goal with
           | |- context [List.length (when ?c ?i)] =>
               let H := fresh in
               pose proof (when_length c i) as H;
               generalize dependent (List.length (when c i)); intros
           end.
    lia.
Qed.

End InsightsFacts.

(** X9.  Shape of the heuristic insights.  Whenever they are produced there
    are between two and four recommendations, the last two being the two
    fixed ones; three interview tips, and a fourth exactly when some job
    skill is not covered; at most four strengths, three weaknesses and three
    skill gaps. *)
Theorem fallback_insights_shape
  (resume : Resume.t) (job : Job.t) (matchScore : scores) (ins : Insights.t) :
  generateFallbackInsights resume job matchScore = Return ins ->
  (2 <= List.length (Insights.recommendations ins) <= 4)%nat
  /\ (exists others,
        Insights.recommendations ins
        = others ++ ["Tailor your resume to highlight relevant achievements";
                     "Prepare specific examples of your skills in action"]%string)
  /\ (3 <= List.length (Insights.interviewTips ins) <= 4)%nat
  /\ (List.length (Insights.interviewTips ins) = 4%nat
      <-> Insights.skillGaps ins <> [])
  /\ (List.length (Insights.strengths ins) <= 4)%nat
  /\ (List.length (Insights.weaknesses ins) <= 3)%nat
  /\ (List.length (Insights.skillGaps ins) <= 3)%nat.
Proof.
  intros H.
  destruct (Resume.skills (Resume.extractedData resume)) as [rs|] eqn:Hrs;
    [|unfold generateFallbackInsights, lowered_resume_skills in H;
      rewrite Hrs in H; discriminate].
  destruct (Job.skills (Job.requirements job)) as [js|] eqn:Hjs;
    [|unfold generateFallbackInsights, lowered_resume_skills, lowered_job_skills in H;
      rewrite Hrs, Hjs in H; destruct (lower_names Resume.name rs); discriminate].
  destruct (InsightsFacts.fallback_insights_fields resume job matchScore ins rs js Hrs Hjs H)
    as [have [wanted [_ [_ [Hg [[a [b [Hr [Ha Hb]]]] [Ht [Hs Hw]]]]]]]].
  split; [rewrite Hr, !length_app; simpl; lia|].
  split; [exists (a ++ b); rewrite Hr, <- app_assoc; reflexivity|].
  split; [rewrite Ht; destruct (InsightsFacts.uncovered have wanted); lia|].
  split; [|split; [exact Hs|split; [exact Hw|]]].
  - rewrite Ht, Hg. destruct (InsightsFacts.uncovered have wanted); simpl.
    + split; [discriminate|]. intros E. now elim E.
    + split; [discriminate|reflexivity].
  - rewrite Hg, length_map. apply InsightsFacts.firstn_length_le.
Qed.

(** Documents with two uncovered job skills out of three. *)
Definition python_resume : Resume.t := {|
  Resume.skillsEmbedding := None;
  Resume.extractedData := {|
    Resume.skills := Some [ {| Resume.name := Some "Python 3"%string |} ];
    Resume.experience := Some two_years;
    Resume.education := Some [];
    Resume.personalInfo := Some {| Resume.location := Some "Chennai"%string |}
  |}
|}.

Definition backend_job : Job.t := {|
  Job.embedding := None;
  Job.requirements := {|
    Job.skills := Some [ {| Job.name := Some "python"%string |}; {| Job.name := Some "Docker"%string |};
                         {| Job.name := Some "SQL"%string |} ];
    Job.experience := None;
    Job.education := None
  |};
  Job.location := Some {| Job.remote := false; Job.city := Some "Chennai"%string |}
|}.

Definition backend_scores : scores := {|
  skillsMatch := 33%float;
  experienceMatch := 100%float;
  educationMatch := 100%float;
  locationMatch := 100%float;
  overallScore := 73%float
|}.

Lemma fallback_insights_shape_witness :
  exists ins,
    generateFallbackInsights python_resume backend_job backend_scores = Return ins
    /\ (2 <= List.length (Insights.recommendations ins) <= 4)%nat.
Proof.
  eexists. split; [reflexivity|].
  apply (proj1 (fallback_insights_shape python_resume backend_job backend_scores _ eq_refl)).
Defined.

(** X10.  The skill gaps of the heuristic insights are the first three job
    skills, lower-cased and in job order, that no lower-cased résumé skill
    contains or is contained in; every gap has importance 5, current level
    Beginner and required level Intermediate.  There is no gap exactly when
    every job skill is covered.  (When the insights are produced every
    skill has a name: [have] and [wanted] are the lower-cased names.) *)
Theorem fallback_insights_gaps
  (resume : Resume.t) (job : Job.t) (matchScore : scores) (ins : Insights.t)
  (rs : list Resume.skill) (js : list Job.skill) :
  Resume.skills (Resume.extractedData resume) = Some rs ->
  Job.skills (Job.requirements job) = Some js ->
  generateFallbackInsights resume job matchScore = Return ins ->
  exists have wanted : list string,
    map (fun s => option_map JSString.toLowerCase (Resume.name s)) rs = map Some have
    /\ map (fun s => option_map JSString.toLowerCase (Job.name s)) js = map Some wanted
    /\ map Insights.skill (Insights.skillGaps ins)
       = firstn 3 (filter (fun j => negb (covered have j)) wanted)
    /\ (forall g, In g (Insights.skillGaps ins) ->
          Insights.importance g = 5%Z
          /\ Insights.currentLevel g = "Beginner"%string
          /\ Insights.requiredLevel g = "Intermediate"%string
          /\ In (Insights.skill g) wanted
          /\ forall r, In r have ->
               JSString.includes r (Insights.skill g) = false
               /\ JSString.includes (Insights.skill g) r = false)
    /\ (Insights.skillGaps ins = []
        <-> forall j, In j wanted ->
              exists r, In r have
                        /\ (JSString.includes r j = true \/ JSString.includes j r = true)).
Proof.
  intros Hrs Hjs H.
  destruct (InsightsFacts.fallback_insights_fields resume job matchScore ins rs js Hrs Hjs H)
    as [have [wanted [Hhave [Hwanted [Hg _]]]]].
  exists have, wanted.
  split; [now apply InsightsFacts.lower_names_spec|].
  split; [now apply InsightsFacts.lower_names_spec|].
  unfold InsightsFacts.uncovered in Hg.
  rewrite Hg. split; [|split].
  - rewrite map_map. simpl. apply map_id.
  - intros g Hin. apply in_map_iff in Hin. destruct Hin as [s [<- Hs]]. simpl.
    repeat split.
    + apply InsightsFacts.In_firstn, filter_In in Hs. tauto.
    + apply InsightsFacts.In_firstn, filter_In in Hs. destruct Hs as [_ Hs].
      apply negb_true_iff in Hs.
      destruct (JSString.includes r s) eqn:E; [|reflexivity].
      assert (covered have s = true).
      { apply existsb_exists. exists r. split; [assumption|]. now rewrite E. }
      congruence.
    + apply InsightsFacts.In_firstn, filter_In in Hs. destruct Hs as [_ Hs].
      apply negb_true_iff in Hs.
      destruct (JSString.includes s r) eqn:E; [|reflexivity].
      assert (covered have s = true).
      { apply existsb_exists. exists r. split; [assumption|]. rewrite E. apply orb_true_r. }
      congruence.
  - split.
    + intros E j Hj.
      assert (Hnil : filter (fun j => negb (covered have j)) wanted = []).
      { destruct (filter (fun j => negb (covered have j)) wanted); [reflexivity|].
        discriminate. }
      pose proof (proj1 (BreakdownFacts.filter_nil_iff _ _) Hnil j Hj) as Hc.
      apply negb_false_iff, existsb_exists in Hc. destruct Hc as [r [Hr Hc]].
      exists r. split; [exact Hr|]. now apply orb_true_iff.
    + intros Hall.
      assert (Hnil : filter (fun j => negb (covered have j)) wanted = []).
      { apply BreakdownFacts.filter_nil_iff. intros j Hj. apply negb_false_iff.
        destruct (Hall j Hj) as [r [Hr Hc]]. apply existsb_exists.
        exists r. split; [exact Hr|]. now apply orb_true_iff. }
      rewrite Hnil. reflexivity.
Qed.

Lemma fallback_insights_gaps_witness :
  exists ins,
    generateFallbackInsights python_resume backend_job backend_scores = Return ins
    /\ map Insights.skill (Insights.skillGaps ins) = ["docker"; "sql"]%string.
Proof.
  eexists. split; [reflexivity|].
  destruct (fallback_insights_gaps python_resume backend_job backend_scores _
              [ {| Resume.name := Some "Python 3"%string |} ]
              [ {| Job.name := Some "python"%string |};
                {| Job.name := Some "Docker"%string |};
                {| Job.name := Some "SQL"%string |} ]
              eq_refl eq_refl eq_refl)
    as [have [wanted [Hhave [Hwanted [Hgaps _]]]]].
  cbn [map option_map Resume.name Job.name] in Hhave, Hwanted.
  destruct have as [|h1 [|h2 hs]]; try discriminate.
  destruct wanted as [|w1 [|w2 [|w3 [|w4 ws]]]]; try discriminate.
  injection Hhave as <-. injection Hwanted as <- <- <-.
  exact Hgaps.
Defined.

(** X11.  The heuristic insights are not guarded.  Without a skills list on
    the résumé the function throws a TypeError, and so it does when a résumé
    skill has no name.  When the résumé's skills all have names, it throws a
    TypeError without a skills list on the job or when a job skill has no
    name.  When the skills of both sides all have names, it throws a
    TypeError if the location score is below 50 and the job has no location,
    and in every other case it returns. *)
Theorem fallback_insights_throws
  (resume : Resume.t) (job : Job.t) (matchScore : scores) :
  let run := generateFallbackInsights resume job matchScore in
  (Resume.skills (Resume.extractedData resume) = None -> run = Throw (cannot_read "map"))
  /\ (forall rs, Resume.skills (Resume.extractedData resume) = Some rs ->
       ((exists skill, In skill rs /\ Resume.name skill = None) ->
        run = Throw (cannot_read "toLowerCase"))
       /\ ((forall skill, In skill rs -> Resume.name skill <> None) ->
           (Job.skills (Job.requirements job) = None -> run = Throw (cannot_read "map"))
           /\ (forall js, Job.skills (Job.requirements job) = Some js ->
                 ((exists skill, In skill js /\ Job.name skill = None) ->
                  run = Throw (cannot_read "toLowerCase"))
                 /\ ((forall skill, In skill js -> Job.name skill <> None) ->
                     (PrimFloat.ltb (locationMatch matchScore) 50%float = true
                      /\ Job.location job = None ->
                      run = Throw (cannot_read "remote"))
                     /\ (PrimFloat.ltb (locationMatch matchScore) 50%float = false
                         \/ Job.location job <> None ->
                         exists ins, run = Return ins))))).
Proof.
  intros run. unfold run, generateFallbackInsights, lowered_resume_skills,
    lowered_job_skills, location_is_weak.
  split; [intros ->; reflexivity|].
  intros rs ->. split.
  - intros Hn. now rewrite (SkillsFacts.lower_names_nameless Resume.name rs Hn).
  - intros Hrs. rewrite (SkillsFacts.lower_names_named Resume.name rs Hrs). cbn [obind].
    split; [intros ->; reflexivity|].
    intros js ->. split.
    + intros Hn. now rewrite (SkillsFacts.lower_names_nameless Job.name js Hn).
    + intros Hjs. rewrite (SkillsFacts.lower_names_named Job.name js Hjs). cbn [obind].
      cbv zeta. split.
      * intros [-> ->]. reflexivity.
      * intros [->|Hl]; [eexists; reflexivity|].
        destruct (Job.location job) as [loc|]; [|congruence].
        destruct (PrimFloat.ltb (locationMatch matchScore) 50%float); eexists; reflexivity.
Qed.

(** A résumé without a skills list, and one with a skill that has no
    name. *)
Lemma fallback_insights_throws_witness :
  generateFallbackInsights
    {| Resume.skillsEmbedding := None;
       Resume.extractedData := {|
         Resume.skills := None;
         Resume.experience := Some two_years;
         Resume.education := Some [];
         Resume.personalInfo := None |} |}
    backend_job backend_scores
  = Throw (cannot_read "map")
  /\ generateFallbackInsights
       {| Resume.skillsEmbedding := None;
          Resume.extractedData := {|
            Resume.skills := Some [ {| Resume.name := None |} ];
            Resume.experience := Some two_years;
            Resume.education := Some [];
            Resume.personalInfo := None |} |}
       backend_job backend_scores
     = Throw (cannot_read "toLowerCase")
  /\ exists ins,
       generateFallbackInsights python_resume backend_job backend_scores = Return ins.
Proof.
  split; [|split].
  - apply (proj1 (fallback_insights_throws
                    {| Resume.skillsEmbedding := None;
                       Resume.extractedData := {|
                         Resume.skills := None;
                         Resume.experience := Some two_years;
                         Resume.education := Some [];
                         Resume.personalInfo := None |} |}
                    backend_job backend_scores)).
    reflexivity.
  - apply (proj1 (proj2 (fallback_insights_throws
                    {| Resume.skillsEmbedding := None;
                       Resume.extractedData := {|
                         Resume.skills := Some [ {| Resume.name := None |} ];
                         Resume.experience := Some two_years;
                         Resume.education := Some [];
                         Resume.personalInfo := None |} |}
                    backend_job backend_scores)
                  [ {| Resume.name := None |} ] eq_refl)).
    exists {| Resume.name := None |}. split; [left; reflexivity|reflexivity].
  - apply (proj2 (proj2 (proj2 (proj2 (proj2 (fallback_insights_throws
                    python_resume backend_job backend_scores)
                  [ {| Resume.name := Some "Python 3"%string |} ] eq_refl)
                  ltac:(intros s [<-|[]]; discriminate))
                  [ {| Job.name := Some "python"%string |};
                    {| Job.name := Some "Docker"%string |};
                    {| Job.name := Some "SQL"%string |} ] eq_refl)
                  ltac:(intros s [<-|[<-|[<-|[]]]]; discriminate))).
    left. reflexivity.
Defined.

(** ** What the sanitizer hands to the parser *)

Module CandidateFacts.

Import JSString Sanitizer SanitizerFacts.

Local Open Scope string_scope.

Lemma indexOf_from_split (c : ascii) (s : string) : forall i,
  (indexOf_from c s i = -1 /\ occurs c s = false)%Z
  \/ exists pre rest,
       s = pre ++ String c rest /\ occurs c pre = false
       /\ indexOf_from c s i = (i + Z.of_nat (String.length pre))%Z.
Proof.
  induction s as [|a r IH]; intros i; simpl.
  - left. split; reflexivity.
  - destruct (Ascii.eqb a c) eqn:E.
    + right. exists EmptyString, r. apply Ascii.eqb_eq in E. subst a.
      simpl. repeat split. lia.
    + destruct (IH (i + 1)%Z) as [[H1 H2]|[pre [rest [H1 [H2 H3]]]]].
      * left. split; [exact H1|exact H2].
      * right. exists (String a pre), rest. simpl. rewrite E, H2, H3.
        repeat split; [now rewrite H1|lia].
Qed.

Lemma lastIndexOf_from_split (c : ascii) (s : string) : forall i last,
  (occurs c s = false /\ lastIndexOf_from c s i last = last)
  \/ exists pre post,
       s = pre ++ String c post /\ occurs c post = false
       /\ lastIndexOf_from c s i last = (i + Z.of_nat (String.length pre))%Z.
Proof.
  induction s as [|a r IH]; intros i last; simpl.
  - left. split; reflexivity.
  - destruct (IH (i + 1)%Z (if Ascii.eqb a c then i else last))
      as [[H1 H2]|[pre [post [H1 [H2 H3]]]]].
    + destruct (Ascii.eqb a c) eqn:E.
      * right. exists EmptyString, r. apply Ascii.eqb_eq in E. subst a.
        simpl. repeat split; [exact H1|]. rewrite H2. lia.
      * left. split; [exact H1|exact H2].
    + right. exists (String a pre), post. simpl. rewrite H3.
      repeat split; [now rewrite H1|exact H2|lia].
Qed.

Lemma append_overlap (o c : ascii) : forall pre1 rest1 pre2 post2,
  pre1 ++ String o rest1 = pre2 ++ String c post2 ->
  (String.length pre1 <= String.length pre2)%nat ->
  o <> c ->
  exists body, rest1 = body ++ String c post2.
Proof.
  induction pre1 as [|a p IH]; intros rest1 pre2 post2 H Hlen Hne.
  - destruct pre2 as [|b q]; simpl in H.
    + injection H as H _. contradiction.
    + injection H as _ H. now exists q.
  - destruct pre2 as [|b q]; simpl in Hlen; [lia|].
    simpl in H. injection H as _ H.
    apply (IH rest1 q post2 H); [lia|exact Hne].
Qed.

(** When the first [o] is not after the last [c], the text is
    [pre o body c post] with no [o] in [pre] and no [c] in [post]. *)
Lemma span_exists (o c : ascii) (s : string) :
  o <> c ->
  indexOf o s <> (-1)%Z -> lastIndexOf c s <> (-1)%Z ->
  (indexOf o s <= lastIndexOf c s)%Z ->
  exists pre body post,
    s = pre ++ String o (body ++ String c post)
    /\ occurs o pre = false /\ occurs c post = false.
Proof.
  intros Hne Hi Hj Hij. unfold indexOf, lastIndexOf in *.
  destruct (indexOf_from_split o s 0) as [[H _]|[pre [rest [Hs [Hpre Hi']]]]];
    [congruence|].
  destruct (lastIndexOf_from_split c s 0 (-1)) as [[_ H]|[pre2 [post [Hs2 [Hpost Hj']]]]];
    [congruence|].
  rewrite Hi', Hj' in Hij.
  destruct (append_overlap o c pre rest pre2 post) as [body Hb]; [congruence|lia|exact Hne|].
  exists pre, body, post. rewrite Hs, Hb. repeat split; assumption.
Qed.

Lemma indexOf_bounds (c : ascii) (s : string) :
  (indexOf c s = -1 \/ 0 <= indexOf c s)%Z.
Proof.
  unfold indexOf. destruct (indexOf_from_split c s 0) as [[H _]|[pre [rest [_ [_ H]]]]];
    [now left|right; lia].
Qed.

(** The fence of a code block. *)
Definition fence : string := "```".

Lemma starts_backtick (p : string) (c : ascii) (r : string) :
  startsWith (String "`"%char p) (String c r) = true ->
  c = "`"%char /\ startsWith p r = true.
Proof.
  cbn [startsWith]. intros H. apply andb_true_iff in H. destruct H as [H1 H2].
  apply Ascii.eqb_eq in H1. now subst c.
Qed.

Lemma strip_step (c : ascii) (r : string) :
  strip_fences_from 0 (String c r)
  = if startsWith "```json" (String c r) then strip_fences_from 6 r
    else if startsWith "```" (String c r) then strip_fences_from 2 r
    else String c (strip_fences_from 0 r).
Proof. reflexivity. Qed.

Lemma strip_head_backtick (s : string) (out : string) :
  strip_fences_from 0 s = String "`"%char out -> exists r, s = String "`"%char r.
Proof.
  destruct s as [|c r]; [discriminate|]. rewrite strip_step.
  destruct (startsWith "```json" (String c r)) eqn:E1.
  - intros _. apply starts_backtick in E1. destruct E1 as [-> _]. now exists r.
  - destruct (startsWith "```" (String c r)) eqn:E2.
    + intros _. apply starts_backtick in E2. destruct E2 as [-> _]. now exists r.
    + intros [= -> _]. now exists r.
Qed.

Lemma fence_at (r : string) :
  startsWith "```" (String "`"%char (String "`"%char (String "`"%char r))) = true.
Proof. reflexivity. Qed.

Lemma strip_skip_no_fence : forall s skip,
  includes (strip_fences_from skip s) fence = false.
Proof.
  induction s as [|c r IH]; intros skip; [destruct skip; reflexivity|].
  destruct skip as [|k]; [|apply IH].
  rewrite strip_step.
  destruct (startsWith "```json" (String c r)) eqn:E1; [apply IH|].
  destruct (startsWith "```" (String c r)) eqn:E2; [apply IH|].
  cbn [includes]. rewrite IH, orb_false_r.
  destruct (startsWith fence (String c (strip_fences_from 0 r))) eqn:E3; [|reflexivity].
  exfalso. unfold fence in E3.
  apply starts_backtick in E3. destruct E3 as [-> E3].
  destruct (strip_fences_from 0 r) as [|a out] eqn:Eo; [discriminate|].
  apply starts_backtick in E3. destruct E3 as [-> E3].
  destruct (strip_head_backtick r out Eo) as [r' ->].
  destruct out as [|b out']; [discriminate|].
  apply starts_backtick in E3. destruct E3 as [-> _].
  (* the second character of the output is the second of the input *)
  rewrite strip_step in Eo.
  destruct (startsWith "```json" (String "`"%char r')) eqn:F1.
  { apply starts_backtick in F1. destruct F1 as [_ F1].
    destruct r' as [|x r'']; [discriminate|].
    apply starts_backtick in F1. destruct F1 as [-> _].
    rewrite fence_at in E2. discriminate. }
  destruct (startsWith "```" (String "`"%char r')) eqn:F2.
  { apply starts_backtick in F2. destruct F2 as [_ F2].
    destruct r' as [|x r'']; [discriminate|].
    apply starts_backtick in F2. destruct F2 as [-> _].
    rewrite fence_at in E2. discriminate. }
  injection Eo as Eo.
  destruct (strip_head_backtick r' out' Eo) as [r'' ->].
  rewrite fence_at in E2. discriminate.
Qed.

End CandidateFacts.

(** X12.  Whatever the raw text, the sanitizer either throws the error
    "No valid JSON found in AI response" before it calls the parser, or
    hands the parser a piece of the cleaned text that begins with an opening
    brace and ends with a closing brace, or begins with an opening bracket
    and ends with a closing bracket.  The parser is therefore never given
    anything that could denote a bare number, string, boolean or null. *)
Theorem candidate_is_delimited (text : string) :
  let cleaned := JSString.trim (Sanitizer.strip_fences text) in
  Sanitizer.json_candidate text = Throw (new_Error Sanitizer.no_json_message)
  \/ exists pre body post,
       (Sanitizer.json_candidate text = Return ("{" ++ body ++ "}")%string
        /\ cleaned = (pre ++ ("{" ++ body ++ "}") ++ post)%string)
       \/ (Sanitizer.json_candidate text = Return ("[" ++ body ++ "]")%string
           /\ cleaned = (pre ++ ("[" ++ body ++ "]") ++ post)%string).
Proof.
  intros cleaned.
  assert (Hshape : forall o c pre body post,
            (pre ++ String o (body ++ String c post)
             = pre ++ (String o EmptyString ++ body ++ String c EmptyString) ++ post)%string).
  { intros o c pre body post. f_equal. simpl. f_equal.
    induction body as [|a b IH]; simpl; [reflexivity|]. now rewrite IH. }
  destruct (Z.eq_dec (JSString.indexOf "{"%char cleaned) (-1)) as [H1|H1];
    [assert (Hno : (JSString.indexOf "{"%char cleaned = -1
                    \/ JSString.lastIndexOf "}"%char cleaned = -1
                    \/ JSString.lastIndexOf "}"%char cleaned
                       < JSString.indexOf "{"%char cleaned)%Z) by now left|
     destruct (Z.eq_dec (JSString.lastIndexOf "}"%char cleaned) (-1)) as [H2|H2];
     [assert (Hno : (JSString.indexOf "{"%char cleaned = -1
                     \/ JSString.lastIndexOf "}"%char cleaned = -1
                     \/ JSString.lastIndexOf "}"%char cleaned
                        < JSString.indexOf "{"%char cleaned)%Z) by (right; now left)|
      destruct (Z_lt_dec (JSString.lastIndexOf "}"%char cleaned)
                         (JSString.indexOf "{"%char cleaned)) as [H3|H3];
      [assert (Hno : (JSString.indexOf "{"%char cleaned = -1
                      \/ JSString.lastIndexOf "}"%char cleaned = -1
                      \/ JSString.lastIndexOf "}"%char cleaned
                         < JSString.indexOf "{"%char cleaned)%Z) by (right; now right)|]]].
  4:{ right.
      destruct (CandidateFacts.span_exists "{"%char "}"%char cleaned)
        as [pre [body [post [Hs [Hp Hq]]]]]; [discriminate|exact H1|exact H2|lia|].
      exists pre, body, post. left. split.
      - exact (SanitizerFacts.object_candidate text pre body post Hs Hp Hq).
      - rewrite Hs. apply Hshape. }
  all: destruct (Z.eq_dec (JSString.indexOf "["%char cleaned) (-1)) as [A1|A1];
    [left; apply SanitizerFacts.no_candidate; [exact Hno|now left]|];
    destruct (Z.eq_dec (JSString.lastIndexOf "]"%char cleaned) (-1)) as [A2|A2];
    [left; apply SanitizerFacts.no_candidate; [exact Hno|right; now left]|];
    destruct (Z_le_dec (JSString.lastIndexOf "]"%char cleaned)
                       (JSString.indexOf "["%char cleaned)) as [A3|A3];
    [left; apply SanitizerFacts.no_candidate; [exact Hno|right; now right]|];
    right;
    destruct (CandidateFacts.span_exists "["%char "]"%char cleaned)
      as [pre [body [post [Hs [Hp Hq]]]]]; [discriminate|exact A1|exact A2|lia|];
    exists pre, body, post; right; split;
    [exact (SanitizerFacts.array_candidate text pre body post Hno Hs Hp Hq)
    |rewrite Hs; apply Hshape].
Qed.

(** X13.  After the code-fence markers are removed no fence is left in the
    text: removing one marker never brings backticks together into a new
    one. *)
Theorem no_fence_after_cleaning (text : string) :
  JSString.includes (Sanitizer.strip_fences text) CandidateFacts.fence = false.
Proof. apply CandidateFacts.strip_skip_no_fence. Qed.

(** ** The rule-based extraction, in general *)

Module ExtractionFacts.

Import JSString Extractor.

Lemma firstn_NoDup {A} (n : nat) (l : list A) : NoDup l -> NoDup (firstn n l).
Proof.
  revert l. induction n as [|n IH]; intros [|a l] H; simpl; try constructor.
  - inversion H as [|? ? Ha Hl]; subst. intros Hin. apply Ha.
    now apply InsightsFacts.In_firstn in Hin.
  - inversion H; subst. now apply IH.
Qed.

Lemma dedupe_from_spec (l : list string) : forall seen,
  NoDup (dedupe_from seen l)
  /\ forall x, In x (dedupe_from seen l) <-> In x l /\ ~ In x seen.
Proof.
  induction l as [|a l IH]; intros seen; simpl.
  - split; [constructor|]. intros x. tauto.
  - destruct (existsb (String.eqb a) seen) eqn:E.
    + destruct (IH seen) as [Hn Hx]. split; [exact Hn|].
      apply existsb_exists in E. destruct E as [y [Hy Hay]].
      apply String.eqb_eq in Hay. subst y.
      intros x. rewrite Hx. split; [tauto|].
      intros [[<-|Hin] Hns]; [contradiction|tauto].
    + destruct (IH (a :: seen)) as [Hn Hx].
      assert (Ha : ~ In a seen).
      { intros Hin.
        assert (existsb (String.eqb a) seen = true).
        { apply existsb_exists. exists a. split; [exact Hin|apply String.eqb_refl]. }
        congruence. }
      split.
      * constructor; [|exact Hn]. rewrite Hx. simpl. tauto.
      * intros x. simpl. rewrite Hx. simpl. split.
        -- intros [<-|[Hin Hns]]; [tauto|tauto].
        -- intros [[<-|Hin] Hns]; [now left|].
           destruct (string_dec a x) as [->|Hne]; [now left|right; tauto].
Qed.

Lemma splitList_lengths (s x : string) :
  In x (splitList s) -> (1 <= String.length x <= 79)%nat.
Proof.
  unfold splitList. rewrite filter_In. intros [_ H].
  apply andb_true_iff in H. destruct H as [H1 H2].
  apply Nat.ltb_lt in H1. apply Nat.ltb_lt in H2. lia.
Qed.

(** The state of the line loop when no line is a section header: only the
    section [other] exists. *)
Lemma collect_no_header (lines : list string) : forall acc,
  (forall l, In l lines -> match_section l = None) ->
  fold_left collect_line lines ("other"%string, [("other"%string, acc)])
  = ("other"%string, [("other"%string, acc ++ lines)]).
Proof.
  induction lines as [|l r IH]; intros acc H; simpl.
  - now rewrite app_nil_r.
  - rewrite (H l (or_introl eq_refl)). unfold lines_of. simpl.
    rewrite IH by (intros x Hx; apply H; now right).
    now rewrite <- app_assoc.
Qed.

Lemma sections_no_header (lines : list string) :
  (forall l, In l lines -> match_section l = None) ->
  forall k, k <> "other"%string ->
            lookup (snd (fold_left collect_line lines ("other"%string, []))) k = None.
Proof.
  intros H k Hk. destruct lines as [|l r]; [reflexivity|].
  simpl. rewrite (H l (or_introl eq_refl)). unfold lines_of. simpl.
  rewrite collect_no_header by (intros x Hx; apply H; now right).
  cbn [snd lookup]. destruct (String.eqb "other" k) eqn:E; [|reflexivity].
  apply String.eqb_eq in E. congruence.
Qed.

End ExtractionFacts.

(** X14.  Limits of the rule-based extraction.  For every text the record
    holds at most 100 skills, 20 experience entries, 10 education entries,
    20 certifications, 20 projects and 20 languages; the skills are pairwise
    distinct; every skill, language and project technology has between 1 and
    79 characters; and a position or a project name has at most 80. *)
Theorem extraction_limits (text : string) :
  let p := Extractor.ruleBasedExtraction text in
  (List.length (Extractor.skills p) <= 100)%nat
  /\ NoDup (Extractor.skills p)
  /\ (forall s, In s (Extractor.skills p) -> (1 <= String.length s <= 79)%nat)
  /\ (List.length (Extractor.experiences p) <= 20)%nat
  /\ (forall e, In e (Extractor.experiences p) ->
                (String.length (Extractor.position e) <= 80)%nat)
  /\ (List.length (Extractor.educations p) <= 10)%nat
  /\ (List.length (Extractor.certifications p) <= 20)%nat
  /\ (List.length (Extractor.projects p) <= 20)%nat
  /\ (forall q, In q (Extractor.projects p) ->
                (String.length (Extractor.project_name q) <= 80)%nat
                /\ forall t, In t (Extractor.technologies q) ->
                             (1 <= String.length t <= 79)%nat)
  /\ (List.length (Extractor.languages p) <= 20)%nat
  /\ (forall l, In l (Extractor.languages p) -> (1 <= String.length l <= 79)%nat).
Proof.
  intros p. unfold p, Extractor.ruleBasedExtraction. cbn [Extractor.skills
    Extractor.experiences Extractor.educations Extractor.certifications
    Extractor.projects Extractor.languages].
  repeat match goal with |- _ /\ _ => split end;
    try apply InsightsFacts.firstn_length_le.
  - apply ExtractionFacts.firstn_NoDup.
    apply (proj1 (ExtractionFacts.dedupe_from_spec _ [])).
  - intros s Hs. apply InsightsFacts.In_firstn in Hs.
    apply (proj2 (ExtractionFacts.dedupe_from_spec _ [])) in Hs.
    destruct Hs as [Hs _]. exact (ExtractionFacts.splitList_lengths _ _ Hs).
  - intros e He. apply InsightsFacts.In_firstn, in_map_iff in He.
    destruct He as [l [<- _]]. simpl. apply SanitizerFacts.substring_length_le.
  - intros q Hq. apply InsightsFacts.In_firstn, in_map_iff in Hq.
    destruct Hq as [l [<- _]]. simpl. split.
    + apply SanitizerFacts.substring_length_le.
    + intros t Ht. exact (ExtractionFacts.splitList_lengths _ _ Ht).
  - intros l Hl. apply InsightsFacts.In_firstn in Hl.
    exact (ExtractionFacts.splitList_lengths _ _ Hl).
Qed.

Lemma extraction_limits_witness : (1 <= String.length "Python" <= 79)%nat.
Proof.
  apply (proj1 (proj2 (proj2
           (extraction_limits ("Skills" ++ String "010"%char "Python, React")%string)))
           "Python"%string).
  vm_compute. left. reflexivity.
Defined.

(** X15.  A text in which no line starts with a section header yields no
    data but the name: every list of the record is empty, and the name is
    the first non-empty line, trimmed (the empty string when there is
    none). *)
Theorem extraction_without_headers (text : string) :
  let lines :=
    filter Extractor.nonempty_string (map JSString.trim (JSString.split_lines text)) in
  (forall l, In l lines -> Extractor.match_section l = None) ->
  Extractor.ruleBasedExtraction text
  = {| Extractor.name := hd EmptyString lines;
       Extractor.experiences := [];
       Extractor.educations := [];
       Extractor.skills := [];
       Extractor.certifications := [];
       Extractor.projects := [];
       Extractor.languages := [] |}.
Proof.
  intros lines H. unfold Extractor.ruleBasedExtraction. fold lines.
  pose proof (ExtractionFacts.sections_no_header lines H) as Hs.
  unfold Extractor.lines_of.
  rewrite !Hs by discriminate.
  destruct lines; reflexivity.
Qed.

Lemma extraction_without_headers_witness :
  Extractor.ruleBasedExtraction "  Asha Rao  "%string
  = {| Extractor.name := "Asha Rao"%string;
       Extractor.experiences := [];
       Extractor.educations := [];
       Extractor.skills := [];
       Extractor.certifications := [];
       Extractor.projects := [];
       Extractor.languages := [] |}.
Proof.
  apply (extraction_without_headers "  Asha Rao  "%string).
  intros l [<-|[]]. reflexivity.
Defined.

(** X16.  A résumé whose structured data comes from the rule-based
    extraction (the AI extraction having failed) has, whatever its text, 0
    years of total experience, scores 0 for education against every job that
    marks education as required, and scores 50 for location against every
    job that is not remote; none of the three scorers throws on it. *)
Theorem rule_based_resume_scores (text : string) :
  let data := fallbackExtractedData text in
  (forall experience, Resume.experience data = Some experience ->
                      calculateTotalExperience experience = 0%float)
  /\ (exists experience, Resume.experience data = Some experience)
  /\ (forall jobEducation, Job.required jobEducation = true ->
        calculateEducationMatch (Resume.education data) (Some jobEducation)
        = Return 0%float)
  /\ (forall jobLocation, Job.remote jobLocation = false ->
        calculateLocationMatch (Resume.personalInfo data) (Some jobLocation)
        = Return 50%float).
Proof.
  intros data. unfold data, fallbackExtractedData.
  cbn [Resume.experience Resume.education Resume.personalInfo].
  generalize (Extractor.ruleBasedExtraction text). intros p.
  split; [|split; [|split]].
  - intros experience [= <-]. rewrite calculateTotalExperience_sum.
    assert (H : total_months
                  (map (fun _ => {| Resume.startDate := None; Resume.endDate := None |})
                       (Extractor.experiences p))
                = 0%Z).
    { induction (Extractor.experiences p) as [|e r IH]; [reflexivity|].
      cbn [map]. rewrite ScorerFacts.total_months_cons, IH. reflexivity. }
    rewrite H. reflexivity.
  - eexists. reflexivity.
  - intros je Hreq. unfold calculateEducationMatch. rewrite Hreq. cbn [negb].
    assert (H : forall l : list string,
              some_degree_includes
                (map (fun _ => {| Resume.degree := Some EmptyString |}) l) (Job.degree je)
              = Return false).
    { induction l as [|x l IH]; [reflexivity|]. cbn [map]. exact IH. }
    destruct (Extractor.educations p) as [|e r]; [reflexivity|].
    rewrite (H (e :: r)). reflexivity.
  - intros jl Hrem. unfold calculateLocationMatch. rewrite Hrem. reflexivity.
Qed.

Lemma rule_based_resume_scores_witness :
  calculateEducationMatch
    (Resume.education (fallbackExtractedData "Education"%string))
    (Some {| Job.required := true; Job.degree := Some "B.Tech"%string |})
  = Return 0%float.
Proof.
  apply (proj1 (proj2 (proj2 (rule_based_resume_scores "Education"%string)))).
  reflexivity.
Defined.

(** ** The AI insights *)

Module AIInsightsFacts.

Import AIInsights.

(** The error entry of the [catch] block. *)
Definition insights_error (e : exn) : entry :=
  (console_error, [Text "AI insights generation error:"; Thrown e]).

(** The entries and the outcome of a fall back to the heuristic insights
    behind [log]. *)
Definition fallen_back (log : list entry) (warning : string)
  (resume : Resume.t) (job : Job.t) (matchScore : scores) : M AIInsights.t :=
  match generateFallbackInsights resume job matchScore with
  | Return i => (log ++ [(console_warn, [Text warning])], Return (Heuristic i))
  | Throw e => (log ++ [(console_warn, [Text warning])], Throw e)
  end.

Definition warnings : list string :=
  [ "JSON parsing failed for AI insights, using fallback method";
    "API quota exceeded for insights generation, using fallback method";
    "AI insights generation failed, using fallback method" ]%string.

Lemma fall_back_run warning resume job matchScore :
  fall_back warning resume job matchScore
  = fallen_back [] warning resume job matchScore.
Proof.
  unfold fall_back, fallen_back, JS.bind, log, lift, ret.
  destruct (generateFallbackInsights resume job matchScore); reflexivity.
Qed.

Lemma fallen_back_app l l' warning resume job matchScore :
  (let (l2, r) := fallen_back l' warning resume job matchScore in (l ++ l2, r))
  = fallen_back (l ++ l') warning resume job matchScore.
Proof.
  unfold fallen_back.
  destruct (generateFallbackInsights resume job matchScore); now rewrite app_assoc.
Qed.

Section Facts.

Variable JSON_parse : string -> outcome json.
Variable Number_toString : number -> string.

Lemma array_field_object (fields : list (string * json)) (key : string) :
  exists l, array_field Number_toString (JObject fields) key = Return l.
Proof.
  unfold array_field. destruct (get fields key) as [[]|]; eexists; reflexivity.
Qed.

Lemma with_defaults_source (insights : json) (g : generated) :
  with_defaults Number_toString insights = Return g ->
  source g = insights
  /\ ((exists fields, insights = JObject fields) \/ (exists items, insights = JArray items)).
Proof.
  unfold with_defaults. destruct insights; try discriminate.
  - intros [= <-]. split; [reflexivity|]. right. eexists. reflexivity.
  - destruct (array_field_object fields "strengths") as [l1 ->].
    destruct (array_field_object fields "weaknesses") as [l2 ->].
    destruct (array_field_object fields "recommendations") as [l3 ->].
    destruct (array_field_object fields "interviewTips") as [l4 ->].
    destruct (array_field_object fields "skillGaps") as [l5 ->].
    cbn [obind]. intros [= <-]. split; [reflexivity|]. left. eexists. reflexivity.
Qed.

Lemma attempt_returns (insightsText : outcome string) (l : list entry) (x : AIInsights.t) :
  attempt JSON_parse Number_toString insightsText = (l, Return x) ->
  l = []
  /\ exists text insights g,
       insightsText = Return text
       /\ Sanitizer.parseAIJsonResponse json JSON_parse text = ([], Return insights)
       /\ with_defaults Number_toString insights = Return g
       /\ x = FromModel g.
Proof.
  unfold attempt. destruct insightsText as [text|e]; [|discriminate].
  unfold JS.bind at 1. unfold lift at 1.
  destruct (Sanitizer.json_candidate text) as [c|e] eqn:Hc.
  - destruct (JSON_parse c) as [insights|e] eqn:Hp.
    + rewrite (SanitizerFacts.parsed json JSON_parse c text insights Hc Hp). simpl.
      destruct (with_defaults Number_toString insights) as [g|e] eqn:Hg; simpl;
        [|discriminate].
      intros [= <- <-]. split; [reflexivity|]. exists text, insights, g.
      split; [reflexivity|].
      split; [exact (SanitizerFacts.parsed json JSON_parse c text insights Hc Hp)|].
      split; [exact Hg|reflexivity].
    + rewrite (SanitizerFacts.parse_failure json JSON_parse c text e Hc Hp).
      discriminate.
  - rewrite (SanitizerFacts.nothing_to_parse json JSON_parse text e Hc). discriminate.
Qed.

End Facts.

End AIInsightsFacts.

(** X17.  Outcomes of the AI insights.  When the model's answer is read,
    cleaned and parsed without an error and is an object or an array, it is
    returned with its five list properties completed, and nothing is logged.
    Every failure on the way (the model call, the sanitizer, the parser, an
    answer that is neither an object nor an array) whose error is a
    SyntaxError or has a message leads to the heuristic insights: the error
    is logged, then one of three warnings, and the result is exactly what
    [generateFallbackInsights] gives, a throw of it included.  Only an error
    without a message that is not a SyntaxError escapes as a TypeError. *)
Theorem ai_insights_outcomes
  (JSON_parse : string -> outcome AIInsights.json) (Number_toString : number -> string)
  (insightsText : outcome string) (resume : Resume.t) (job : Job.t) (matchScore : scores) :
  let run :=
    AIInsights.generateAIInsights JSON_parse Number_toString insightsText
                                  resume job matchScore in
  let tried := AIInsights.attempt JSON_parse Number_toString insightsText in
  (forall x, result tried = Return x ->
     run = ([], Return x)
     /\ exists g, x = AIInsights.FromModel g
                  /\ ((exists fields, AIInsights.source g = AIInsights.JObject fields)
                      \/ (exists items, AIInsights.source g = AIInsights.JArray items)))
  /\ (forall e, result tried = Throw e ->
        kind e = SyntaxError \/ message e <> None ->
        exists warning,
          In warning AIInsightsFacts.warnings
          /\ run = AIInsightsFacts.fallen_back
                     (logged tried ++ [AIInsightsFacts.insights_error e])
                     warning resume job matchScore)
  /\ (forall e, result tried = Throw e ->
        kind e <> SyntaxError -> message e = None ->
        run = (logged tried ++ [AIInsightsFacts.insights_error e],
               Throw (cannot_read "includes"))).
Proof.
  intros run tried. unfold run, AIInsights.generateAIInsights. fold tried.
  destruct tried as [l [x|e]] eqn:Ht; unfold result, logged; simpl.
  - split; [|split; discriminate].
    intros x' [= <-].
    destruct (AIInsightsFacts.attempt_returns JSON_parse Number_toString
                insightsText l x Ht) as [-> [text [insights [g [_ [_ [Hg ->]]]]]]].
    split; [reflexivity|]. exists g. split; [reflexivity|].
    destruct (AIInsightsFacts.with_defaults_source Number_toString insights g Hg)
      as [-> Hs].
    exact Hs.
  - split; [discriminate|]. split.
    + intros e' [= <-] Hm.
      assert (Hj : exists b, AIInsights.is_json_error e = Return b).
      { unfold AIInsights.is_json_error.
        destruct (kind e); try (eexists; reflexivity);
          destruct (message e); try (eexists; reflexivity);
          destruct Hm as [Hm|Hm]; congruence. }
      destruct Hj as [b Hj]. rewrite Hj. unfold lift, log, JS.bind.
      destruct b; [|destruct (is_quota_error e)];
        rewrite AIInsightsFacts.fall_back_run;
        unfold AIInsightsFacts.fallen_back;
        destruct (generateFallbackInsights resume job matchScore);
        eexists; (split; [|simpl; rewrite <- app_assoc; reflexivity]);
        simpl; tauto.
    + intros e' [= <-] Hk Hm. unfold AIInsights.is_json_error. rewrite Hm.
      destruct (kind e); try congruence; reflexivity.
Qed.

Lemma ai_insights_outcomes_witness :
  exists warning,
    In warning AIInsightsFacts.warnings
    /\ AIInsights.generateAIInsights
         (fun _ => Throw (mkExn SyntaxError (Some "Unexpected end of JSON input"%string)))
         (fun _ => EmptyString)
         (Return "{"%string) python_resume backend_job backend_scores
       = AIInsightsFacts.fallen_back
           (logged (AIInsights.attempt
                      (fun _ => Throw (mkExn SyntaxError
                                         (Some "Unexpected end of JSON input"%string)))
                      (fun _ => EmptyString) (Return "{"%string))
            ++ [AIInsightsFacts.insights_error
                  (new_Error Sanitizer.no_json_message)])
           warning python_resume backend_job backend_scores.
Proof.
  apply (proj1 (proj2 (ai_insights_outcomes
           (fun _ => Throw (mkExn SyntaxError (Some "Unexpected end of JSON input"%string)))
           (fun _ => EmptyString)
           (Return "{"%string) python_resume backend_job backend_scores))).
  - reflexivity.
  - right. discriminate.
Defined.

(** ** The job search *)

Module MatchingFacts.

Import Matching.

(** The error entry of the search's [catch] block. *)
Definition job_matching_error (e : exn) : entry :=
  (console_error, [Text "Job matching error:"; Thrown e]).

(** The score record the aggregator returns for a job of the query. *)
Definition score_of (resume : Resume.t) (j : job_run) : scores :=
  match result (calculateJobMatchScore (skillsReply j) resume (posting j)) with
  | Return score => score
  | Throw _ => zero_scores
  end.

(** [matchScore.overallScore >= minimum] for a job of the query. *)
Definition qualifies (resume : Resume.t) (minimum : number) (j : job_run) : bool :=
  geb (overallScore (score_of resume j)) minimum.

Lemma insert_permutation (x : found) (l : list found) :
  Permutation (insert x l) (x :: l).
Proof.
  induction l as [|y r IH]; simpl; [constructor; constructor|].
  destruct (PrimFloat.ltb (comparator x y) 0%float).
  - apply Permutation_refl.
  - apply (Permutation_trans (l' := y :: x :: r)).
    + now constructor.
    + constructor.
Qed.

Lemma sort_from_permutation (l : list found) : forall acc,
  Permutation (fold_left (fun sorted x => insert x sorted) l acc) (acc ++ l).
Proof.
  induction l as [|x r IH]; intros acc; simpl.
  - rewrite app_nil_r. apply Permutation_refl.
  - apply (Permutation_trans (IH (insert x acc))).
    apply (Permutation_trans (l' := (x :: acc) ++ r)).
    + apply Permutation_app_tail. apply insert_permutation.
    + simpl. apply Permutation_middle.
Qed.

Lemma sort_permutation (l : list found) : Permutation (sort l) l.
Proof. exact (sort_from_permutation l []). Qed.

(** A whole percentage as a JS number. *)
Definition percent (x : number) : Prop := exists n : Z, (0 <= n <= 100)%Z /\ x = of_Z n.

(** On whole percentages the comparator is negative exactly when its first
    argument has the larger score, and [>=] is the order of the integers. *)
Lemma percent_order_checked :
  forallb (fun m =>
     forallb (fun n =>
        Bool.eqb (PrimFloat.ltb (of_Z n - of_Z m)%float 0%float) (n <? m)%Z
        && Bool.eqb (geb (of_Z m) (of_Z n)) (n <=? m)%Z)
       percentages)
    percentages = true.
Proof. vm_compute. reflexivity. Qed.

Lemma percent_order (m n : Z) :
  (0 <= m <= 100)%Z -> (0 <= n <= 100)%Z ->
  PrimFloat.ltb (of_Z n - of_Z m)%float 0%float = (n <? m)%Z
  /\ geb (of_Z m) (of_Z n) = (n <=? m)%Z.
Proof.
  intros Hm Hn.
  pose proof (proj1 (forallb_forall _ _) percent_order_checked m (percentages_In m Hm)) as H.
  pose proof (proj1 (forallb_forall _ _) H n (percentages_In n Hn)) as H'.
  apply andb_true_iff in H'. destruct H' as [H1 H2].
  apply Bool.eqb_prop in H1. apply Bool.eqb_prop in H2. now split.
Qed.

(** [a.matchScore >= b.matchScore] *)
Definition at_least (a b : found) : Prop := geb (matchScore a) (matchScore b) = true.

Lemma insert_sorted (x : found) (l : list found) :
  percent (matchScore x) ->
  Forall (fun m => percent (matchScore m)) l ->
  StronglySorted at_least l ->
  StronglySorted at_least (insert x l).
Proof.
  intros [nx [Hnx Ex]] Hl Hs. induction Hs as [|y r Hr IH Hy]; simpl.
  - repeat constructor.
  - inversion Hl as [|? ? [ny [Hny Ey]] Hl']; subst.
    unfold comparator. rewrite Ex, Ey.
    destruct (percent_order nx ny Hnx Hny) as [H1 H2]. rewrite H1.
    destruct (ny <? nx)%Z eqn:E.
    + apply Z.ltb_lt in E. constructor; [constructor; assumption|].
      constructor.
      * unfold at_least. rewrite Ex, Ey, H2. apply Z.leb_le. lia.
      * rewrite Forall_forall in Hy, Hl' |- *. intros z Hz.
        destruct (Hl' z Hz) as [nz [Hnz Ez]].
        specialize (Hy z Hz). unfold at_least in Hy |- *.
        rewrite Ey, Ez in Hy. rewrite Ex, Ez.
        rewrite (proj2 (percent_order ny nz Hny Hnz)) in Hy.
        rewrite (proj2 (percent_order nx nz Hnx Hnz)).
        apply Z.leb_le in Hy. apply Z.leb_le. lia.
    + apply Z.ltb_ge in E. constructor; [now apply IH|].
      rewrite Forall_forall in Hy |- *. intros z Hz.
      apply (Permutation_in _ (insert_permutation x r)) in Hz.
      destruct Hz as [<-|Hz]; [|now apply Hy].
      unfold at_least. rewrite Ex, Ey.
      rewrite (proj2 (percent_order ny nx Hny Hnx)). apply Z.leb_le. lia.
Qed.

Lemma sort_from_sorted (l : list found) : forall acc,
  Forall (fun m => percent (matchScore m)) acc ->
  Forall (fun m => percent (matchScore m)) l ->
  StronglySorted at_least acc ->
  StronglySorted at_least (fold_left (fun sorted x => insert x sorted) l acc).
Proof.
  induction l as [|x r IH]; intros acc Ha Hl Hs; simpl; [exact Hs|].
  inversion Hl; subst. apply IH; trivial.
  - rewrite Forall_forall in Ha |- *. intros z Hz.
    apply (Permutation_in _ (insert_permutation x acc)) in Hz.
    destruct Hz as [<-|Hz]; auto.
  - now apply insert_sorted.
Qed.

Section Facts.

Variable JSON_parse : string -> outcome AIInsights.json.
Variable Number_toString : number -> string.

(** What the loop over the jobs returns, before the sort. *)
Lemma score_jobs_returns (resume : Resume.t) (minimum : number) (jobs : list job_run) :
  forall l matches,
    score_jobs JSON_parse Number_toString resume minimum jobs = (l, Return matches) ->
    map (fun m => (job m, matchScore m)) matches
    = map (fun j => (posting j, overallScore (score_of resume j)))
          (filter (qualifies resume minimum) jobs).
Proof.
  induction jobs as [|j rest IH]; intros l matches.
  - intros [= _ <-]. reflexivity.
  - cbn [score_jobs filter].
    destruct (aggregator_overall (skillsReply j) resume (posting j)) as [sc [Hsc _]].
    destruct (calculateJobMatchScore (skillsReply j) resume (posting j)) as [l1 [s|e]] eqn:Hc;
      unfold result in Hsc; simpl in Hsc; [|discriminate].
    assert (Hs : score_of resume j = s) by (unfold score_of, result; now rewrite Hc).
    assert (Hq : qualifies resume minimum j = geb (overallScore s) minimum)
      by (unfold qualifies; now rewrite Hs).
    rewrite Hq. cbn [JS.bind].
    destruct (geb (overallScore s) minimum).
    + destruct (generateMatchBreakdown resume (posting j) s) as [l2 [b|e]];
        cbn [JS.bind]; [|intros H; discriminate].
      destruct (AIInsights.generateAIInsights JSON_parse Number_toString
                  (insightsText j) resume (posting j) s) as [l3 [i|e]];
        cbn [JS.bind]; [|intros H; discriminate].
      destruct (score_jobs JSON_parse Number_toString resume minimum rest)
        as [l4 [ms|e]] eqn:Hrest; cbn [JS.bind ret]; [|intros H; discriminate].
      intros [= _ <-]. cbn [map job matchScore]. rewrite Hs. f_equal.
      exact (IH l4 ms eq_refl).
    + destruct (score_jobs JSON_parse Number_toString resume minimum rest)
        as [l4 [ms|e]] eqn:Hrest; [|intros H; discriminate].
      intros [= _ <-]. exact (IH l4 ms eq_refl).
Qed.

Variable getLatestForUser : outcome (option Resume.t).
Variable findActiveJobs : number -> outcome (list job_run).

Lemma found_matches (o : options) (resume : Resume.t) (jobs : list job_run)
  (matches : list found) :
  getLatestForUser = Return (Some resume) ->
  findActiveJobs (query_limit o) = Return jobs ->
  result (findJobMatches JSON_parse Number_toString getLatestForUser findActiveJobs o)
  = Return matches ->
  exists l unsorted,
    score_jobs JSON_parse Number_toString resume (threshold o) jobs = (l, Return unsorted)
    /\ matches = sort unsorted.
Proof.
  intros Hr Hj. unfold findJobMatches. rewrite Hr. cbn [lift JS.bind]. rewrite Hj.
  cbn [JS.bind].
  destruct (score_jobs JSON_parse Number_toString resume (threshold o) jobs)
    as [l [ms|e]]; simpl; [|discriminate].
  intros [= <-]. now exists l, ms.
Qed.

End Facts.

End MatchingFacts.

(** X18.  Errors of the job search.  Without an active résumé the search
    throws the error "No active resume found for user" and does not run the
    query for jobs.  Whatever error ends it (no résumé, a failing query, an
    insights call that throws), that error is the last entry of the log and
    is thrown on unchanged. *)
Theorem job_search_errors
  (JSON_parse : string -> outcome AIInsights.json) (Number_toString : number -> string)
  (getLatestForUser : outcome (option Resume.t))
  (findActiveJobs : number -> outcome (list Matching.job_run)) (o : Matching.options) :
  let run :=
    Matching.findJobMatches JSON_parse Number_toString getLatestForUser findActiveJobs o in
  (getLatestForUser = Return None ->
   forall otherJobs,
     run = ([MatchingFacts.job_matching_error (new_Error Matching.no_resume_message)],
            Throw (new_Error Matching.no_resume_message))
     /\ Matching.findJobMatches JSON_parse Number_toString getLatestForUser otherJobs o
        = run)
  /\ (forall e, result run = Throw e ->
        exists l, logged run = l ++ [MatchingFacts.job_matching_error e])
  /\ (forall e, getLatestForUser = Throw e ->
        run = ([MatchingFacts.job_matching_error e], Throw e))
  /\ (forall e resume, getLatestForUser = Return (Some resume) ->
        findActiveJobs (Matching.query_limit o) = Throw e ->
        run = ([MatchingFacts.job_matching_error e], Throw e)).
Proof.
  intros run. unfold run, Matching.findJobMatches.
  split; [|split; [|split]].
  - intros -> other. split; reflexivity.
  - intros e.
    match goal with |- context [try_catch ?m _] => destruct m as [l [x|e']] end;
      unfold result, logged; simpl; [discriminate|].
    intros [= <-]. now exists l.
  - intros e ->. reflexivity.
  - intros e resume -> Hj. cbn [lift JS.bind]. rewrite Hj. reflexivity.
Qed.

Lemma job_search_errors_witness :
  Matching.findJobMatches (fun _ => Return AIInsights.JNull) (fun _ => EmptyString)
    (Return None) (fun _ => Return []) {| Matching.minScore := None; Matching.limit := None |}
  = ([MatchingFacts.job_matching_error (new_Error Matching.no_resume_message)],
     Throw (new_Error Matching.no_resume_message)).
Proof.
  apply (proj1 (job_search_errors (fun _ => Return AIInsights.JNull) (fun _ => EmptyString)
                  (Return None) (fun _ => Return [])
                  {| Matching.minScore := None; Matching.limit := None |})
               eq_refl (fun _ => Return [])).
Defined.

(** X19.  What the job search returns.  The returned matches are, up to
    order, exactly the jobs of the query whose overall score is at least the
    threshold, each with that overall score; the threshold is the requested
    minimum, and 30 when no minimum is given or when it is 0 or NaN, so that
    a minimum of 0 cannot be requested. *)
Theorem job_search_threshold
  (JSON_parse : string -> outcome AIInsights.json) (Number_toString : number -> string)
  (getLatestForUser : outcome (option Resume.t))
  (findActiveJobs : number -> outcome (list Matching.job_run)) (o : Matching.options)
  (resume : Resume.t) (jobs : list Matching.job_run) (matches : list Matching.found) :
  getLatestForUser = Return (Some resume) ->
  findActiveJobs (Matching.query_limit o) = Return jobs ->
  result (Matching.findJobMatches JSON_parse Number_toString
            getLatestForUser findActiveJobs o) = Return matches ->
  Permutation
    (map (fun m => (Matching.job m, Matching.matchScore m)) matches)
    (map (fun j => (Matching.posting j, overallScore (MatchingFacts.score_of resume j)))
         (filter (MatchingFacts.qualifies resume (Matching.threshold o)) jobs))
  /\ Forall (fun m => geb (Matching.matchScore m) (Matching.threshold o) = true) matches
  /\ (Matching.minScore o = None \/ Matching.minScore o = Some 0%float
      \/ Matching.minScore o = Some (-0)%float \/ Matching.minScore o = Some PrimFloat.nan ->
      Matching.threshold o = 30%float)
  /\ truthy (Matching.threshold o) = true.
Proof.
  intros Hr Hj Hm.
  destruct (MatchingFacts.found_matches JSON_parse Number_toString getLatestForUser
              findActiveJobs o resume jobs matches Hr Hj Hm) as [l [ms [Hs ->]]].
  pose proof (MatchingFacts.score_jobs_returns JSON_parse Number_toString resume
                (Matching.threshold o) jobs l ms Hs) as Hms.
  assert (HP : Permutation
                 (map (fun m => (Matching.job m, Matching.matchScore m)) (Matching.sort ms))
                 (map (fun j => (Matching.posting j,
                                 overallScore (MatchingFacts.score_of resume j)))
                      (filter (MatchingFacts.qualifies resume (Matching.threshold o)) jobs))).
  { rewrite <- Hms. apply Permutation_map. apply MatchingFacts.sort_permutation. }
  split; [exact HP|]. split; [|split].
  - rewrite Forall_forall. intros m Hin.
    assert (Hin' : In (Matching.job m, Matching.matchScore m)
                      (map (fun m => (Matching.job m, Matching.matchScore m))
                           (Matching.sort ms)))
      by (apply in_map_iff; now exists m).
    apply (Permutation_in _ HP) in Hin'. apply in_map_iff in Hin'.
    destruct Hin' as [j [Hj' Hin']]. apply filter_In in Hin'. destruct Hin' as [_ Hq].
    unfold MatchingFacts.qualifies in Hq.
    assert (E : overallScore (MatchingFacts.score_of resume j) = Matching.matchScore m)
      by congruence.
    now rewrite <- E.
  - unfold Matching.threshold. intros [ -> | [ -> | [ -> | -> ] ] ]; reflexivity.
  - unfold Matching.threshold. destruct (Matching.minScore o) as [m|]; [|reflexivity].
    destruct (truthy m) eqn:E; [exact E|reflexivity].
Qed.

(** X20.  Order of the returned matches.  When the overall scores of the
    qualifying jobs are whole percentages (as they are when the four
    dimension scores are), the returned list is in descending order of
    score: every match scores at least as much as each match after it. *)
Theorem job_search_sorted
  (JSON_parse : string -> outcome AIInsights.json) (Number_toString : number -> string)
  (getLatestForUser : outcome (option Resume.t))
  (findActiveJobs : number -> outcome (list Matching.job_run)) (o : Matching.options)
  (resume : Resume.t) (jobs : list Matching.job_run) (matches : list Matching.found) :
  getLatestForUser = Return (Some resume) ->
  findActiveJobs (Matching.query_limit o) = Return jobs ->
  (forall j, In j jobs ->
     MatchingFacts.percent (overallScore (MatchingFacts.score_of resume j))) ->
  result (Matching.findJobMatches JSON_parse Number_toString
            getLatestForUser findActiveJobs o) = Return matches ->
  StronglySorted MatchingFacts.at_least matches.
Proof.
  intros Hr Hj Hp Hm.
  destruct (MatchingFacts.found_matches JSON_parse Number_toString getLatestForUser
              findActiveJobs o resume jobs matches Hr Hj Hm) as [l [ms [Hs ->]]].
  pose proof (MatchingFacts.score_jobs_returns JSON_parse Number_toString resume
                (Matching.threshold o) jobs l ms Hs) as Hms.
  apply MatchingFacts.sort_from_sorted; [constructor| |constructor].
  rewrite Forall_forall. intros m Hin.
  assert (Hin' : In (Matching.job m, Matching.matchScore m)
                    (map (fun m => (Matching.job m, Matching.matchScore m)) ms))
    by (apply in_map_iff; now exists m).
  rewrite Hms in Hin'. apply in_map_iff in Hin'.
  destruct Hin' as [j [Hj' Hin']]. apply filter_In in Hin'. destruct Hin' as [Hin' _].
  assert (E : overallScore (MatchingFacts.score_of resume j) = Matching.matchScore m)
    by congruence.
  rewrite <- E. now apply Hp.
Qed.

(** A query of two jobs, neither call of the model succeeding. *)
Definition remote_job : Job.t := {|
  Job.embedding := None;
  Job.requirements := {|
    Job.skills := Some [ {| Job.name := Some "Rust"%string |} ];
    Job.experience := None;
    Job.education := None
  |};
  Job.location := Some {| Job.remote := true; Job.city := None |}
|}.

Definition sample_query : list Matching.job_run :=
  [ {| Matching.posting := remote_job;
       Matching.skillsReply := Throw (new_Error "network down");
       Matching.insightsText := Throw (new_Error "network down") |};
    {| Matching.posting := backend_job;
       Matching.skillsReply := Return "70"%string;
       Matching.insightsText := Throw (new_Error "network down") |} ].

Definition no_parser (text : string) : outcome AIInsights.json :=
  Throw (mkExn SyntaxError (Some "Unexpected end of JSON input"%string)).

Definition no_options : Matching.options :=
  {| Matching.minScore := None; Matching.limit := None |}.

Lemma job_search_threshold_witness :
  exists matches,
    result (Matching.findJobMatches no_parser (fun _ => EmptyString)
              (Return (Some python_resume)) (fun _ => Return sample_query) no_options)
    = Return matches
    /\ Forall (fun m => geb (Matching.matchScore m) (Matching.threshold no_options) = true)
              matches.
Proof.
  eexists. split; [reflexivity|].
  apply (proj1 (proj2 (job_search_threshold no_parser (fun _ => EmptyString)
                         (Return (Some python_resume)) (fun _ => Return sample_query)
                         no_options python_resume sample_query _
                         eq_refl eq_refl eq_refl))).
Defined.

Lemma job_search_sorted_witness :
  exists matches,
    result (Matching.findJobMatches no_parser (fun _ => EmptyString)
              (Return (Some python_resume)) (fun _ => Return sample_query) no_options)
    = Return matches
    /\ map Matching.job matches = [backend_job; remote_job]
    /\ StronglySorted MatchingFacts.at_least matches.
Proof.
  eexists. split; [reflexivity|]. split; [reflexivity|].
  apply (job_search_sorted no_parser (fun _ => EmptyString)
           (Return (Some python_resume)) (fun _ => Return sample_query)
           no_options python_resume sample_query _ eq_refl eq_refl).
  - intros j [<-|[<-|[]]].
    + exists 60%Z. split; [lia|vm_compute; reflexivity].
    + exists 88%Z. split; [lia|vm_compute; reflexivity].
  - reflexivity.
Defined.

(** X21.  The route that generates matches never stores one.  The objects
    the search returns have no [resume] property, so reading [match.resume._id]
    for the first match throws before [saveMatch] is called: the route
    answers with status 500 whenever the search finds at least one match or
    fails, and with an empty list of matches when the search finds none.
    Its answer does not depend on [saveMatch]. *)
Theorem generate_route_never_saves
  (JSON_parse : string -> outcome AIInsights.json) (Number_toString : number -> string)
  (getLatestForUser : outcome (option Resume.t))
  (findActiveJobs : number -> outcome (list Matching.job_run))
  (saved : Type) (saveMatch : Matching.found -> Resume.t -> M saved) (b : Matching.body) :
  let search :=
    Matching.findJobMatches JSON_parse Number_toString getLatestForUser findActiveJobs
                            (Matching.route_options b) in
  let run :=
    Matching.generate JSON_parse Number_toString getLatestForUser findActiveJobs
                      saved saveMatch b in
  (result search = Return [] -> run = (logged search, Return (Matching.Generated [])))
  /\ (forall m rest, result search = Return (m :: rest) ->
        run = (logged search
               ++ [(console_error, [Text "Generate matches error:";
                                    Thrown (cannot_read "_id")])],
               Return Matching.Failed))
  /\ (forall e, result search = Throw e ->
        run = (logged search
               ++ [(console_error, [Text "Generate matches error:"; Thrown e])],
               Return Matching.Failed))
  /\ (result run = Return (Matching.Generated []) \/ result run = Return Matching.Failed)
  /\ (forall saveMatch',
        Matching.generate JSON_parse Number_toString getLatestForUser findActiveJobs
                          saved saveMatch' b = run).
Proof.
  intros search run. unfold run, Matching.generate. fold search.
  destruct search as [l [[|m rest]|e]]; unfold result, logged; simpl.
  - rewrite app_nil_r. repeat split; try discriminate; auto.
  - rewrite app_nil_r. repeat split; try discriminate; auto.
  - repeat split; try discriminate; auto. intros e' [= <-]. reflexivity.
Qed.

Lemma generate_route_never_saves_witness :
  Matching.generate no_parser (fun _ => EmptyString)
    (Return (Some python_resume)) (fun _ => Return sample_query)
    unit (fun _ _ => ret tt)
    {| Matching.body_minScore := None; Matching.body_limit := None |}
  = (logged (Matching.findJobMatches no_parser (fun _ => EmptyString)
               (Return (Some python_resume)) (fun _ => Return sample_query)
               (Matching.route_options
                  {| Matching.body_minScore := None; Matching.body_limit := None |}))
     ++ [(console_error, [Text "Generate matches error:"; Thrown (cannot_read "_id")])],
     Return Matching.Failed).
Proof.
  eapply (proj1 (proj2 (generate_route_never_saves no_parser (fun _ => EmptyString)
            (Return (Some python_resume)) (fun _ => Return sample_query)
            unit (fun _ _ => ret tt)
            {| Matching.body_minScore := None; Matching.body_limit := None |}))).
  reflexivity.
Defined.

(** ** The résumé analysis *)

Module AnalysisFacts.

Import AIInsights Analysis.

Definition analysis_error (e : exn) : entry :=
  (console_error, [Text "AI analysis error:"; Thrown e]).

Section Facts.

Variable Number_toString : number -> string.
Variable now : string.

Lemma numeric_score_number (parsed v : json) :
  numeric_score Number_toString parsed = Return v -> exists n, v = JNumber n.
Proof.
  unfold numeric_score. destruct (property parsed "overallScore") as [[[]|]|e];
    cbn [obind]; try discriminate;
    try (destruct (assignable Number_toString parsed "overallScore"); cbn [obind];
         [intros [= <-]; eexists; reflexivity|discriminate]).
  intros [= <-]. eexists. reflexivity.
Qed.

Lemma completed_score (parsed : json) (a : Analysis.t) :
  completed Number_toString now parsed = Return a ->
  exists n, overallScore a = JNumber n.
Proof.
  unfold completed.
  destruct (defaulted Number_toString parsed "strengths" (JArray [])); [|discriminate].
  destruct (defaulted Number_toString parsed "weaknesses" (JArray [])); [|discriminate].
  destruct (defaulted Number_toString parsed "improvementSuggestions" (JArray []));
    [|discriminate].
  destruct (defaulted Number_toString parsed "skillGaps" (JArray [])); [|discriminate].
  destruct (numeric_score Number_toString parsed) as [v|] eqn:Hv; [|discriminate].
  destruct (defaulted Number_toString parsed "lastAnalyzed" (JString now));
    [|discriminate].
  cbn [obind]. intros [= <-]. exact (numeric_score_number parsed v Hv).
Qed.

Lemma defaulted_returns (f : list (string * json)) (key : string) (fallback : json) :
  exists v, defaulted Number_toString (JObject f) key fallback = Return v.
Proof.
  unfold defaulted, property. cbn [obind].
  destruct (get f key) as [v|]; cbn [obind].
  - destruct (truthy_json v); eexists; reflexivity.
  - eexists. reflexivity.
Qed.

Lemma completed_object (f : list (string * json)) :
  exists a, completed Number_toString now (JObject f) = Return a
            /\ forall n, get f "overallScore" = Some (JNumber n) ->
                         overallScore a = JNumber n.
Proof.
  unfold completed.
  destruct (defaulted_returns f "strengths"%string (JArray [])) as [v1 ->].
  destruct (defaulted_returns f "weaknesses"%string (JArray [])) as [v2 ->].
  destruct (defaulted_returns f "improvementSuggestions"%string (JArray [])) as [v3 ->].
  destruct (defaulted_returns f "skillGaps"%string (JArray [])) as [v4 ->].
  destruct (defaulted_returns f "lastAnalyzed"%string (JString now)) as [v5 ->].
  unfold numeric_score, property. cbn [obind].
  destruct (get f "overallScore") as [[]|]; cbn [obind];
    eexists; (split; [reflexivity|]); intros n' H; try discriminate.
  injection H as <-. reflexivity.
Qed.

Lemma completed_array (l : list json) :
  exists a, completed Number_toString now (JArray l) = Return a.
Proof. eexists. reflexivity. Qed.

(** A parsed value that is [null] or a primitive ends the [try] block with
    a TypeError, at the first property that is read or set. *)
Lemma completed_primitive (parsed : json) :
  match parsed with JObject _ | JArray _ => False | _ => True end ->
  exists e, completed Number_toString now parsed = Throw e /\ kind e = TypeError.
Proof.
  destruct parsed; intros H; try destruct H; eexists; (split; [reflexivity|reflexivity]).
Qed.

End Facts.

End AnalysisFacts.

(** X22.  The résumé analysis never throws and always carries a numeric
    overall score.  Each failure is logged once and gives the default
    analysis, with empty lists and the score 70: a failed model call, a
    response without an opening brace followed by a closing brace (the
    error then says that no JSON was found), a throw of the parser, and a
    parsed value that is null or a primitive (a TypeError).  Otherwise, for
    a parsed object or array, nothing is logged and the completed value is
    returned; the score of the model is kept whenever it is a number,
    without a check of its range. *)
Theorem analysis_never_throws
  (JSON_parse : string -> outcome AIInsights.json) (Number_toString : number -> string)
  (now : string) (reply : outcome string) :
  let run := Analysis.analyzeResumeWithAI JSON_parse Number_toString now reply in
  let fails_with e := run = ([AnalysisFacts.analysis_error e], Return Analysis.default) in
  (exists a, result run = Return a
             /\ exists n, Analysis.overallScore a = AIInsights.JNumber n)
  /\ (forall e, reply = Throw e -> fails_with e)
  /\ (forall text, reply = Return text ->
      (forall e, Analysis.object_text text = Throw e ->
         e = new_Error Sanitizer.no_json_message /\ fails_with e)
      /\ (forall cleanJson, Analysis.object_text text = Return cleanJson ->
          (forall e, JSON_parse cleanJson = Throw e -> fails_with e)
          /\ (forall parsed, JSON_parse cleanJson = Return parsed ->
              match parsed with
              | AIInsights.JObject _ | AIInsights.JArray _ =>
                  exists a,
                    run = ([], Return a)
                    /\ Analysis.completed Number_toString now parsed = Return a
                    /\ (exists n, Analysis.overallScore a = AIInsights.JNumber n)
                    /\ (forall fields n,
                          parsed = AIInsights.JObject fields ->
                          AIInsights.get fields "overallScore"
                          = Some (AIInsights.JNumber n) ->
                          Analysis.overallScore a = AIInsights.JNumber n)
              | _ => exists e, kind e = TypeError /\ fails_with e
              end))).
Proof.
  intros run fails_with. unfold fails_with, run, Analysis.analyzeResumeWithAI.
  split.
  { destruct reply as [text|e]; cbn [lift JS.bind try_catch];
      [|eexists; split; [reflexivity|eexists; reflexivity]].
    destruct (Analysis.object_text text) as [c|e]; cbn [lift JS.bind try_catch];
      [|eexists; split; [reflexivity|eexists; reflexivity]].
    destruct (JSON_parse c) as [parsed|e]; cbn [lift JS.bind try_catch];
      [|eexists; split; [reflexivity|eexists; reflexivity]].
    destruct (Analysis.completed Number_toString now parsed) as [a|e] eqn:Ha;
      cbn [lift JS.bind try_catch];
      [|eexists; split; [reflexivity|eexists; reflexivity]].
    exists a. split; [reflexivity|].
    exact (AnalysisFacts.completed_score Number_toString now parsed a Ha). }
  split; [intros e ->; reflexivity|].
  intros text ->. cbn [lift JS.bind try_catch]. split.
  - intros e He. rewrite He. cbn [lift JS.bind try_catch]. split; [|reflexivity].
    unfold Analysis.object_text in He.
    destruct ((_ =? -1)%Z || (_ =? -1)%Z || (_ <? _)%Z) in He; [|discriminate].
    now injection He as <-.
  - intros cleanJson ->. cbn [lift JS.bind try_catch]. split.
    + intros e ->. reflexivity.
    + intros parsed ->. cbn [lift JS.bind try_catch].
      destruct parsed as [|b|n|s|l|f].
      * destruct (AnalysisFacts.completed_primitive Number_toString now AIInsights.JNull I)
          as [e [-> Hk]].
        exists e. split; [exact Hk|reflexivity].
      * destruct (AnalysisFacts.completed_primitive Number_toString now
                    (AIInsights.JBool b) I) as [e [-> Hk]].
        exists e. split; [exact Hk|reflexivity].
      * destruct (AnalysisFacts.completed_primitive Number_toString now
                    (AIInsights.JNumber n) I) as [e [-> Hk]].
        exists e. split; [exact Hk|reflexivity].
      * destruct (AnalysisFacts.completed_primitive Number_toString now
                    (AIInsights.JString s) I) as [e [-> Hk]].
        exists e. split; [exact Hk|reflexivity].
      * destruct (AnalysisFacts.completed_array Number_toString now l) as [a Ha].
        rewrite Ha. exists a. split; [reflexivity|]. split; [reflexivity|].
        split; [exact (AnalysisFacts.completed_score Number_toString now _ a Ha)|].
        discriminate.
      * destruct (AnalysisFacts.completed_object Number_toString now f) as [a [Ha Hn]].
        rewrite Ha. exists a. split; [reflexivity|]. split; [reflexivity|].
        split; [exact (AnalysisFacts.completed_score Number_toString now _ a Ha)|].
        intros fields n [= <-]. apply Hn.
Qed.

(** A failed model call, and a response that is the text 12. *)
Lemma analysis_never_throws_witness :
  Analysis.analyzeResumeWithAI no_parser (fun _ => EmptyString) "2026-01-01T00:00:00.000Z"
    (Throw (new_Error "quota exceeded"))
  = ([AnalysisFacts.analysis_error (new_Error "quota exceeded")], Return Analysis.default)
  /\ Analysis.analyzeResumeWithAI no_parser (fun _ => EmptyString)
       "2026-01-01T00:00:00.000Z" (Return "12"%string)
     = ([AnalysisFacts.analysis_error (new_Error Sanitizer.no_json_message)],
        Return Analysis.default).
Proof.
  split.
  - exact (proj1 (proj2 (analysis_never_throws no_parser (fun _ => EmptyString)
                           "2026-01-01T00:00:00.000Z" (Throw (new_Error "quota exceeded"))))
                 (new_Error "quota exceeded") eq_refl).
  - exact (proj2 (proj1 (proj2 (proj2 (analysis_never_throws no_parser
                           (fun _ => EmptyString)
                           "2026-01-01T00:00:00.000Z" (Return "12"%string)))
                         "12"%string eq_refl)
                   (new_Error Sanitizer.no_json_message) eq_refl)).
Defined.

(** ** Embeddings and the skills dimension *)

Module VectorFacts.

Lemma fallback_length (text : string) :
  List.length (generateFallbackEmbedding text) = 50%nat.
Proof. unfold generateFallbackEmbedding. now rewrite length_map, length_seq. Qed.

Lemma short_words_count (words : list string) :
  Forall (fun w => (String.length w <= 2)%nat) words ->
  fold_left count_word words [] = [].
Proof.
  induction 1 as [|w r Hw _ IH]; [reflexivity|].
  simpl. unfold count_word at 2.
  replace (2 <? String.length w)%nat with false by (symmetry; apply Nat.ltb_ge; lia).
  exact IH.
Qed.

Lemma zero_components (n : nat) (l : list nat) :
  CosineFacts.zero_vector (map (fun _ : nat => 0%float) l).
Proof.
  induction l as [|x l IH]; simpl; [apply Forall_nil|].
  apply Forall_cons; [now left|exact IH].
Qed.

End VectorFacts.



(** X24.  The résumé parser never fails on embeddings: a missing or empty
    skills list gets the empty skills embedding without a call of the
    backend, and a failing backend call is logged and gives the empty
    embedding too.  A résumé stored with the empty skills embedding scores 0
    in every dimension against each job whose embedding is not empty: the
    two lengths differ, the similarity throws, and the aggregator returns
    the all-zero record without consulting the skills lists. *)
Theorem empty_skills_embedding
  (embedContent : string -> outcome (list number))
  (skills : option (list Resume.skill)) :
  let run := ResumeParser.generateSkillsEmbedding embedContent skills in
  (exists v, result run = Return v)
  /\ (ScorerFacts.entries skills = [] -> run = ([], Return []))
  /\ (forall e,
        ScorerFacts.entries skills <> [] ->
        embedContent (join_comma (map ResumeParser.skill_text (ScorerFacts.entries skills)))
        = Throw e ->
        run = ([(console_error, [Text "Skills embedding generation error:"; Thrown e])],
               Return []))
  /\ (forall (reply : outcome string) (resume : Resume.t) (job : Job.t) (b : list number),
        result run = Return [] ->
        Resume.skillsEmbedding resume = Some [] ->
        Job.embedding job = Some b -> b <> [] ->
        calculateJobMatchScore reply resume job
        = ([match_score_error (new_Error length_mismatch_message)], Return zero_scores)).
Proof.
  intros run. unfold run, ResumeParser.generateSkillsEmbedding.
  split; [|split; [|split]].
  - destruct skills as [[|s r]|]; try (eexists; reflexivity).
    unfold lift, try_catch.
    destruct (embedContent (join_comma (map ResumeParser.skill_text (s :: r))));
      eexists; reflexivity.
  - destruct skills as [[|s r]|]; try reflexivity. discriminate.
  - intros e Hne He. destruct skills as [[|s r]|]; try (now elim Hne).
    cbn [ScorerFacts.entries] in He. unfold lift, try_catch. rewrite He. reflexivity.
  - intros reply resume job b _ Hr Hj Hb.
    assert (Hlen : @List.length number [] <> List.length b)
      by (destruct b; [congruence|discriminate]).
    pose proof (length_mismatch_throws binary64 [] b Hlen) as Hthrow.
    apply (skills_throw_caught reply resume job []).
    unfold skillsDimension. rewrite Hr, Hj. change number with (num binary64).
    rewrite Hthrow. reflexivity.
Qed.

Lemma empty_skills_embedding_witness :
  calculateJobMatchScore (Return "80"%string) resume_without_vector job_with_vector
  = ([match_score_error (new_Error length_mismatch_message)], Return zero_scores).
Proof.
  apply (proj2 (proj2 (proj2 (empty_skills_embedding (fun _ => Return [1%float]) None)))
           (Return "80"%string) resume_without_vector job_with_vector [0.5; 0.25]%float).
  - reflexivity.
  - reflexivity.
  - reflexivity.
  - discriminate.
Defined.

(** ** Replies of the model that carry no leading number *)

Module ReplyFacts.

Lemma parseInt_without_number (c : ascii) (r : string) :
  JSString.is_space c = false -> JSString.is_digit c = false ->
  c <> "+"%char -> c <> "-"%char ->
  PrimFloat.is_nan (parseInt (String c r)) = true.
Proof.
  intros Hs Hd Hp Hm.
  destruct c as [[] [] [] [] [] [] [] []];
    try (vm_compute in Hs; discriminate);
    try (vm_compute in Hd; discriminate);
    try (now elim Hp); try (now elim Hm);
    reflexivity.
Qed.

End ReplyFacts.

(** X26.  A reply of the model that, once trimmed, does not begin with a
    digit or a sign (such as "Score: 85") is read as no number at all: the
    AI-assisted skills score is then 0, and nothing is logged. *)
Theorem reply_without_leading_number
  (text : string) (c : ascii) (r : string)
  (resumeSkill : Resume.skill) (resumeSkills : list Resume.skill)
  (jobSkill : Job.skill) (jobSkills : list Job.skill) :
  JSString.trim text = String c r ->
  JSString.is_space c = false -> JSString.is_digit c = false ->
  c <> "+"%char -> c <> "-"%char ->
  calculateSkillsMatch (Return text)
    (Some (resumeSkill :: resumeSkills)) (Some (jobSkill :: jobSkills))
  = ([], Return 0%float).
Proof.
  intros Ht Hs Hd Hp Hm. unfold calculateSkillsMatch. cbn [lift JS.bind try_catch ret].
  rewrite Ht, (ReplyFacts.parseInt_without_number c r Hs Hd Hp Hm). reflexivity.
Qed.

Lemma reply_without_leading_number_witness :
  calculateSkillsMatch (Return "Score: 85"%string)
    (Some [ {| Resume.name := Some "Python"%string |} ]) (Some [ {| Job.name := Some "Python"%string |} ])
  = ([], Return 0%float).
Proof.
  apply (reply_without_leading_number "Score: 85"%string "S"%char "core: 85"%string);
    first [reflexivity | discriminate].
Defined.
(** ** The similarity in double precision: symmetry and scale *)

Module DirectionFacts.

Lemma SFmul_comm (x y : spec_float) : SFmul prec emax x y = SFmul prec emax y x.
Proof.
  destruct x as [sx|sx| |sx mx ex], y as [sy|sy| |sy my ey]; cbn [SFmul];
    try reflexivity; try (now rewrite xorb_comm).
  now rewrite xorb_comm, Pos.mul_comm, Z.add_comm.
Qed.

(** The product of two doubles does not depend on their order. *)
Lemma mul_comm (x y : number) : (x * y)%float = (y * x)%float.
Proof.
  rewrite <- (SF2Prim_Prim2SF (x * y)), <- (SF2Prim_Prim2SF (y * x)).
  rewrite !FloatAxioms.mul_spec. unfold SF64mul. now rewrite SFmul_comm.
Qed.

Lemma loop_swap (a : list number) : forall (b : list number) d x y,
  cosine_loop binary64 b a (d, y, x)
  = let '(d', x', y') := cosine_loop binary64 a b (d, x, y) in (d', y', x').
Proof.
  induction a as [|u a IH]; intros [|v b] d x y; try reflexivity.
  cbn [cosine_loop]. cbn [add mul binary64].
  rewrite (mul_comm v u). apply IH.
Qed.

End DirectionFacts.

(** X25.  In double precision the similarity is symmetric in its two
    vectors, bit for bit and with the length error included.  It is not
    free of scale there: multiplying a vector by 3 can change the
    result. *)
Theorem cosine_symmetric (a b : list number) :
  cosineSimilarity binary64 a b = cosineSimilarity binary64 b a
  /\ cosineSimilarity binary64 [3; 3; 3]%float [1; 1; 1]%float
     <> cosineSimilarity binary64 [1; 1; 1]%float [1; 1; 1]%float.
Proof.
  split.
  - unfold cosineSimilarity.
    rewrite (Nat.eqb_sym (@List.length (num binary64) b) (@List.length (num binary64) a)).
    destruct (negb (@List.length (num binary64) a =? @List.length (num binary64) b)%nat);
      [reflexivity|].
    rewrite (DirectionFacts.loop_swap a b (zero binary64) (zero binary64) (zero binary64)).
    destruct (cosine_loop binary64 a b (zero binary64, zero binary64, zero binary64))
      as [[d x] y].
    cbn [sqrt is_zero mul div binary64].
    rewrite (orb_comm (PrimFloat.eqb (PrimFloat.sqrt y) PrimFloat.zero)).
    rewrite (DirectionFacts.mul_comm (PrimFloat.sqrt y) (PrimFloat.sqrt x)).
    reflexivity.
  - intros H.
    assert (Hb : match cosineSimilarity binary64 [3; 3; 3]%float [1; 1; 1]%float,
                       cosineSimilarity binary64 [1; 1; 1]%float [1; 1; 1]%float with
                 | Return u, Return v => PrimFloat.Leibniz.eqb u v
                 | _, _ => false
                 end = true).
    { rewrite H. vm_compute. reflexivity. }
    vm_compute in Hb. discriminate.
Qed.
